(** * FluexGL: renderer, scene, camera and frame scheduler

    A shallow embedding of the core of FluexGL (WebGPURenderer,
    WebGPURendererScene, Camera, Thread) and the properties of its
    specification.

    Conventions of the embedding.
    - A JavaScript [number] is an exact rational or one of the three IEEE
      special values; the sign of zero is not modelled.  The product that
      [SetSize] floors is rounded to binary64 ([JS.fmul]); the arithmetic of
      the Thread is exact.
    - Timestamps come from [Date.now()] and are integers ([Z]).
    - The platform (GPU device, canvas context, animation-frame scheduler,
      diagnostics sink, event listeners) is a [World]: a supply of fresh
      handles, the live textures and buffers, and the [trace] of every call
      the library makes to it, oldest first.  Listeners and Renderables are
      opaque collaborators: invoking one is recorded in the trace.
    - A method that mutates [this] takes the object and returns the new one. *)

From Stdlib Require Import ZArith QArith Qround Qminmax Qabs Lia Lqa List Bool String.
From Stdlib Require Import Init.Byte.
From stdpp Require Import base option list gmap vector sorting.

Local Open Scope Z_scope.

(** ** JavaScript numbers *)

Module JS.

Inductive number : Type :=
| Fin (q : Q)
| PInf
| NInf
| NaN.

Definition ofZ (z : Z) : number := Fin (inject_Z z).

(** [Number.isFinite] *)
Definition isFinite (x : number) : bool :=
  match x with Fin _ => true | _ => false end.

(** The relational comparison of two numbers; undefined when one is NaN. *)
Definition compare (x y : number) : option comparison :=
  match x, y with
  | NaN, _ | _, NaN => None
  | Fin a, Fin b => Some (a ?= b)%Q
  | PInf, PInf | NInf, NInf => Some Eq
  | NInf, _ | _, PInf => Some Lt
  | PInf, _ | _, NInf => Some Gt
  end.

(** [x <= y] *)
Definition le (x y : number) : bool :=
  match compare x y with Some Lt | Some Eq => true | _ => false end.

(** [x > y] *)
Definition gt (x y : number) : bool :=
  match compare x y with Some Gt => true | _ => false end.

(** [x === y] *)
Definition strict_eq (x y : number) : bool :=
  match compare x y with Some Eq => true | _ => false end.

(** [Math.min(x, y)] and [Math.max(x, y)]: NaN when an argument is NaN. *)
Definition min (x y : number) : number :=
  match compare x y with
  | None => NaN
  | Some Gt => y
  | Some _ => x
  end.

Definition max (x y : number) : number :=
  match compare x y with
  | None => NaN
  | Some Lt => y
  | Some _ => x
  end.

Definition neg (x : number) : number :=
  match x with
  | Fin q => Fin (- q)%Q
  | PInf => NInf
  | NInf => PInf
  | NaN => NaN
  end.

(** An infinity multiplied or divided by a finite [q]. *)
Definition scale_inf (inf : number) (q : Q) : number :=
  match (q ?= 0)%Q with
  | Eq => NaN
  | Gt => inf
  | Lt => neg inf
  end.

(** [x * y] *)
Definition mul (x y : number) : number :=
  match x, y with
  | NaN, _ | _, NaN => NaN
  | Fin a, Fin b => Fin (a * b)%Q
  | Fin a, inf => scale_inf inf a
  | inf, Fin b => scale_inf inf b
  | PInf, PInf | NInf, NInf => PInf
  | _, _ => NInf
  end.

(** [x / y] *)
Definition div (x y : number) : number :=
  match x, y with
  | NaN, _ | _, NaN => NaN
  | Fin a, Fin b =>
      if Qeq_bool b 0 then scale_inf PInf a else Fin (a / b)%Q
  | Fin _, _ => Fin 0%Q
  | inf, Fin b => if Qeq_bool b 0 then inf else scale_inf inf b
  | _, _ => NaN
  end.

(** [Math.floor(x)] *)
Definition floor (x : number) : number :=
  match x with
  | Fin q => ofZ (Qfloor q)
  | other => other
  end.

(** Rounding towards zero, the first step of the integer conversions. *)
Definition Qtruncate (q : Q) : Z :=
  if Qle_bool 0 q then Qfloor q else Qceiling q.

(** A 32-bit two's complement reading of an integer. *)
Definition wrap32 (z : Z) : Z := (z + 2 ^ 31) mod 2 ^ 32 - 2 ^ 31.

(** [x | 0], the ToInt32 conversion. *)
Definition toInt32 (x : number) : Z :=
  match x with
  | Fin q => wrap32 (Qtruncate q)
  | _ => 0
  end.

(** *** Rounding to binary64

    A product of two doubles is the exact product rounded to the nearest
    double, ties to the even significand (IEEE 754, the only rounding
    JavaScript has).  A double has a 53-bit significand; below 2^-1022 the
    spacing stays 2^-1074; a result of 2^1024 or more is an infinity. *)

Definition pow2 (e : Z) : Q := (2 ^ e)%Q.

(** The integer [e] with [2^e <= a < 2^(e+1)], for [a > 0]. *)
Definition ilog2 (a : Q) : Z :=
  let e := Z.log2 (Qnum a) - Z.log2 (Zpos (Qden a)) in
  if Qle_bool (pow2 e) a then e else e - 1.

(** The nearest integer, a tie going to the even one. *)
Definition round_half_even (q : Q) : Z :=
  let f := Qfloor q in
  match (q - inject_Z f ?= 1 # 2)%Q with
  | Lt => f
  | Gt => f + 1
  | Eq => if Z.even f then f else f + 1
  end.

(** The double nearest to the rational [q]. *)
Definition round64 (q : Q) : number :=
  if Qeq_bool q 0 then Fin 0
  else
    let a := Qabs q in
    let ex := Z.max (ilog2 a - 52) (-1074) in
    let r := (inject_Z (round_half_even (a / pow2 ex)) * pow2 ex)%Q in
    if Qle_bool (pow2 1024) r then (if Qle_bool 0 q then PInf else NInf)
    else Fin (Qred (if Qle_bool 0 q then r else - r)).

(** [x * y] as the machine computes it. *)
Definition fmul (x y : number) : number :=
  match mul x y with
  | Fin q => round64 q
  | other => other
  end.

(** The conversion of a number to a Web IDL [unsigned long]: NaN and the
    infinities give 0, a finite number is truncated and taken modulo 2^32. *)
Definition toUint32 (x : number) : Z :=
  match x with
  | Fin q => Qtruncate q mod 2 ^ 32
  | _ => 0
  end.

(** Numeric equality of two numbers (NaN differs from itself). *)
Definition num_eq (x y : number) : Prop :=
  match x, y with
  | Fin a, Fin b => (a == b)%Q
  | PInf, PInf | NInf, NInf => True
  | _, _ => False
  end.

(** A finite, strictly positive number. *)
Definition finite_positive (x : number) : Prop :=
  match x with Fin q => (0 < q)%Q | _ => False end.

End JS.

Abbreviation number := JS.number.

(** ** The platform *)

Definition handle := nat.

(** The codes of [codes.ts] that the embedded methods pass to the sink. *)
Inductive ErrorCodes : Type :=
| WGPUR_SCENE_NOT_PREPARED
| WGPURSCENE_RENDERER_NOT_INITIALIZED
| THREAD_INVALID_SIMULATION_UPDATE_RATE
| THREAD_INVALID_DELTA_TIME
| CAM_UNIFORM_BUFFER_UNDEFINED.

Inductive WarningCodes : Type :=
| THREAD_ALREADY_ACTIVE
| THREAD_ALREADY_INACTIVE.

(** typings.ts, [ThreadOnLoopEvent] *)
Record ThreadOnLoopEvent := {
  ev_now : Z;
  ev_deltaTime : number;
  ev_frameRate : nat;
  ev_lastRegisteredTimestamp : Z;
  ev_simulationUpdateRate : number
}.

Inductive ThreadEventName := EvIdle | EvStart | EvStop | EvUpdate.

Record GPUColor := { col_r : number; col_g : number; col_b : number; col_a : number }.

Record GPUTextureDescriptor := {
  tex_width : Z;
  tex_height : Z;
  tex_format : string;
  tex_sampleCount : number
}.

(** One colour attachment of a render pass, as [BeginFrame] builds it. *)
Record GPURenderPassColorAttachment := {
  att_view : option handle;
  att_resolveTarget : option handle;
  att_clearValue : GPUColor
}.

Record GPUDevice := {
  dev_id : handle;
  dev_queue : option handle
}.

(** Every call that leaves the library. *)
Inductive Effect : Type :=
| DebugLog
| DebugWarn (code : WarningCodes)
| DebugError (code : ErrorCodes)
| RequestAnimationFrame (id : handle)
| CancelAnimationFrame (id : handle)
| Dispatch (name : ThreadEventName) (listener : nat) (payload : option ThreadOnLoopEvent)
| GetCurrentTexture (context texture : handle)
| CreateView (texture view : handle)
| CreateCommandEncoder (device encoder : handle)
| BeginRenderPass (encoder : handle) (color : GPURenderPassColorAttachment)
                  (depthView : option handle) (pass : handle)
| PassEnd (pass : handle)
| EncoderFinish (encoder buffer : handle)
| QueueSubmit (queue buffer : handle)
| CreateTexture (device : handle) (desc : GPUTextureDescriptor) (texture : handle)
| DestroyTexture (texture : handle)
| CreateBuffer (device : handle) (size : nat) (buffer : handle)
| WriteBuffer (queue buffer : handle) (offset : nat) (data : list byte)
| CreateBindGroupLayout (device layout : handle)
| CreateBindGroup (device layout buffer group : handle)
| SetBindGroup (pass : handle) (index : nat) (group : option handle)
| RenderableInitialize (renderable : nat) (device : option GPUDevice)
                       (format : string) (sampleCount : number)
| RenderableRender (renderable : nat) (pass : handle).

Record World := {
  next_handle : handle;
  textures : gmap handle GPUTextureDescriptor;
  buffers : gmap handle (list byte);
  trace : list Effect
}.

(** The platform before any call. *)
Definition empty_world : World :=
  {| next_handle := 0%nat; textures := ∅; buffers := ∅; trace := [] |}.

Definition emit (e : Effect) (w : World) : World :=
  {| next_handle := next_handle w; textures := textures w;
     buffers := buffers w; trace := trace w ++ [e] |}.

(** A fresh handle. *)
Definition fresh (w : World) : handle * World :=
  (next_handle w,
   {| next_handle := S (next_handle w); textures := textures w;
      buffers := buffers w; trace := trace w |}).

(** The entries of the diagnostics sink found in a trace. *)
Definition is_diagnostic (e : Effect) : bool :=
  match e with
  | DebugLog | DebugWarn _ | DebugError _ => true
  | _ => false
  end.

Definition diagnostics (l : list Effect) : list Effect :=
  List.filter is_diagnostic l.

Definition requestAnimationFrame (w : World) : handle * World :=
  let (id, w1) := fresh w in (id, emit (RequestAnimationFrame id) w1).

(** [listeners.forEach(fn => fn(payload))] *)
Definition dispatch (name : ThreadEventName) (payload : option ThreadOnLoopEvent)
    (listeners : list nat) (w : World) : World :=
  fold_left (fun acc l => emit (Dispatch name l payload) acc) listeners w.

(** ** Thread, the frame scheduler (others/classes/Thread.ts) *)

Module Thread.

Record ThreadEvents := {
  idle : list nat;
  start : list nat;
  stop : list nat;
  update : list nat
}.

(** [animationFrame] is [None] where the source holds 0. *)
Record Thread := {
  simulationUpdateRate : number;
  frameRate : nat;
  deltaTime : number;
  currentRegisteredTimestamp : Z;
  lastRegisteredTimestamp : Z;
  startTimestamp : Z;
  events : ThreadEvents;
  isActive : bool;
  animationFrame : option handle;
  times : list Z;
  maxDeltaMs : number
}.

(** [new Thread()]; the three field initialisers each read the clock. *)
Definition new (t1 t2 t3 : Z) : Thread :=
  {| simulationUpdateRate := JS.ofZ 60;
     frameRate := 0%nat;
     deltaTime := JS.ofZ 0;
     currentRegisteredTimestamp := t1;
     lastRegisteredTimestamp := t2;
     startTimestamp := t3;
     events := {| idle := []; start := []; stop := []; update := [] |};
     isActive := false;
     animationFrame := None;
     times := [];
     maxDeltaMs := JS.ofZ 250 |}.

(** [while (times.length > 0 && times[0] <= now - 1000) times.shift()] *)
Fixpoint evict (now : Z) (ts : list Z) : list Z :=
  match ts with
  | [] => []
  | t :: rest => if t <=? now - 1000 then evict now rest else ts
  end.

(** The body of [loop] up to the assignment of [deltaTime]. *)
Definition tick_delta (th : Thread) (now : Z) : number :=
  let rawDeltaMs := JS.ofZ (now - lastRegisteredTimestamp th) in
  let deltaMs := JS.min rawDeltaMs (maxDeltaMs th) in
  let deltaSec := JS.div deltaMs (JS.ofZ 1000) in
  JS.mul deltaSec (simulationUpdateRate th).

(** [loop]; [now] is the value [Date.now()] returns in this tick. *)
Definition loop (now : Z) (th : Thread) (w : World) : Thread * World :=
  if negb (isActive th) then (th, w)
  else
    let (raf, w1) := requestAnimationFrame w in
    let dt := tick_delta th now in
    let window := evict now (times th) ++ [now] in
    let th' :=
      {| simulationUpdateRate := simulationUpdateRate th;
         frameRate := length window;
         deltaTime := dt;
         currentRegisteredTimestamp := now;
         lastRegisteredTimestamp := now;
         startTimestamp := startTimestamp th;
         events := events th;
         isActive := isActive th;
         animationFrame := Some raf;
         times := window;
         maxDeltaMs := maxDeltaMs th |} in
    let payload :=
      {| ev_now := now;
         ev_deltaTime := deltaTime th';
         ev_frameRate := frameRate th';
         ev_lastRegisteredTimestamp := lastRegisteredTimestamp th';
         ev_simulationUpdateRate := simulationUpdateRate th' |} in
    (th', dispatch EvUpdate (Some payload) (update (events th')) w1).

(** [Start]; [now] is the value of [Date.now()]. *)
Definition Start (now : Z) (th : Thread) (w : World) : Thread * World :=
  if isActive th then (th, emit (DebugWarn THREAD_ALREADY_ACTIVE) w)
  else
    let w1 := dispatch EvStart None (start (events th)) w in
    let (raf, w2) := requestAnimationFrame w1 in
    ({| simulationUpdateRate := simulationUpdateRate th;
        frameRate := 0%nat;
        deltaTime := deltaTime th;
        currentRegisteredTimestamp := now;
        lastRegisteredTimestamp := now;
        startTimestamp := now;
        events := events th;
        isActive := true;
        animationFrame := Some raf;
        times := [];
        maxDeltaMs := maxDeltaMs th |}, w2).

(** [Stop] *)
Definition Stop (th : Thread) (w : World) : Thread * World :=
  if negb (isActive th) then (th, emit (DebugWarn THREAD_ALREADY_INACTIVE) w)
  else
    let w1 :=
      match animationFrame th with
      | Some id => emit (CancelAnimationFrame id) w
      | None => w
      end in
    let w2 := dispatch EvStop None (stop (events th)) w1 in
    let w3 := dispatch EvIdle None (idle (events th)) w2 in
    ({| simulationUpdateRate := simulationUpdateRate th;
        frameRate := frameRate th;
        deltaTime := deltaTime th;
        currentRegisteredTimestamp := currentRegisteredTimestamp th;
        lastRegisteredTimestamp := lastRegisteredTimestamp th;
        startTimestamp := startTimestamp th;
        events := events th;
        isActive := false;
        animationFrame := None;
        times := times th;
        maxDeltaMs := maxDeltaMs th |}, w3).

(** [SetSimulationUpdateRate] *)
Definition SetSimulationUpdateRate (rate : number) (th : Thread) (w : World)
    : Thread * World :=
  if negb (JS.isFinite rate) || JS.le rate (JS.ofZ 0) then
    (th, emit (DebugError THREAD_INVALID_SIMULATION_UPDATE_RATE) w)
  else
    ({| simulationUpdateRate := rate;
        frameRate := frameRate th;
        deltaTime := deltaTime th;
        currentRegisteredTimestamp := currentRegisteredTimestamp th;
        lastRegisteredTimestamp := lastRegisteredTimestamp th;
        startTimestamp := startTimestamp th;
        events := events th;
        isActive := isActive th;
        animationFrame := animationFrame th;
        times := times th;
        maxDeltaMs := maxDeltaMs th |}, w).

(** [SetMaxDeltaMs] *)
Definition SetMaxDeltaMs (ms : number) (th : Thread) (w : World)
    : Thread * World :=
  if negb (JS.isFinite ms) || JS.le ms (JS.ofZ 0) then
    (th, emit (DebugError THREAD_INVALID_DELTA_TIME) w)
  else
    ({| simulationUpdateRate := simulationUpdateRate th;
        frameRate := frameRate th;
        deltaTime := deltaTime th;
        currentRegisteredTimestamp := currentRegisteredTimestamp th;
        lastRegisteredTimestamp := lastRegisteredTimestamp th;
        startTimestamp := startTimestamp th;
        events := events th;
        isActive := isActive th;
        animationFrame := animationFrame th;
        times := times th;
        maxDeltaMs := ms |}, w).

(** The scheduler calling [loop] once per tick, at the given clock readings. *)
Definition ticks (nows : list Z) (th : Thread) (w : World) : Thread * World :=
  fold_left (fun s now => loop now (fst s) (snd s)) nows (th, w).

(** What two schedulers must share for their ticks to report the same. *)
Definition same_timing (a b : Thread) : Prop :=
  isActive a = isActive b
  /\ times a = times b
  /\ lastRegisteredTimestamp a = lastRegisteredTimestamp b
  /\ simulationUpdateRate a = simulationUpdateRate b
  /\ maxDeltaMs a = maxDeltaMs b.

End Thread.

(** ** Exceptions

    A method that can throw runs in [M]: it returns a value or throws, and
    in both cases leaves the world it reached. *)

Inductive JsError : Type :=
| TypeError
| Rejected (renderable : nat).

Inductive Res (A : Type) : Type :=
| Ok (a : A)
| Throw (e : JsError).
Arguments Ok {A} a.
Arguments Throw {A} e.

Definition M (A : Type) : Type := World -> Res A * World.

Definition ret {A} (a : A) : M A := fun w => (Ok a, w).

Definition bind {A B} (m : M A) (k : A -> M B) : M B :=
  fun w =>
    match m w with
    | (Ok a, w1) => k a w1
    | (Throw e, w1) => (Throw e, w1)
    end.

Definition throw {A} (e : JsError) : M A := fun w => (Throw e, w).

(** Reading a property of a value that may be undefined. *)
Definition deref {A} (o : option A) : M A :=
  match o with
  | Some a => ret a
  | None => throw TypeError
  end.

(** A call to the platform that cannot throw. *)
Definition call {A} (f : World -> A * World) : M A :=
  fun w => let (a, w1) := f w in (Ok a, w1).

Definition tell (e : Effect) : M unit := fun w => (Ok tt, emit e w).

Declare Scope js_scope.
Delimit Scope js_scope with js.
Notation "'let!' x ':=' m 'in' k" := (bind m (fun x => k))
  (at level 10, x name, m at level 100, k at level 200) : js_scope.
Notation "'let!' ' p ':=' m 'in' k" := (bind m (fun p => k))
  (at level 10, p pattern, m at level 100, k at level 200) : js_scope.

(** ** GPU primitives *)

Definition createTexture (dev : GPUDevice) (desc : GPUTextureDescriptor)
    (w : World) : handle * World :=
  let (t, w1) := fresh w in
  (t, emit (CreateTexture (dev_id dev) desc t)
        {| next_handle := next_handle w1;
           textures := <[t := desc]> (textures w1);
           buffers := buffers w1;
           trace := trace w1 |}).

Definition destroyTexture (t : handle) (w : World) : World :=
  emit (DestroyTexture t)
    {| next_handle := next_handle w;
       textures := delete t (textures w);
       buffers := buffers w;
       trace := trace w |}.

Definition createView (t : handle) (w : World) : handle * World :=
  let (v, w1) := fresh w in (v, emit (CreateView t v) w1).

(** [texture?.destroy()] *)
Definition destroy_if_present (t : option handle) (w : World) : World :=
  match t with
  | Some h => destroyTexture h w
  | None => w
  end.

(** [device.createBuffer({ size })]; a new buffer is zero-filled. *)
Definition createBuffer (dev : GPUDevice) (size : nat) (w : World)
    : handle * World :=
  let (b, w1) := fresh w in
  (b, emit (CreateBuffer (dev_id dev) size b)
        {| next_handle := next_handle w1;
           textures := textures w1;
           buffers := <[b := replicate size x00]> (buffers w1);
           trace := trace w1 |}).

(** [queue.writeBuffer(buffer, offset, data)]: the bytes of [data] replace
    those of the buffer from [offset] on; a write that does not fit the
    buffer is refused by the device and changes nothing. *)
Definition writeBuffer (queue buf : handle) (offset : nat) (data : list byte)
    (w : World) : World :=
  let w1 := emit (WriteBuffer queue buf offset data) w in
  match buffers w !! buf with
  | Some content =>
      if (offset + length data <=? length content)%nat then
        {| next_handle := next_handle w1;
           textures := textures w1;
           buffers :=
             <[buf := take offset content ++ data
                      ++ drop (offset + length data) content]> (buffers w1);
           trace := trace w1 |}
      else w1
  | None => w1
  end.

(** ** Camera (camera/classes/Camera.ts) *)

(** An element of a [Float32Array]: its four bytes in memory. *)
Definition float32 := vec byte 4.
Definition mat4 := vec float32 16.
Definition vec3 := vec float32 3.

(** The bytes of a [Float32Array], in memory order. *)
Definition bytes_of {n} (a : vec float32 n) : list byte :=
  mjoin (vec_to_list <$> vec_to_list a).

(** The part of gl-matrix the camera uses.  [fround] is the rounding of a
    number stored into a [Float32Array]; [mat4] is column-major by the
    library's convention. *)
Class GlMatrix := {
  fround : number -> float32;
  mat4_lookAt : vec3 -> vec3 -> vec3 -> mat4;
  mat4_multiply : mat4 -> mat4 -> mat4
}.

Module Camera.

Record Vector3 := { x : number; y : number; z : number }.

Record Camera := {
  position : Vector3;
  target : Vector3;
  up : Vector3;
  aspect : number;
  view : mat4;
  projection : mat4;
  viewProjection : mat4;
  uniformBuffer : option handle;
  bindGroup : option handle;
  bindGroupLayout : option handle
}.

(** The abstract method [updateProjection], given by the concrete camera. *)
Class Projection := { updateProjection : Camera -> mat4 }.

Section Methods.
Context `{GlMatrix} `{Projection}.

(** [vec3.fromValues(v.x, v.y, v.z)] *)
Definition vec3_fromValues (v : Vector3) : vec3 :=
  [# fround (x v); fround (y v); fround (z v)].

Definition updateMatrices (c : Camera) : Camera :=
  let v :=
    mat4_lookAt (vec3_fromValues (position c)) (vec3_fromValues (target c))
      (vec3_fromValues (up c)) in
  let c1 :=
    {| position := position c; target := target c; up := up c;
       aspect := aspect c; view := v; projection := projection c;
       viewProjection := viewProjection c; uniformBuffer := uniformBuffer c;
       bindGroup := bindGroup c; bindGroupLayout := bindGroupLayout c |} in
  let p := updateProjection c1 in
  {| position := position c; target := target c; up := up c;
     aspect := aspect c; view := v; projection := p;
     viewProjection := mat4_multiply p v; uniformBuffer := uniformBuffer c;
     bindGroup := bindGroup c; bindGroupLayout := bindGroupLayout c |}.

Definition set_uniformBuffer (b : option handle) (c : Camera) : Camera :=
  {| position := position c; target := target c; up := up c;
     aspect := aspect c; view := view c; projection := projection c;
     viewProjection := viewProjection c; uniformBuffer := b;
     bindGroup := bindGroup c; bindGroupLayout := bindGroupLayout c |}.

Definition set_bindGroup (g : option handle) (c : Camera) : Camera :=
  {| position := position c; target := target c; up := up c;
     aspect := aspect c; view := view c; projection := projection c;
     viewProjection := viewProjection c; uniformBuffer := uniformBuffer c;
     bindGroup := g; bindGroupLayout := bindGroupLayout c |}.

Definition set_bindGroupLayout (l : option handle) (c : Camera) : Camera :=
  {| position := position c; target := target c; up := up c;
     aspect := aspect c; view := view c; projection := projection c;
     viewProjection := viewProjection c; uniformBuffer := uniformBuffer c;
     bindGroup := bindGroup c; bindGroupLayout := l |}.

(** [CreateUniformBuffer]; the device may be undefined at the call. *)
Definition CreateUniformBuffer (device : option GPUDevice) (c : Camera)
    : M (Camera * handle) :=
  match uniformBuffer c with
  | Some b => ret (c, b)
  | None =>
      (let! dev := deref device in
       let! b := call (createBuffer dev 80) in
       ret (set_uniformBuffer (Some b) c, b))%js
  end.

(** [WriteUniformsToQueue] *)
Definition WriteUniformsToQueue (queue : handle) (c : Camera) (w : World)
    : World :=
  match uniformBuffer c with
  | None => emit (DebugError CAM_UNIFORM_BUFFER_UNDEFINED) w
  | Some b =>
      let w1 := writeBuffer queue b 0 (bytes_of (viewProjection c)) w in
      writeBuffer queue b 64 (bytes_of (vec3_fromValues (position c))) w1
  end.

(** [EnsureBinding] *)
Definition EnsureBinding (device : option GPUDevice) (c : Camera) : M Camera :=
  (let! c1 :=
     match bindGroupLayout c with
     | Some _ => ret c
     | None =>
         let! dev := deref device in
         let! l := call fresh in
         let! _ := tell (CreateBindGroupLayout (dev_id dev) l) in
         ret (set_bindGroupLayout (Some l) c)
     end in
   let! c2 :=
     match bindGroup c1 with
     | Some _ => ret c1
     | None =>
         let! ' (c', b) := CreateUniformBuffer device c1 in
         let! dev := deref device in
         let! g := call fresh in
         let! _ := tell (CreateBindGroup (dev_id dev)
                           (default 0%nat (bindGroupLayout c')) b g) in
         ret (set_bindGroup (Some g) c')
     end in
   ret (updateMatrices c2))%js.

End Methods.

End Camera.

(** ** WebGPURenderer (renderer/classes/WebGPURenderer.ts) *)

Module Renderer.

(** The options the embedded methods read; an absent option is [None]. *)
Record WebGPURendererOptions := {
  canvasWidth : option number;
  canvasHeight : option number;
  msaaSampleCount : option number;
  clearColor : option GPUColor
}.

(** The canvas element, as far as the renderer assigns it.  Its [width] and
    [height] are the reflected attributes of an [HTMLCanvasElement], of type
    [unsigned long] with the defaults 300 and 150: the fields hold what a
    read gives back. *)
Record Canvas := {
  canvas_width : number;
  canvas_height : number
}.

(** What a canvas dimension reads after [v] was assigned to it: [v] as an
    unsigned long when that is at most 2^31 - 1, the attribute's default
    otherwise. *)
Definition reflect_dimension (default : Z) (v : number) : number :=
  let u := JS.toUint32 v in
  JS.ofZ (if u <=? 2147483647 then u else default).

(** [canvas.width = v] and [canvas.height = v] *)
Definition set_canvas_width (v : number) (cv : Canvas) : Canvas :=
  {| canvas_width := reflect_dimension 300 v;
     canvas_height := canvas_height cv |}.

Definition set_canvas_height (v : number) (cv : Canvas) : Canvas :=
  {| canvas_width := canvas_width cv;
     canvas_height := reflect_dimension 150 v |}.

Record WebGPURenderer := {
  width : number;
  height : number;
  devicePixelRatio : number;
  msaaTexture : option handle;
  depthTexture : option handle;
  msaaTextureView : option handle;
  depthTextureView : option handle;
  hasInitialized : bool;
  gpuDevice : option GPUDevice;
  context : option handle;
  format : string;
  canvas : Canvas;
  options : WebGPURendererOptions
}.

(** typings.ts, [WebGPURendererFrameInfo] *)
Record WebGPURendererFrameInfo := {
  encoder : handle;
  pass : handle;
  colorView : handle
}.

(** [getMsaa] *)
Definition getMsaa (r : WebGPURenderer) : number :=
  let n := default (JS.ofZ 1) (msaaSampleCount (options r)) in
  if JS.strict_eq n (JS.ofZ 1) || JS.strict_eq n (JS.ofZ 2)
     || JS.strict_eq n (JS.ofZ 4) || JS.strict_eq n (JS.ofZ 8)
  then n else JS.ofZ 1.

Definition set_targets (dt dv mt mv : option handle) (r : WebGPURenderer)
    : WebGPURenderer :=
  {| width := width r; height := height r;
     devicePixelRatio := devicePixelRatio r;
     msaaTexture := mt; depthTexture := dt;
     msaaTextureView := mv; depthTextureView := dv;
     hasInitialized := hasInitialized r; gpuDevice := gpuDevice r;
     context := context r; format := format r; canvas := canvas r;
     options := options r |}.

(** [createOrResizeTargets] *)
Definition createOrResizeTargets (r : WebGPURenderer) (w : World)
    : WebGPURenderer * World :=
  let w1 := destroy_if_present (depthTexture r) w in
  let w2 := destroy_if_present (msaaTexture r) w1 in
  match gpuDevice r with
  | None => (r, w2)
  | Some dev =>
      let width := Z.max 1 (JS.toInt32 (width r)) in
      let height := Z.max 1 (JS.toInt32 (height r)) in
      let msaa := getMsaa r in
      let (dt, w3) :=
        createTexture dev
          {| tex_width := width; tex_height := height;
             tex_format := "depth24plus"; tex_sampleCount := msaa |} w2 in
      let (dv, w4) := createView dt w3 in
      if JS.gt msaa (JS.ofZ 1) then
        let (mt, w5) :=
          createTexture dev
            {| tex_width := width; tex_height := height;
               tex_format := format r; tex_sampleCount := msaa |} w4 in
        let (mv, w6) := createView mt w5 in
        (set_targets (Some dt) (Some dv) (Some mt) (Some mv) r, w6)
      else
        (set_targets (Some dt) (Some dv) None None r, w4)
  end.

(** [SetSize]: the two assignments to the canvas, then [this.width] and
    [this.height] read back from it. *)
Definition SetSize (width height : number) (r : WebGPURenderer) (w : World)
    : WebGPURenderer * World :=
  let cv :=
    set_canvas_height
      (JS.max (JS.ofZ 1) (JS.floor (JS.fmul height (devicePixelRatio r))))
      (set_canvas_width
         (JS.max (JS.ofZ 1) (JS.floor (JS.fmul width (devicePixelRatio r))))
         (canvas r)) in
  createOrResizeTargets
    {| Renderer.width := canvas_width cv; Renderer.height := canvas_height cv;
       devicePixelRatio := devicePixelRatio r;
       msaaTexture := msaaTexture r; depthTexture := depthTexture r;
       msaaTextureView := msaaTextureView r;
       depthTextureView := depthTextureView r;
       hasInitialized := hasInitialized r; gpuDevice := gpuDevice r;
       context := context r; format := format r; canvas := cv;
       options := options r |} w.

Definition default_clear : GPUColor :=
  {| col_r := JS.ofZ 0; col_g := JS.ofZ 0; col_b := JS.ofZ 0; col_a := JS.ofZ 1 |}.

(** [this.context.getCurrentTexture().createView()] *)
Definition currentTextureView (ctx : handle) (w : World) : handle * World :=
  let (t, w1) := fresh w in
  createView t (emit (GetCurrentTexture ctx t) w1).

Definition createCommandEncoder (dev : GPUDevice) (w : World) : handle * World :=
  let (e, w1) := fresh w in (e, emit (CreateCommandEncoder (dev_id dev) e) w1).

Definition beginRenderPass (enc : handle) (color : GPURenderPassColorAttachment)
    (depthView : option handle) (w : World) : handle * World :=
  let (p, w1) := fresh w in (p, emit (BeginRenderPass enc color depthView p) w1).

(** The sample count [BeginFrame] branches on. *)
Definition frame_msaa (r : WebGPURenderer) : number :=
  JS.max (JS.ofZ 1) (default (JS.ofZ 1) (msaaSampleCount (options r))).

(** [BeginFrame] *)
Definition BeginFrame (r : WebGPURenderer)
    : M (WebGPURenderer * WebGPURendererFrameInfo) :=
  (let clear := default default_clear (clearColor (options r)) in
   let! ctx := deref (context r) in
   let! currentView := call (currentTextureView ctx) in
   let! dev := deref (gpuDevice r) in
   let! enc := call (createCommandEncoder dev) in
   let msaa := frame_msaa r in
   let! r1 :=
     match depthTextureView r with
     | None => call (createOrResizeTargets r)
     | Some _ => ret r
     end in
   let! ' (r3, colorAttachment) :=
     if JS.gt msaa (JS.ofZ 1) then
       let! r2 :=
         match msaaTextureView r1 with
         | None => call (createOrResizeTargets r1)
         | Some _ => ret r1
         end in
       ret (r2, {| att_view := msaaTextureView r2;
                   att_resolveTarget := Some currentView;
                   att_clearValue := clear |})
     else
       ret (r1, {| att_view := Some currentView;
                   att_resolveTarget := None;
                   att_clearValue := clear |}) in
   let! p := call (beginRenderPass enc colorAttachment (depthTextureView r3)) in
   ret (r3, {| encoder := enc; pass := p; colorView := currentView |}))%js.

(** [EndFrame] *)
Definition EndFrame (r : WebGPURenderer) (frameInfo : WebGPURendererFrameInfo)
    : M unit :=
  (let! _ := tell (PassEnd (pass frameInfo)) in
   let! dev := deref (gpuDevice r) in
   let! q := deref (dev_queue dev) in
   let! cb := call fresh in
   let! _ := tell (EncoderFinish (encoder frameInfo) cb) in
   tell (QueueSubmit q cb))%js.

End Renderer.

(** ** Renderable and WebGPURendererScene *)

Module Scene.

(** A Renderable is known by its identity.  [initializes] tells whether its
    [Initialize] resolves for the given arguments (it rejects when the device
    refuses the pipeline); its [Render] is taken to return normally. *)
Record Renderable := {
  id : nat;
  isRenderable : bool;
  initializes : option GPUDevice -> string -> number -> bool
}.

(** The scene's [renderer] is passed to the methods that read it. *)
Record WebGPURendererScene := {
  rendererables : list Renderable;
  hasPrepared : bool
}.

(** [new WebGPURendererScene(renderer)] *)
Definition new : WebGPURendererScene :=
  {| rendererables := []; hasPrepared := false |}.

(** [AddRenderable] *)
Definition AddRenderable (x : Renderable) (s : WebGPURendererScene)
    : WebGPURendererScene :=
  if isRenderable x then
    {| rendererables := rendererables s ++ [x]; hasPrepared := hasPrepared s |}
  else s.

(** [splice(index, 1)] at the first entry that is the object [x]. *)
Fixpoint remove_first (x : nat) (l : list Renderable) : list Renderable :=
  match l with
  | [] => []
  | y :: rest => if Nat.eqb (id y) x then rest else y :: remove_first x rest
  end.

(** [RemoveRenderable] *)
Definition RemoveRenderable (x : Renderable) (s : WebGPURendererScene)
    : WebGPURendererScene :=
  {| rendererables := remove_first (id x) (rendererables s);
     hasPrepared := hasPrepared s |}.

(** [ClearRenderables] *)
Definition ClearRenderables (s : WebGPURendererScene) : WebGPURendererScene :=
  {| rendererables := []; hasPrepared := hasPrepared s |}.

(** The loop of [Prepare]: one awaited [Initialize] after the other. *)
Fixpoint initialize_all (device : option GPUDevice) (format : string)
    (sampleCount : number) (l : list Renderable) : M unit :=
  match l with
  | [] => ret tt
  | x :: rest =>
      (let! _ := tell (RenderableInitialize (id x) device format sampleCount) in
       if initializes x device format sampleCount
       then initialize_all device format sampleCount rest
       else throw (Rejected (id x)))%js
  end.

Section Prepare.
Context `{GlMatrix} `{Camera.Projection}.

(** [Prepare]; the awaits are taken in one go, as on a single timeline.
    The result carries the scene and the camera as the call leaves them,
    also when it throws: a rejected [Initialize] or a failed binding
    leaves both as they were. *)
Definition Prepare (renderer : Renderer.WebGPURenderer) (camera : Camera.Camera)
    (s : WebGPURendererScene) (w : World)
    : Res unit * WebGPURendererScene * Camera.Camera * World :=
  if negb (Renderer.hasInitialized renderer) then
    (Ok tt, s, camera, emit (DebugError WGPURSCENE_RENDERER_NOT_INITIALIZED) w)
  else
    match
      (let! _ :=
         initialize_all (Renderer.gpuDevice renderer) (Renderer.format renderer)
           (default (JS.ofZ 1)
              (Renderer.msaaSampleCount (Renderer.options renderer)))
           (rendererables s) in
       Camera.EnsureBinding (Renderer.gpuDevice renderer) camera)%js w
    with
    | (Ok camera', w1) =>
        (Ok tt, {| rendererables := rendererables s; hasPrepared := true |},
         camera', emit DebugLog w1)
    | (Throw e, w1) => (Throw e, s, camera, w1)
    end.

End Prepare.

End Scene.

(** ** WebGPURenderer.Render *)

(** The loop of [Render]: [renderable.Render(frame.pass, viewProjection)]. *)
Definition render_all (pass : handle) (l : list Scene.Renderable) (w : World)
    : World :=
  fold_left (fun acc x => emit (RenderableRender (Scene.id x) pass) acc) l w.

Section Render.
Context `{GlMatrix}.

(** [Render] *)
Definition Render (r : Renderer.WebGPURenderer) (scene : Scene.WebGPURendererScene)
    (camera : Camera.Camera) : M Renderer.WebGPURenderer :=
  if negb (Scene.hasPrepared scene) then
    (let! _ := tell (DebugError WGPUR_SCENE_NOT_PREPARED) in ret r)%js
  else
    (let! dev := deref (Renderer.gpuDevice r) in
     match dev_queue dev with
     | None => ret r
     | Some q =>
         let! _ := call (fun w => (tt, Camera.WriteUniformsToQueue q camera w)) in
         let! ' (r', frame) := Renderer.BeginFrame r in
         let! _ := tell (SetBindGroup (Renderer.pass frame) 0
                           (Camera.bindGroup camera)) in
         let! _ := call (fun w =>
                     (tt, render_all (Renderer.pass frame)
                            (Scene.rendererables scene) w)) in
         let! _ := Renderer.EndFrame r' frame in
         ret r'
     end)%js.

End Render.

(** ** Reading a trace *)

(** The draws found in a trace: which Renderable drew into which pass. *)
Definition draws (l : list Effect) : list (nat * handle) :=
  omap (fun e => match e with
                 | RenderableRender i p => Some (i, p)
                 | _ => None
                 end) l.

(** The Renderables whose [Initialize] a trace records, with the sample
    count each was given. *)
Definition initializations (l : list Effect) : list (nat * number) :=
  omap (fun e => match e with
                 | RenderableInitialize i _ _ n => Some (i, n)
                 | _ => None
                 end) l.

(** The calls to the device, its queue, encoders and passes. *)
Definition is_gpu_call (e : Effect) : bool :=
  match e with
  | GetCurrentTexture _ _ | CreateView _ _ | CreateCommandEncoder _ _
  | BeginRenderPass _ _ _ _ | PassEnd _ | EncoderFinish _ _ | QueueSubmit _ _
  | CreateTexture _ _ _ | DestroyTexture _ | CreateBuffer _ _ _
  | WriteBuffer _ _ _ _ | CreateBindGroupLayout _ _ | CreateBindGroup _ _ _ _
  | SetBindGroup _ _ _ => true
  | _ => false
  end.

(** [w'] is [w] after device calls only. *)
Definition gpu_only (w w' : World) : Prop :=
  (next_handle w <= next_handle w')%nat
  /\ exists l, trace w' = trace w ++ l /\ Forall (fun e => is_gpu_call e = true) l.

(** The target descriptor [createOrResizeTargets] asks the device for. *)
Definition target_descriptor (r : Renderer.WebGPURenderer) (fmt : string)
    : GPUTextureDescriptor :=
  {| tex_width := Z.max 1 (JS.toInt32 (Renderer.width r));
     tex_height := Z.max 1 (JS.toInt32 (Renderer.height r));
     tex_format := fmt;
     tex_sampleCount := Renderer.getMsaa r |}.

(** The physical size the specification gives for a logical size and a
    pixel ratio: [max(1, floor(logical * ratio))]. *)
Definition physical_size (logical ratio : number) : number :=
  JS.max (JS.ofZ 1) (JS.floor (JS.fmul logical ratio)).

(** The largest dimension a canvas holds. *)
Definition max_canvas_dimension : Z := 2147483647.

(** ** Sample objects *)

Definition sample_device : GPUDevice :=
  {| dev_id := 1%nat; dev_queue := Some 2%nat |}.

(** A renderer that holds a device and a context, before any target exists. *)
Definition sample_renderer (msaa : option number) : Renderer.WebGPURenderer :=
  {| Renderer.width := JS.ofZ 0; Renderer.height := JS.ofZ 0;
     Renderer.devicePixelRatio := JS.ofZ 1;
     Renderer.msaaTexture := None; Renderer.depthTexture := None;
     Renderer.msaaTextureView := None; Renderer.depthTextureView := None;
     Renderer.hasInitialized := true;
     Renderer.gpuDevice := Some sample_device;
     Renderer.context := Some 3%nat;
     Renderer.format := "bgra8unorm";
     Renderer.canvas := {| Renderer.canvas_width := JS.ofZ 800;
                           Renderer.canvas_height := JS.ofZ 600 |};
     Renderer.options := {| Renderer.canvasWidth := None;
                            Renderer.canvasHeight := None;
                            Renderer.msaaSampleCount := msaa;
                            Renderer.clearColor := None |} |}.

Definition sample_world : World :=
  {| next_handle := 4%nat; textures := ∅; buffers := ∅; trace := [] |}.

(** The sample renderer once sized to 800 by 600, as [Initialize] leaves it;
    [msaa] is the [msaaSampleCount] option. *)
Definition ready_renderer (msaa : option number) : Renderer.WebGPURenderer :=
  fst (Renderer.SetSize (JS.ofZ 800) (JS.ofZ 600) (sample_renderer msaa)
         sample_world).

Definition ready_world (msaa : option number) : World :=
  snd (Renderer.SetSize (JS.ofZ 800) (JS.ofZ 600) (sample_renderer msaa)
         sample_world).

(** A Renderable whose [Initialize] always resolves. *)
Definition sample_renderable (i : nat) : Scene.Renderable :=
  {| Scene.id := i; Scene.isRenderable := true;
     Scene.initializes := fun _ _ _ => true |}.

Definition zero_f32 : float32 := vreplicate 4 x00.

Definition sample_camera : Camera.Camera :=
  {| Camera.position := {| Camera.x := JS.ofZ 0; Camera.y := JS.ofZ 0;
                           Camera.z := JS.ofZ 5 |};
     Camera.target := {| Camera.x := JS.ofZ 0; Camera.y := JS.ofZ 0;
                         Camera.z := JS.ofZ 0 |};
     Camera.up := {| Camera.x := JS.ofZ 0; Camera.y := JS.ofZ 1;
                     Camera.z := JS.ofZ 0 |};
     Camera.aspect := JS.ofZ 1;
     Camera.view := vreplicate 16 zero_f32;
     Camera.projection := vreplicate 16 zero_f32;
     Camera.viewProjection := vreplicate 16 zero_f32;
     Camera.uniformBuffer := None;
     Camera.bindGroup := None;
     Camera.bindGroupLayout := None |}.

(** A stand-in for gl-matrix and for a concrete camera's projection, to run
    the camera on the sample objects. *)
Definition sample_gl : GlMatrix :=
  {| fround := fun _ => zero_f32;
     mat4_lookAt := fun _ _ _ => vreplicate 16 zero_f32;
     mat4_multiply := fun a _ => a |}.

Definition sample_projection : Camera.Projection :=
  {| Camera.updateProjection := Camera.projection |}.

(** A second stand-in for gl-matrix, one that tells numbers apart.  Its
    [fround] keeps the integer part of a finite number, modulo 256, in the
    first byte of the element; its [lookAt] stores the eye, the centre and
    up in the first nine elements; its [multiply] gives the second matrix. *)
Definition byte_of_Z (z : Z) : byte :=
  Byte.of_bits
    (Z.testbit z 0, (Z.testbit z 1, (Z.testbit z 2, (Z.testbit z 3,
    (Z.testbit z 4, (Z.testbit z 5, (Z.testbit z 6, Z.testbit z 7))))))).

Definition tagged_f32 (z : Z) : float32 := [# byte_of_Z z; x00; x00; x00].

Definition tagged_gl : GlMatrix :=
  {| fround := fun n =>
       match n with
       | JS.Fin q => tagged_f32 (Qfloor q)
       | _ => vreplicate 4 xff
       end;
     mat4_lookAt := fun eye centre up =>
       vapp eye (vapp centre (vapp up (vreplicate 7 zero_f32)));
     mat4_multiply := fun _ b => b |}.

(** A camera at (7, 8, 9) whose view-projection matrix holds the elements
    1 to 16, bound to the buffer 0. *)
Definition tagged_camera : Camera.Camera :=
  {| Camera.position := {| Camera.x := JS.ofZ 7; Camera.y := JS.ofZ 8;
                           Camera.z := JS.ofZ 9 |};
     Camera.target := {| Camera.x := JS.ofZ 0; Camera.y := JS.ofZ 0;
                         Camera.z := JS.ofZ 0 |};
     Camera.up := {| Camera.x := JS.ofZ 0; Camera.y := JS.ofZ 1;
                     Camera.z := JS.ofZ 0 |};
     Camera.aspect := JS.ofZ 1;
     Camera.view := vreplicate 16 zero_f32;
     Camera.projection := vreplicate 16 zero_f32;
     Camera.viewProjection :=
       vmap tagged_f32 [# 1; 2; 3; 4; 5; 6; 7; 8; 9; 10; 11; 12; 13; 14; 15; 16];
     Camera.uniformBuffer := Some 0%nat;
     Camera.bindGroup := None;
     Camera.bindGroupLayout := None |}.

(** A platform whose buffer 0 has 80 bytes, all of them [0xff]. *)
Definition filled_buffer_world : World :=
  {| next_handle := 1%nat; textures := ∅;
     buffers := {[ 0%nat := replicate 80 xff ]}; trace := [] |}.

(** The sample counts the device accepts. *)
Definition supported_sample_count (n : number) : Prop :=
  JS.num_eq n (JS.ofZ 1) \/ JS.num_eq n (JS.ofZ 2)
  \/ JS.num_eq n (JS.ofZ 4) \/ JS.num_eq n (JS.ofZ 8).

(** ** More of the number operations *)

Module JSMath.

(** Truthiness of a number: 0 and NaN are falsy. *)
Definition truthy (x : number) : bool :=
  match x with
  | JS.Fin q => negb (Qeq_bool q 0)
  | JS.NaN => false
  | _ => true
  end.

(** [x || y] on numbers *)
Definition or_else (x y : number) : number := if truthy x then x else y.

(** [x >= y] *)
Definition ge (x y : number) : bool :=
  match JS.compare x y with Some Gt | Some Eq => true | _ => false end.

(** [x + y] *)
Definition add (x y : number) : number :=
  match x, y with
  | JS.NaN, _ | _, JS.NaN => JS.NaN
  | JS.Fin a, JS.Fin b => JS.Fin (a + b)%Q
  | JS.PInf, JS.NInf | JS.NInf, JS.PInf => JS.NaN
  | JS.Fin _, inf => inf
  | inf, _ => inf
  end.

End JSMath.

(** ** Thread: the listener registry (others/classes/Thread.ts)

    A callback is known by its identity, as [===] compares it. *)

Module ThreadListeners.
Import Thread.

(** [events[event]] *)
Definition listeners (name : ThreadEventName) (ev : ThreadEvents) : list nat :=
  match name with
  | EvIdle => idle ev
  | EvStart => start ev
  | EvStop => stop ev
  | EvUpdate => update ev
  end.

Definition set_listeners (name : ThreadEventName) (l : list nat)
    (ev : ThreadEvents) : ThreadEvents :=
  match name with
  | EvIdle => {| idle := l; start := start ev; stop := stop ev; update := update ev |}
  | EvStart => {| idle := idle ev; start := l; stop := stop ev; update := update ev |}
  | EvStop => {| idle := idle ev; start := start ev; stop := l; update := update ev |}
  | EvUpdate => {| idle := idle ev; start := start ev; stop := stop ev; update := l |}
  end.

Definition set_events (ev : ThreadEvents) (th : Thread) : Thread :=
  {| simulationUpdateRate := simulationUpdateRate th;
     frameRate := frameRate th;
     deltaTime := deltaTime th;
     currentRegisteredTimestamp := currentRegisteredTimestamp th;
     lastRegisteredTimestamp := lastRegisteredTimestamp th;
     startTimestamp := startTimestamp th;
     events := ev;
     isActive := isActive th;
     animationFrame := animationFrame th;
     times := times th;
     maxDeltaMs := maxDeltaMs th |}.

(** The loop of [RemoveEventListener]: [splice(i, 1); break] at the first
    [i] with [arr[i] === cb]. *)
Fixpoint remove_first (cb : nat) (arr : list nat) : list nat :=
  match arr with
  | [] => []
  | f :: rest => if Nat.eqb f cb then rest else f :: remove_first cb rest
  end.

(** [RemoveEventListener] *)
Definition RemoveEventListener (event : ThreadEventName) (cb : nat)
    (th : Thread) : Thread :=
  set_events
    (set_listeners event (remove_first cb (listeners event (events th)))
       (events th)) th.

(** [AddEventListener]: the Thread after the push, and the unsubscribe
    function it returns. *)
Definition AddEventListener (event : ThreadEventName) (cb : nat) (th : Thread)
    : Thread * (Thread -> Thread) :=
  (set_events
     (set_listeners event (listeners event (events th) ++ [cb]) (events th)) th,
   RemoveEventListener event cb).

(** [ClearEventListeners]; [None] is the omitted argument. *)
Definition ClearEventListeners (event : option ThreadEventName) (th : Thread)
    : Thread :=
  match event with
  | Some name => set_events (set_listeners name [] (events th)) th
  | None =>
      set_events {| idle := []; start := []; stop := []; update := [] |} th
  end.

(** [IsRunning] *)
Definition IsRunning (th : Thread) : bool := isActive th.

End ThreadListeners.

(** ** Camera: the setters (camera/classes/Camera.ts) *)

Module CameraSetters.
Import Camera.

(** [Vector3.Set]: an argument that is not a number keeps the component. *)
Definition Vector3_Set (nx ny nz : option number) (v : Vector3) : Vector3 :=
  {| x := default (x v) nx; y := default (y v) ny; z := default (z v) nz |}.

Definition set_position (p : Vector3) (c : Camera) : Camera :=
  {| position := p; target := target c; up := up c;
     aspect := aspect c; view := view c; projection := projection c;
     viewProjection := viewProjection c; uniformBuffer := uniformBuffer c;
     bindGroup := bindGroup c; bindGroupLayout := bindGroupLayout c |}.

Definition set_target (t : Vector3) (c : Camera) : Camera :=
  {| position := position c; target := t; up := up c;
     aspect := aspect c; view := view c; projection := projection c;
     viewProjection := viewProjection c; uniformBuffer := uniformBuffer c;
     bindGroup := bindGroup c; bindGroupLayout := bindGroupLayout c |}.

Definition set_aspect (a : number) (c : Camera) : Camera :=
  {| position := position c; target := target c; up := up c;
     aspect := a; view := view c; projection := projection c;
     viewProjection := viewProjection c; uniformBuffer := uniformBuffer c;
     bindGroup := bindGroup c; bindGroupLayout := bindGroupLayout c |}.

Section Methods.
Context `{GlMatrix} `{Projection}.

(** [SetAspect] *)
Definition SetAspect (a : number) (c : Camera) : Camera :=
  updateMatrices (set_aspect (JS.max (JS.Fin (1 # 1000000)) a) c).

(** [SetPosition]; the first argument is a Vector3 or a number, [ny] and
    [nz] are [None] when omitted. *)
Definition SetPosition (nx : Vector3 + number) (ny nz : option number)
    (c : Camera) : Camera :=
  match nx with
  | inl v => updateMatrices (set_position v c)
  | inr n =>
      updateMatrices
        (set_position
           (Vector3_Set (Some n)
              (Some (default (x (position c)) ny))
              (Some (default (y (position c)) nz))
              (position c)) c)
  end.

(** [LookAt] *)
Definition LookAt (nx : Vector3 + number) (ny nz : option number)
    (c : Camera) : Camera :=
  match nx with
  | inl v => updateMatrices (set_target v c)
  | inr n =>
      updateMatrices
        (set_target
           (Vector3_Set (Some n)
              (Some (default (x (target c)) ny))
              (Some (default (y (target c)) nz))
              (target c)) c)
  end.

End Methods.

End CameraSetters.

(** ** PerspectiveCamera (camera/classes/PerspectiveCamera.ts) *)

(** The part of gl-matrix the perspective camera adds. *)
Class GlMatrixPerspective := {
  toRadian : number -> number;
  mat4_perspective : number -> number -> number -> number -> mat4
}.

Module PerspectiveCamera.

(** The fields the subclass adds to those of [Camera]. *)
Record PerspectiveCamera := {
  camera : Camera.Camera;
  fieldOfViewDegrees : number;
  near : number;
  far : number
}.

Section Methods.
Context `{GlMatrix} `{GlMatrixPerspective}.

(** [updateProjection] *)
Definition updateProjection (pc : PerspectiveCamera) : Camera.Projection :=
  {| Camera.updateProjection := fun c =>
       mat4_perspective (toRadian (fieldOfViewDegrees pc)) (Camera.aspect c)
         (near pc) (far pc) |}.

(** [updateMatrices] of the base class, on this camera. *)
Definition updateMatrices (pc : PerspectiveCamera) : PerspectiveCamera :=
  {| camera := @Camera.updateMatrices _ (updateProjection pc) (camera pc);
     fieldOfViewDegrees := fieldOfViewDegrees pc;
     near := near pc;
     far := far pc |}.

(** [SetFieldOfViewInDegrees] *)
Definition SetFieldOfViewInDegrees (degrees : number) (pc : PerspectiveCamera)
    : PerspectiveCamera :=
  updateMatrices
    {| camera := camera pc;
       fieldOfViewDegrees := JS.max (JS.ofZ 1) (JS.min (JS.ofZ 179) degrees);
       near := near pc;
       far := far pc |}.

(** [SetNear] *)
Definition SetNear (n : number) (pc : PerspectiveCamera) : PerspectiveCamera :=
  updateMatrices
    {| camera := camera pc;
       fieldOfViewDegrees := fieldOfViewDegrees pc;
       near := JS.max (JS.Fin (1 # 10000)) n;
       far := far pc |}.

(** [SetFar] *)
Definition SetFar (f : number) (pc : PerspectiveCamera) : PerspectiveCamera :=
  updateMatrices
    {| camera := camera pc;
       fieldOfViewDegrees := fieldOfViewDegrees pc;
       near := near pc;
       far := JS.max (JSMath.add (near pc) (JS.Fin (1 # 1000))) f |}.

End Methods.

End PerspectiveCamera.

(** A stand-in for the perspective part of gl-matrix. *)
Definition sample_perspective : GlMatrixPerspective :=
  {| toRadian := fun d => d;
     mat4_perspective := fun _ _ _ _ => vreplicate 16 zero_f32 |}.

(** ** WebGPURenderer: pixel ratio and disposal *)

Module RendererSurface.
Import Renderer.

(** What [SetDevicePixelRatio] passes to the sink: the two warnings carry
    the code [WGPUR_HIGH_DPR_VALUE], the error [WGPUR_INVALID_DPR_VALUE]. *)
Inductive SurfaceDiagnostic : Type :=
| HighRatioWarning
| ExtremeRatioWarning
| InvalidRatioError.

Definition set_devicePixelRatio (d : number) (r : WebGPURenderer)
    : WebGPURenderer :=
  {| width := width r; height := height r;
     devicePixelRatio := d;
     msaaTexture := msaaTexture r; depthTexture := depthTexture r;
     msaaTextureView := msaaTextureView r;
     depthTextureView := depthTextureView r;
     hasInitialized := hasInitialized r; gpuDevice := gpuDevice r;
     context := context r; format := format r; canvas := canvas r;
     options := options r |}.

(** [applySizeChanges]; [clientWidth] and [clientHeight] are the readings of
    the canvas element. *)
Definition applySizeChanges (clientWidth clientHeight : option number)
    (r : WebGPURenderer) (w : World) : WebGPURenderer * World :=
  let width :=
    default (default (JS.ofZ 800) clientWidth) (canvasWidth (options r)) in
  let height :=
    default (default (JS.ofZ 600) clientHeight) (canvasHeight (options r)) in
  SetSize width height r w.

(** [SetDevicePixelRatio]; [window_dpr] is [window.devicePixelRatio], an
    omitted [ratio] is [None].  The result tells whether the method returned
    [this] (true) or [null], and lists what it passed to the sink, in order
    (all of it before the first device call). *)
Definition SetDevicePixelRatio (window_dpr : number)
    (clientWidth clientHeight : option number) (ratio : option number)
    (r : WebGPURenderer) (w : World)
    : bool * list SurfaceDiagnostic * WebGPURenderer * World :=
  let ratio := default (JS.ofZ 1) ratio in
  let d1 := if JSMath.ge ratio (JS.ofZ 2) then [HighRatioWarning] else [] in
  let d2 := if JSMath.ge ratio (JS.ofZ 10) then [ExtremeRatioWarning] else [] in
  if JS.le ratio (JS.ofZ 0) then
    (false, d1 ++ d2 ++ [InvalidRatioError],
     set_devicePixelRatio (JSMath.or_else window_dpr (JS.ofZ 1)) r, w)
  else
    let r1 :=
      set_devicePixelRatio
        (JS.max (JS.ofZ 1)
           (JS.min (JSMath.or_else ratio (JS.ofZ 1)) (JS.ofZ 100))) r in
    let (r2, w2) := applySizeChanges clientWidth clientHeight r1 w in
    (true, d1 ++ d2, r2, w2).

(** [Dispose] *)
Definition Dispose (r : WebGPURenderer) (w : World) : World :=
  destroy_if_present (msaaTexture r) (destroy_if_present (depthTexture r) w).

End RendererSurface.

(** ** CubeGeometry (geometries/classes/3d/CubeGeometry.ts) *)

Module CubeGeometry.

(** [align4 = (n) => (n + 3) & ~3], on 32-bit integers. *)
Definition align4 (n : number) : Z :=
  Z.land (JS.toInt32 (JSMath.add n (JS.ofZ 3))) (Z.lnot 3).

End CubeGeometry.

(** ** More readings of a trace *)

(** The animation frames a trace requests, oldest first. *)
Definition requests (l : list Effect) : list handle :=
  omap (fun e => match e with
                 | RequestAnimationFrame i => Some i
                 | _ => None
                 end) l.

(** The listener calls of a trace: which event went to which listener. *)
Definition dispatched (l : list Effect) : list (ThreadEventName * nat) :=
  omap (fun e => match e with
                 | Dispatch name i _ => Some (name, i)
                 | _ => None
                 end) l.

(** ** Sequences of calls on a Thread *)

(** A call of [Start], [Stop] or the loop callback, with the clock reading
    it sees. *)
Inductive ThreadCall : Type :=
| CallStart (now : Z)
| CallStop
| CallLoop (now : Z).

Definition thread_call (c : ThreadCall) (s : Thread.Thread * World)
    : Thread.Thread * World :=
  match c with
  | CallStart now => Thread.Start now (fst s) (snd s)
  | CallStop => Thread.Stop (fst s) (snd s)
  | CallLoop now => Thread.loop now (fst s) (snd s)
  end.

Definition thread_calls (cs : list ThreadCall) (s : Thread.Thread * World)
    : Thread.Thread * World :=
  fold_left (fun acc c => thread_call c acc) cs s.

(** ** Registering listeners one after the other *)

Definition event_eqb (a b : ThreadEventName) : bool :=
  match a, b with
  | EvIdle, EvIdle | EvStart, EvStart | EvStop, EvStop | EvUpdate, EvUpdate => true
  | _, _ => false
  end.

(** [AddEventListener] for each pair of a list, in order. *)
Definition register_all (regs : list (ThreadEventName * nat))
    (th : Thread.Thread) : Thread.Thread :=
  fold_left (fun acc p => fst (ThreadListeners.AddEventListener (fst p) (snd p) acc))
    regs th.

(** The callbacks a list of registrations holds for one event, in order. *)
Definition registered (name : ThreadEventName)
    (regs : list (ThreadEventName * nat)) : list nat :=
  omap (fun p => if event_eqb (fst p) name then Some (snd p) else None) regs.

(** ** The frame protocol in a trace *)

(** The calls that open a pass, record into it, close it and submit it. *)
Definition is_pass_event (e : Effect) : bool :=
  match e with
  | BeginRenderPass _ _ _ _ | SetBindGroup _ _ _ | RenderableRender _ _
  | PassEnd _ | EncoderFinish _ _ | QueueSubmit _ _ => true
  | _ => false
  end.

Definition pass_events (l : list Effect) : list Effect :=
  List.filter is_pass_event l.

(** The colour attachment [BeginFrame] builds for the view [cv] of the
    canvas texture: the multisample view resolving into [cv], or [cv]
    itself. *)
Definition frame_attachment (r : Renderer.WebGPURenderer) (cv : handle)
    : GPURenderPassColorAttachment :=
  let clear :=
    default Renderer.default_clear (Renderer.clearColor (Renderer.options r)) in
  if JS.gt (Renderer.frame_msaa r) (JS.ofZ 1) then
    {| att_view := Renderer.msaaTextureView r;
       att_resolveTarget := Some cv;
       att_clearValue := clear |}
  else
    {| att_view := Some cv; att_resolveTarget := None; att_clearValue := clear |}.

(** The renderer's targets are the live textures, and no others. *)
Definition owns_textures (r : Renderer.WebGPURenderer) (w : World) : Prop :=
  forall h, is_Some (textures w !! h) <->
            Renderer.depthTexture r = Some h \/ Renderer.msaaTexture r = Some h.

(** [SetSize] for each pair of a list, in order. *)
Definition resize_all (sizes : list (number * number))
    (s : Renderer.WebGPURenderer * World) : Renderer.WebGPURenderer * World :=
  fold_left (fun acc p => Renderer.SetSize (fst p) (snd p) (fst acc) (snd acc))
    sizes s.

(** * Properties *)

(** ** Numbers *)

Lemma min_finite (a b : Q) : JS.min (JS.Fin a) (JS.Fin b) = JS.Fin (Qmin a b).
Proof.
  unfold JS.min, Qmin, GenericMinMax.gmin; simpl.
  destruct (a ?= b)%Q; reflexivity.
Qed.

Lemma div_finite (a b : Q) :
  ~ (b == 0)%Q -> JS.div (JS.Fin a) (JS.Fin b) = JS.Fin (a / b).
Proof.
  intros Hb; simpl.
  destruct (Qeq_bool b 0) eqn:E; [|reflexivity].
  apply Qeq_bool_eq in E. contradiction.
Qed.

Lemma not_finite_positive (x : number) :
  ~ JS.finite_positive x <->
  negb (JS.isFinite x) || JS.le x (JS.ofZ 0) = true.
Proof.
  destruct x as [q| | |]; simpl; try tauto.
  unfold JS.le, JS.ofZ; simpl.
  change (inject_Z 0) with 0%Q.
  split.
  - intros Hn. apply Qnot_lt_le in Hn. apply (proj1 (Qle_alt q 0)) in Hn.
    destruct (q ?= 0)%Q; [reflexivity | reflexivity | congruence].
  - intros Hc Hp. apply Qlt_not_le in Hp. apply Hp. apply (proj2 (Qle_alt q 0)).
    destruct (q ?= 0)%Q; [discriminate | discriminate | discriminate].
Qed.

(** ** Thread *)

Section ThreadFacts.
Import Thread.

Lemma dispatch_world name payload ls w :
  next_handle (dispatch name payload ls w) = next_handle w
  /\ textures (dispatch name payload ls w) = textures w
  /\ buffers (dispatch name payload ls w) = buffers w.
Proof.
  revert w; induction ls as [|l ls IH]; intros w; simpl; [tauto|].
  destruct (IH (emit (Dispatch name l payload) w)) as (? & ? & ?); auto.
Qed.

Lemma loop_active now th w :
  isActive th = true ->
  fst (loop now th w) =
    {| simulationUpdateRate := simulationUpdateRate th;
       frameRate := length (evict now (times th) ++ [now]);
       deltaTime := tick_delta th now;
       currentRegisteredTimestamp := now;
       lastRegisteredTimestamp := now;
       startTimestamp := startTimestamp th;
       events := events th;
       isActive := true;
       animationFrame := Some (next_handle w);
       times := evict now (times th) ++ [now];
       maxDeltaMs := maxDeltaMs th |}.
Proof.
  intros Ha. unfold loop. rewrite Ha. simpl. reflexivity.
Qed.

Lemma loop_idle now th w : isActive th = false -> loop now th w = (th, w).
Proof. intros Ha. unfold loop. rewrite Ha. reflexivity. Qed.

Lemma ticks_snoc nows now th w :
  ticks (nows ++ [now]) th w =
    loop now (fst (ticks nows th w)) (snd (ticks nows th w)).
Proof. unfold ticks. rewrite fold_left_app. reflexivity. Qed.

Lemma ticks_active nows th w :
  isActive th = true -> isActive (fst (ticks nows th w)) = true.
Proof.
  intros Ha. induction nows as [|now nows IH] using rev_ind; [exact Ha|].
  rewrite ticks_snoc, loop_active by exact IH. reflexivity.
Qed.





Lemma dispatch_trace name payload ls w :
  trace (dispatch name payload ls w) =
    trace w ++ map (fun l => Dispatch name l payload) ls.
Proof.
  revert w; induction ls as [|l ls IH]; intros w; simpl.
  - rewrite app_nil_r. reflexivity.
  - rewrite IH. simpl. rewrite <- app_assoc. reflexivity.
Qed.

Lemma loop_same_timing now a b wa wb :
  same_timing a b -> isActive a = true ->
  same_timing (fst (loop now a wa)) (fst (loop now b wb))
  /\ frameRate (fst (loop now a wa)) = frameRate (fst (loop now b wb))
  /\ deltaTime (fst (loop now a wa)) = deltaTime (fst (loop now b wb)).
Proof.
  intros (Hact & Ht & Hl & Hr & Hm) Ha.
  rewrite !loop_active by congruence.
  unfold same_timing, tick_delta; simpl.
  rewrite Ht, Hl, Hr, Hm. repeat split; reflexivity.
Qed.

Lemma ticks_same_timing nows a b wa wb :
  same_timing a b -> isActive a = true -> nows <> [] ->
  same_timing (fst (ticks nows a wa)) (fst (ticks nows b wb))
  /\ frameRate (fst (ticks nows a wa)) = frameRate (fst (ticks nows b wb))
  /\ deltaTime (fst (ticks nows a wa)) = deltaTime (fst (ticks nows b wb)).
Proof.
  intros Hsame Ha.
  induction nows as [|now nows IH] using rev_ind; [congruence|]. intros _.
  rewrite !ticks_snoc.
  destruct nows as [|n0 nows0].
  - apply loop_same_timing; assumption.
  - destruct IH as (Hs & _); [discriminate|].
    apply loop_same_timing; [exact Hs|].
    apply ticks_active. exact Ha.
Qed.

(** C6: on every tick of an active scheduler [deltaTime] is
    [min(now - lastRegisteredTimestamp, maxDeltaMs) / 1000] multiplied by
    [simulationUpdateRate], and this is the value every update listener
    receives; over the rationals, for finite fields, it is
    [Qmin raw m / 1000 * r].  A new Thread has [maxDeltaMs = 250], and with
    that bound a gap of 5000 ms gives the delta of a 250 ms gap
    ([250/1000 * r]), which is not that of the raw gap unless [r] is 0. *)
Theorem tick_deltaTime_clamped (th : Thread) (now : Z) (w : World) :
  isActive th = true ->
  let th' := fst (loop now th w) in
  let raw := now - lastRegisteredTimestamp th in
  deltaTime th' =
    JS.mul (JS.div (JS.min (JS.ofZ raw) (maxDeltaMs th)) (JS.ofZ 1000))
           (simulationUpdateRate th)
  /\ (forall l, l ∈ update (events th) ->
        exists p, Dispatch EvUpdate l (Some p) ∈ trace (snd (loop now th w))
                  /\ ev_deltaTime p = deltaTime th')
  /\ (forall m r, maxDeltaMs th = JS.Fin m -> simulationUpdateRate th = JS.Fin r ->
        deltaTime th' = JS.Fin (Qmin (inject_Z raw) m / 1000 * r))
  /\ (forall t1 t2 t3, maxDeltaMs (new t1 t2 t3) = JS.ofZ 250)
  /\ (forall r, maxDeltaMs th = JS.ofZ 250 -> simulationUpdateRate th = JS.Fin r ->
        raw = 5000 ->
        JS.num_eq (deltaTime th') (JS.Fin ((250 # 1000) * r))
        /\ (~ (r == 0)%Q ->
            ~ JS.num_eq (deltaTime th') (JS.Fin ((5000 # 1000) * r)))).
Proof.
  intros Ha th' raw.
  assert (Hdt : deltaTime th' = tick_delta th now).
  { unfold th'. rewrite loop_active by exact Ha. reflexivity. }
  assert (Hfin : forall m r, maxDeltaMs th = JS.Fin m ->
             simulationUpdateRate th = JS.Fin r ->
             deltaTime th' = JS.Fin (Qmin (inject_Z raw) m / 1000 * r)).
  { intros m r Hm Hr. rewrite Hdt. unfold tick_delta. fold raw.
    rewrite Hm, Hr. unfold JS.ofZ. rewrite min_finite, div_finite by discriminate.
    reflexivity. }
  split; [exact Hdt|]. split; [|split; [exact Hfin|split; [reflexivity|]]].
  - intros l Hl. unfold th', loop. rewrite Ha.
    unfold requestAnimationFrame, fresh. cbn [negb fst snd].
    eexists. split.
    + rewrite dispatch_trace. apply elem_of_app. right.
      apply (list_elem_of_fmap_2 (fun l => Dispatch EvUpdate l _)). exact Hl.
    + reflexivity.
  - intros r Hm Hr Hraw. rewrite (Hfin _ _ Hm Hr), Hraw. simpl.
    assert (Hmin : (Qmin (inject_Z 5000) (inject_Z 250) == inject_Z 250)%Q).
    { apply Q.min_r. discriminate. }
    split.
    + rewrite Hmin. reflexivity.
    + intros Hr0 Heq. rewrite Hmin in Heq.
      assert (Hq : (inject_Z 250 / 1000 == 1 # 4)%Q) by reflexivity.
      rewrite Hq in Heq. apply Hr0. lra.
Qed.

Lemma tick_deltaTime_clamped_witness :
  let started := Start 0 (new 0 0 0) empty_world in
  deltaTime (fst (loop 5000 (fst started) (snd started)))
  = JS.Fin (Qmin (inject_Z (5000 - 0)) (inject_Z 250) / 1000 * inject_Z 60).
Proof.
  intros started.
  refine (proj1 (proj2 (proj2
    (tick_deltaTime_clamped (fst started) 5000 (snd started) _)))
    (inject_Z 250) (inject_Z 60) _ _); reflexivity.
Defined.

Lemma Start_idle now th w :
  isActive th = false ->
  fst (Start now th w) =
    {| simulationUpdateRate := simulationUpdateRate th;
       frameRate := 0%nat;
       deltaTime := deltaTime th;
       currentRegisteredTimestamp := now;
       lastRegisteredTimestamp := now;
       startTimestamp := now;
       events := events th;
       isActive := true;
       animationFrame :=
         Some (next_handle (dispatch EvStart None (start (events th)) w));
       times := [];
       maxDeltaMs := maxDeltaMs th |}.
Proof. intros Ha. unfold Start. rewrite Ha. reflexivity. Qed.




(** C9: a rate (a bound) that is not a finite, strictly positive number is
    refused: the error is reported and the Thread is unchanged; a finite,
    strictly positive one becomes the value of the field, nothing else
    changes and nothing is reported. *)
Theorem setters_validate (x : number) (th : Thread) (w : World) :
  (~ JS.finite_positive x ->
     SetSimulationUpdateRate x th w =
       (th, emit (DebugError THREAD_INVALID_SIMULATION_UPDATE_RATE) w)
     /\ SetMaxDeltaMs x th w =
       (th, emit (DebugError THREAD_INVALID_DELTA_TIME) w))
  /\ (JS.finite_positive x ->
     simulationUpdateRate (fst (SetSimulationUpdateRate x th w)) = x
     /\ maxDeltaMs (fst (SetSimulationUpdateRate x th w)) = maxDeltaMs th
     /\ snd (SetSimulationUpdateRate x th w) = w
     /\ maxDeltaMs (fst (SetMaxDeltaMs x th w)) = x
     /\ simulationUpdateRate (fst (SetMaxDeltaMs x th w)) = simulationUpdateRate th
     /\ snd (SetMaxDeltaMs x th w) = w).
Proof.
  unfold SetSimulationUpdateRate, SetMaxDeltaMs. split.
  - intros Hbad. apply not_finite_positive in Hbad. rewrite Hbad. split; reflexivity.
  - intros Hgood.
    destruct (negb (JS.isFinite x) || JS.le x (JS.ofZ 0)) eqn:E.
    + apply not_finite_positive in E. contradiction.
    + repeat split; reflexivity.
Qed.

Lemma setters_validate_witness :
  SetSimulationUpdateRate JS.NaN (new 0 0 0) empty_world =
    (new 0 0 0, emit (DebugError THREAD_INVALID_SIMULATION_UPDATE_RATE) empty_world)
  /\ SetMaxDeltaMs (JS.ofZ 0) (new 0 0 0) empty_world =
    (new 0 0 0, emit (DebugError THREAD_INVALID_DELTA_TIME) empty_world)
  /\ simulationUpdateRate
       (fst (SetSimulationUpdateRate (JS.ofZ 30) (new 0 0 0) empty_world)) = JS.ofZ 30
  /\ maxDeltaMs (fst (SetMaxDeltaMs (JS.Fin (1 # 2)) (new 0 0 0) empty_world))
     = JS.Fin (1 # 2).
Proof.
  split; [|split; [|split]].
  - apply (proj1 (setters_validate JS.NaN (new 0 0 0) empty_world)).
    simpl. tauto.
  - apply (proj1 (setters_validate (JS.ofZ 0) (new 0 0 0) empty_world)).
    simpl. apply Qlt_irrefl.
  - apply (proj2 (setters_validate (JS.ofZ 30) (new 0 0 0) empty_world)).
    reflexivity.
  - apply (proj2 (setters_validate (JS.Fin (1 # 2)) (new 0 0 0) empty_world)).
    reflexivity.
Defined.

(** C10: [Start] on an idle Thread makes it active with an empty window,
    [frameRate] 0 and [lastRegisteredTimestamp] the current time; the first
    tick then measures its delta from that time, and after any ticks the
    window, [frameRate] and [deltaTime] are those of every other Thread
    started at the same time with the same rate and bound, whatever the two
    held before. *)
Theorem Start_resets_timing (th : Thread) (t0 : Z) (w : World) :
  isActive th = false ->
  let th1 := fst (Start t0 th w) in
  isActive th1 = true
  /\ times th1 = []
  /\ frameRate th1 = 0%nat
  /\ lastRegisteredTimestamp th1 = t0
  /\ (forall now w1,
        frameRate (fst (loop now th1 w1)) = 1%nat
        /\ times (fst (loop now th1 w1)) = [now]
        /\ deltaTime (fst (loop now th1 w1)) =
             JS.mul (JS.div (JS.min (JS.ofZ (now - t0)) (maxDeltaMs th))
                            (JS.ofZ 1000))
                    (simulationUpdateRate th))
  /\ (forall other w' nows w1 w2,
        isActive other = false ->
        simulationUpdateRate other = simulationUpdateRate th ->
        maxDeltaMs other = maxDeltaMs th ->
        nows <> [] ->
        let a := fst (ticks nows th1 w1) in
        let b := fst (ticks nows (fst (Start t0 other w')) w2) in
        times a = times b /\ frameRate a = frameRate b
        /\ deltaTime a = deltaTime b).
Proof.
  intros Ha th1.
  assert (E1 : th1 = _) by (unfold th1; apply (Start_idle t0 th w Ha)).
  repeat split.
  - rewrite E1. reflexivity.
  - rewrite E1. reflexivity.
  - rewrite E1. reflexivity.
  - rewrite E1. reflexivity.
  - rewrite loop_active by (rewrite E1; reflexivity). rewrite E1. reflexivity.
  - rewrite loop_active by (rewrite E1; reflexivity). rewrite E1. reflexivity.
  - rewrite loop_active by (rewrite E1; reflexivity). rewrite E1. reflexivity.
  - destruct (ticks_same_timing nows th1 (fst (Start t0 other w')) w1 w2)
      as ((_ & Ht & _) & _ & _); [| |assumption|exact Ht].
    + rewrite E1, Start_idle by assumption. unfold same_timing; simpl. auto.
    + rewrite E1. reflexivity.
  - destruct (ticks_same_timing nows th1 (fst (Start t0 other w')) w1 w2)
      as (_ & Hf & _); [| |assumption|exact Hf].
    + rewrite E1, Start_idle by assumption. unfold same_timing; simpl. auto.
    + rewrite E1. reflexivity.
  - destruct (ticks_same_timing nows th1 (fst (Start t0 other w')) w1 w2)
      as (_ & _ & Hd); [| |assumption|exact Hd].
    + rewrite E1, Start_idle by assumption. unfold same_timing; simpl. auto.
    + rewrite E1. reflexivity.
Qed.

Lemma Start_resets_timing_witness :
  let stale :=
    fst (Stop (fst (ticks [10; 20; 30] (fst (Start 0 (new 0 0 0) empty_world))
                      empty_world)) empty_world) in
  times stale = [10; 20; 30]
  /\ times (fst (Start 5000 stale empty_world)) = []
  /\ frameRate (fst (Start 5000 stale empty_world)) = 0%nat
  /\ lastRegisteredTimestamp (fst (Start 5000 stale empty_world)) = 5000.
Proof.
  intros stale. split; [reflexivity|].
  destruct (Start_resets_timing stale 5000 empty_world) as (_ & Ht & Hf & Hl & _).
  - reflexivity.
  - auto.
Defined.

End ThreadFacts.

(** ** Device calls *)

Lemma gpu_only_refl w : gpu_only w w.
Proof.
  split; [lia|]. exists []. rewrite app_nil_r. split; [reflexivity|constructor].
Qed.

Lemma gpu_only_trans w1 w2 w3 : gpu_only w1 w2 -> gpu_only w2 w3 -> gpu_only w1 w3.
Proof.
  intros (Hn1 & l1 & Ht1 & Hl1) (Hn2 & l2 & Ht2 & Hl2).
  split; [lia|]. exists (l1 ++ l2).
  rewrite Ht2, Ht1, app_assoc. split; [reflexivity|].
  apply Forall_app; split; assumption.
Qed.

Lemma gpu_only_emit e w : is_gpu_call e = true -> gpu_only w (emit e w).
Proof.
  intros He. split; [simpl; lia|]. exists [e]. split; [reflexivity|].
  constructor; [exact He|constructor].
Qed.

Lemma gpu_only_fresh w : gpu_only w (snd (fresh w)).
Proof.
  split; [simpl; lia|]. exists []. simpl. rewrite app_nil_r.
  split; [reflexivity|constructor].
Qed.

Lemma gpu_only_diagnostics w w' :
  gpu_only w w' -> diagnostics (trace w') = diagnostics (trace w).
Proof.
  intros (_ & l & -> & Hl). unfold diagnostics.
  rewrite List.filter_app.
  assert (E : List.filter is_diagnostic l = []).
  { induction Hl as [|e l He _ IH]; [reflexivity|].
    simpl. destruct e; try discriminate He; exact IH. }
  rewrite E, app_nil_r. reflexivity.
Qed.

Lemma gpu_only_draws w w' : gpu_only w w' -> draws (trace w') = draws (trace w).
Proof.
  intros (_ & l & -> & Hl). unfold draws. rewrite omap_app.
  match goal with |- _ ++ ?x = _ => assert (E : x = []) end.
  { induction Hl as [|e l He _ IH]; [reflexivity|].
    simpl. destruct e; try discriminate He; exact IH. }
  rewrite E, app_nil_r. reflexivity.
Qed.

Create HintDb gpu.
#[local] Hint Resolve gpu_only_refl gpu_only_emit gpu_only_fresh : gpu.

Lemma gpu_only_createTexture dev desc w :
  gpu_only w (snd (createTexture dev desc w)).
Proof.
  split; [simpl; lia|]. eexists [_]. split; [reflexivity|].
  constructor; [reflexivity|constructor].
Qed.

Lemma gpu_only_createView t w : gpu_only w (snd (createView t w)).
Proof.
  split; [simpl; lia|]. eexists [_]. split; [reflexivity|].
  constructor; [reflexivity|constructor].
Qed.

Lemma gpu_only_destroy t w : gpu_only w (destroy_if_present t w).
Proof.
  destruct t as [h|]; [|apply gpu_only_refl].
  split; [simpl; lia|]. eexists [_]. split; [reflexivity|].
  constructor; [reflexivity|constructor].
Qed.

Lemma gpu_only_writeBuffer q b off data w :
  gpu_only w (writeBuffer q b off data w).
Proof.
  unfold writeBuffer.
  destruct (buffers w !! b) as [content|]; [|apply gpu_only_emit; reflexivity].
  destruct (off + length data <=? length content)%nat;
    [|apply gpu_only_emit; reflexivity].
  split; [simpl; lia|]. eexists [_]. split; [reflexivity|].
  constructor; [reflexivity|constructor].
Qed.

#[local] Hint Resolve gpu_only_createTexture gpu_only_createView
  gpu_only_destroy gpu_only_writeBuffer : gpu.

(** ** WebGPURenderer *)

Section RendererFacts.
Import Renderer.

Lemma createOrResizeTargets_frame r w :
  let r' := fst (createOrResizeTargets r w) in
  let w' := snd (createOrResizeTargets r w) in
  gpu_only w w'
  /\ context r' = context r /\ gpuDevice r' = gpuDevice r
  /\ options r' = options r /\ format r' = format r
  /\ width r' = width r /\ height r' = height r
  /\ canvas r' = canvas r /\ hasInitialized r' = hasInitialized r.
Proof.
  unfold createOrResizeTargets.
  pose proof (gpu_only_destroy (depthTexture r) w) as H1.
  pose proof (gpu_only_destroy (msaaTexture r)
                (destroy_if_present (depthTexture r) w)) as H2.
  pose proof (gpu_only_trans _ _ _ H1 H2) as H12.
  destruct (gpuDevice r) as [dev|] eqn:Hdev; [|simpl; auto 10].
  set (w2 := destroy_if_present (msaaTexture r) _) in *.
  set (d1 := {| tex_width := _; tex_format := "depth24plus" |}).
  pose proof (gpu_only_createTexture dev d1 w2) as H3.
  destruct (createTexture dev d1 w2) as [dt w3].
  pose proof (gpu_only_createView dt w3) as H4.
  destruct (createView dt w3) as [dv w4]. simpl in H3, H4.
  pose proof (gpu_only_trans _ _ _ (gpu_only_trans _ _ _ H12 H3) H4) as H14.
  destruct (JS.gt (getMsaa r) (JS.ofZ 1)); [|simpl; auto 10].
  set (d2 := {| tex_width := _; tex_format := format r |}).
  pose proof (gpu_only_createTexture dev d2 w4) as H5.
  destruct (createTexture dev d2 w4) as [mt w5].
  pose proof (gpu_only_createView mt w5) as H6.
  destruct (createView mt w5) as [mv w6]. simpl in H5, H6.
  pose proof (gpu_only_trans _ _ _ (gpu_only_trans _ _ _ H14 H5) H6).
  simpl; auto 10.
Qed.

(** With a device, the targets are allocated with [target_descriptor]. *)
Lemma createOrResizeTargets_allocates r w dev :
  gpuDevice r = Some dev ->
  let r' := fst (createOrResizeTargets r w) in
  let w' := snd (createOrResizeTargets r w) in
  exists t v,
    depthTexture r' = Some t /\ depthTextureView r' = Some v
    /\ textures w' !! t = Some (target_descriptor r "depth24plus")
    /\ if JS.gt (getMsaa r) (JS.ofZ 1)
       then exists m mv, msaaTexture r' = Some m /\ msaaTextureView r' = Some mv
              /\ textures w' !! m = Some (target_descriptor r (format r))
       else msaaTexture r' = None /\ msaaTextureView r' = None.
Proof.
  intros Hdev. unfold createOrResizeTargets. rewrite Hdev.
  unfold createTexture, createView, fresh. simpl.
  destruct (JS.gt (getMsaa r) (JS.ofZ 1)); simpl.
  - do 2 eexists. repeat split.
    + rewrite lookup_insert_ne by lia. apply lookup_insert_eq.
    + do 2 eexists. repeat split. apply lookup_insert_eq.
  - do 2 eexists. repeat split. apply lookup_insert_eq.
Qed.

Lemma Qcompare_inject_Z a b : (inject_Z a ?= inject_Z b)%Q = (a ?= b).
Proof. unfold Qcompare. simpl. rewrite !Z.mul_1_r. reflexivity. Qed.

Lemma max_ofZ a b : JS.max (JS.ofZ a) (JS.ofZ b) = JS.ofZ (Z.max a b).
Proof.
  unfold JS.max, JS.ofZ. simpl. rewrite Qcompare_inject_Z.
  destruct (Z.compare_spec a b) as [E|L|G].
  - subst. rewrite Z.max_id. reflexivity.
  - rewrite Z.max_r by lia. reflexivity.
  - rewrite Z.max_l by lia. reflexivity.
Qed.

Lemma toInt32_ofZ z : - 2 ^ 31 <= z < 2 ^ 31 -> JS.toInt32 (JS.ofZ z) = z.
Proof.
  intros Hz. unfold JS.toInt32, JS.ofZ, JS.Qtruncate, Qceiling.
  assert (E : (if Qle_bool 0 (inject_Z z) then Qfloor (inject_Z z)
               else - Qfloor (- inject_Z z)) = z).
  { destruct (Qle_bool 0 (inject_Z z)); [apply Qfloor_Z|].
    change (- inject_Z z)%Q with (inject_Z (- z)). rewrite Qfloor_Z. lia. }
  rewrite E. unfold JS.wrap32. rewrite Z.mod_small by lia. lia.
Qed.

Lemma Qtruncate_inject_Z z : JS.Qtruncate (inject_Z z) = z.
Proof.
  unfold JS.Qtruncate, Qceiling.
  destruct (Qle_bool 0 (inject_Z z)); [apply Qfloor_Z|].
  change (- inject_Z z)%Q with (inject_Z (- z)). rewrite Qfloor_Z. lia.
Qed.

Lemma toUint32_ofZ z : 0 <= z < 2 ^ 32 -> JS.toUint32 (JS.ofZ z) = z.
Proof.
  intros Hz. unfold JS.toUint32, JS.ofZ. rewrite Qtruncate_inject_Z.
  apply Z.mod_small. exact Hz.
Qed.

Lemma le_ofZ a b : JS.le (JS.ofZ a) (JS.ofZ b) = true <-> a <= b.
Proof.
  unfold JS.le, JS.ofZ. simpl. rewrite Qcompare_inject_Z.
  destruct (Z.compare_spec a b); split; intros; try reflexivity;
    try discriminate; lia.
Qed.

(** A canvas keeps a dimension from 0 to 2^31 - 1 as it is. *)
Lemma reflect_dimension_keeps d z :
  0 <= z <= max_canvas_dimension ->
  reflect_dimension d (JS.ofZ z) = JS.ofZ z.
Proof.
  unfold max_canvas_dimension, reflect_dimension. intros Hz.
  rewrite toUint32_ofZ by lia.
  destruct (Z.leb_spec z 2147483647); [reflexivity|lia].
Qed.

(** A physical size is an integer of at least 1, NaN or positive infinity;
    one that a canvas can hold is an integer from 1 to 2^31 - 1. *)
Lemma physical_size_in_range logical ratio :
  JS.le (physical_size logical ratio) (JS.ofZ max_canvas_dimension) = true ->
  exists n, physical_size logical ratio = JS.ofZ n
            /\ 1 <= n <= max_canvas_dimension.
Proof.
  unfold physical_size.
  destruct (JS.fmul logical ratio) as [q| | |]; cbn [JS.floor].
  - rewrite max_ofZ. intros Hle. apply le_ofZ in Hle.
    eexists. split; [reflexivity|]. lia.
  - intros Hle. discriminate Hle.
  - intros _. exists 1. split; [reflexivity|]. unfold max_canvas_dimension. lia.
  - intros Hle. discriminate Hle.
Qed.

(** What [SetSize] stores: the canvas gets the physical size of each axis,
    and the renderer's [width] and [height] are the canvas's, read back. *)
Lemma SetSize_fields x y r w :
  let r' := fst (SetSize x y r w) in
  canvas r' =
    {| canvas_width := reflect_dimension 300 (physical_size x (devicePixelRatio r));
       canvas_height := reflect_dimension 150 (physical_size y (devicePixelRatio r)) |}
  /\ width r' = canvas_width (canvas r')
  /\ height r' = canvas_height (canvas r')
  /\ devicePixelRatio r' = devicePixelRatio r
  /\ gpuDevice r' = gpuDevice r /\ options r' = options r.
Proof.
  unfold SetSize.
  match goal with |- context [createOrResizeTargets ?r1 w] => set (r1' := r1) end.
  destruct (createOrResizeTargets_frame r1' w)
    as (_ & _ & Hd & Ho & _ & Hwd & Hht & Hcv & _).
  cbv zeta. rewrite Hcv, Hwd, Hht, Hd, Ho.
  split; [reflexivity|]. split; [reflexivity|]. split; [reflexivity|].
  split; [|split; reflexivity].
  unfold createOrResizeTargets.
  destruct (gpuDevice r1'); [|reflexivity].
  repeat match goal with
         | |- context [let (_, _) := ?e in _] => destruct e
         | |- context [if ?b then _ else _] => destruct b
         end; reflexivity.
Qed.

(** C2: for every logical width and height and every pixel ratio whose
    physical size [max(1, floor(logical * ratio))] is one a canvas can hold
    (at most 2^31 - 1) on each axis, [SetSize] stores exactly that size in
    the canvas and in the renderer and, with a device, allocates the depth
    target (and the multisample target, if any) with exactly these
    dimensions, which are at least 1; for every argument whatsoever the
    allocated dimensions are at least 1. *)
Theorem SetSize_physical_dimensions (lw lh : number) (r : WebGPURenderer)
    (w : World) (dev : GPUDevice) :
  gpuDevice r = Some dev ->
  JS.le (physical_size lw (devicePixelRatio r)) (JS.ofZ max_canvas_dimension)
    = true ->
  JS.le (physical_size lh (devicePixelRatio r)) (JS.ofZ max_canvas_dimension)
    = true ->
  let r' := fst (SetSize lw lh r w) in
  let w' := snd (SetSize lw lh r w) in
  exists pw ph : Z,
    physical_size lw (devicePixelRatio r) = JS.ofZ pw
    /\ physical_size lh (devicePixelRatio r) = JS.ofZ ph
    /\ 1 <= pw /\ 1 <= ph
    /\ width r' = JS.ofZ pw
    /\ height r' = JS.ofZ ph
    /\ canvas r' = {| canvas_width := JS.ofZ pw; canvas_height := JS.ofZ ph |}
    /\ (exists t d, depthTexture r' = Some t /\ textures w' !! t = Some d
          /\ tex_width d = pw /\ tex_height d = ph)
    /\ (forall m, msaaTexture r' = Some m ->
          exists d, textures w' !! m = Some d
            /\ tex_width d = pw /\ tex_height d = ph)
    /\ (forall (x y : number),
          exists t d,
            depthTexture (fst (SetSize x y r w)) = Some t
            /\ textures (snd (SetSize x y r w)) !! t = Some d
            /\ 1 <= tex_width d /\ 1 <= tex_height d).
Proof.
  intros Hdev Hw Hh r' w'.
  destruct (physical_size_in_range _ _ Hw) as (pw & Epw & Pw).
  destruct (physical_size_in_range _ _ Hh) as (ph & Eph & Ph).
  exists pw, ph.
  destruct (SetSize_fields lw lh r w) as (Hcv & Hwd & Hht & _).
  fold r' in Hcv, Hwd, Hht.
  rewrite Epw, Eph, !reflect_dimension_keeps in Hcv by lia.
  rewrite Hcv in Hwd, Hht. cbn [canvas_width canvas_height] in Hwd, Hht.
  split; [exact Epw|]. split; [exact Eph|].
  split; [lia|]. split; [lia|].
  split; [exact Hwd|]. split; [exact Hht|]. split; [exact Hcv|].
  unfold r', w', SetSize in *.
  match goal with |- context [createOrResizeTargets ?r1 w] => set (r1' := r1) in * end.
  destruct (createOrResizeTargets_frame r1' w)
    as (_ & _ & _ & _ & _ & Hwd1 & Hht1 & _).
  destruct (createOrResizeTargets_allocates r1' w dev Hdev)
    as (t & v & Hdt & _ & Hlk & Hms).
  assert (Etd : forall fmt, tex_width (target_descriptor r1' fmt) = pw
                      /\ tex_height (target_descriptor r1' fmt) = ph).
  { intros fmt. unfold target_descriptor.
    cbn [tex_width tex_height]. rewrite <- Hwd1, <- Hht1, Hwd, Hht.
    unfold max_canvas_dimension in *.
    rewrite !toInt32_ofZ by lia. lia. }
  split; [exists t; eexists; split; [exact Hdt|split; [exact Hlk|apply Etd]]|].
  split.
  - intros m Hm. destruct (JS.gt (getMsaa r1') (JS.ofZ 1)).
    + destruct Hms as (m' & mv & Hm' & _ & Hlm).
      rewrite Hm' in Hm. injection Hm as <-.
      eexists; split; [exact Hlm|apply Etd].
    + destruct Hms as [Hnone _]. congruence.
  - intros x y.
    match goal with |- context [createOrResizeTargets ?r2 w] => set (r2' := r2) end.
    destruct (createOrResizeTargets_allocates r2' w dev Hdev)
      as (t2 & v2 & Hdt2 & _ & Hlk2 & _).
    exists t2. eexists. split; [exact Hdt2|]. split; [exact Hlk2|].
    unfold target_descriptor; simpl. lia.
Qed.

(** [SetSize(800, 600.5)] at the pixel ratio that is the double nearest to
    1.2, on a renderer with four samples: 960 by 720.  (The exact product of
    800 and that double is below 960; the machine's product is 960.) *)
Lemma SetSize_physical_dimensions_witness :
  let ratio := JS.Fin (5404319552844595 # 4503599627370496) in
  let r := RendererSurface.set_devicePixelRatio ratio (sample_renderer (Some (JS.ofZ 4))) in
  let res := SetSize (JS.ofZ 800) (JS.Fin (1201 # 2)) r sample_world in
  exists pw ph : Z,
    physical_size (JS.ofZ 800) ratio = JS.ofZ pw
    /\ physical_size (JS.Fin (1201 # 2)) ratio = JS.ofZ ph
    /\ pw = 960 /\ ph = 720
    /\ width (fst res) = JS.ofZ pw /\ height (fst res) = JS.ofZ ph
    /\ exists t d, depthTexture (fst res) = Some t
         /\ textures (snd res) !! t = Some d
         /\ tex_width d = pw /\ tex_height d = ph.
Proof.
  intros ratio r res.
  destruct (SetSize_physical_dimensions (JS.ofZ 800) (JS.Fin (1201 # 2)) r
              sample_world sample_device)
    as (pw & ph & Epw & Eph & _ & _ & Hw & Hh & _ & Ht & _);
    [reflexivity | vm_compute; reflexivity | vm_compute; reflexivity |].
  exists pw, ph. split; [exact Epw|]. split; [exact Eph|].
  split; [vm_compute in Epw; injection Epw as <-; reflexivity|].
  split; [vm_compute in Eph; injection Eph as <-; reflexivity|].
  split; [exact Hw|]. split; [exact Hh|]. exact Ht.
Defined.

(** Outside the range of a canvas the physical size is not kept.  A logical
    width of 2^31 at ratio 1 reads back as the default 300, and the target
    is 300 wide; a width that is not a number reads back as 0, and the
    target is 1 wide. *)
Lemma SetSize_beyond_canvas_range :
  let big := SetSize (JS.ofZ 2147483648) (JS.ofZ 600) (sample_renderer None)
               sample_world in
  let nan := SetSize JS.NaN (JS.ofZ 600) (sample_renderer None) sample_world in
  physical_size (JS.ofZ 2147483648) (JS.ofZ 1) = JS.ofZ 2147483648
  /\ width (fst big) = JS.ofZ 300
  /\ (exists t d, depthTexture (fst big) = Some t
        /\ textures (snd big) !! t = Some d
        /\ tex_width d = 300 /\ tex_height d = 600)
  /\ width (fst nan) = JS.ofZ 0
  /\ (exists t d, depthTexture (fst nan) = Some t
        /\ textures (snd nan) !! t = Some d
        /\ tex_width d = 1).
Proof.
  intros big nan.
  split; [vm_compute; reflexivity|]. split; [vm_compute; reflexivity|].
  split.
  - exists 4%nat. eexists. split; [vm_compute; reflexivity|].
    split; [vm_compute; reflexivity|]. split; reflexivity.
  - split; [vm_compute; reflexivity|].
    exists 4%nat. eexists. split; [vm_compute; reflexivity|].
    split; [vm_compute; reflexivity|]. reflexivity.
Qed.

Lemma ensure_targets (o : option handle) r w :
  exists r1 w1,
    match o with
    | None => call (createOrResizeTargets r)
    | Some _ => ret r
    end w = (Ok r1, w1)
    /\ gpu_only w w1
    /\ context r1 = context r /\ gpuDevice r1 = gpuDevice r
    /\ options r1 = options r.
Proof.
  destruct o as [h|].
  - exists r, w. split; [reflexivity|]. split; [apply gpu_only_refl|]. auto.
  - unfold call.
    destruct (createOrResizeTargets_frame r w) as (Hg & Hc & Hd & Ho & _).
    destruct (createOrResizeTargets r w) as [r1 w1]. simpl in *.
    exists r1, w1. auto.
Qed.

(** [BeginFrame] goes through whenever the renderer holds a context and a
    device: it asks nothing else, calls the device only, and hands out an
    encoder and a pass that did not exist before. *)
Lemma BeginFrame_ok r w ctx dev :
  context r = Some ctx -> gpuDevice r = Some dev ->
  exists r' f w',
    BeginFrame r w = (Ok (r', f), w')
    /\ gpu_only w w'
    /\ context r' = Some ctx /\ gpuDevice r' = Some dev
    /\ options r' = options r
    /\ (next_handle w <= encoder f)%nat
    /\ (encoder f < pass f)%nat
    /\ (pass f < next_handle w')%nat.
Proof.
  intros Hctx Hdev. unfold BeginFrame. rewrite Hctx, Hdev.
  unfold bind at 1. cbn [deref ret].
  unfold bind at 1. unfold call at 1.
  pose proof (gpu_only_fresh w) as G0.
  assert (G1 : gpu_only w (snd (currentTextureView ctx w))).
  { unfold currentTextureView. destruct (fresh w) as [t w1] eqn:Ef.
    simpl in G0. eapply gpu_only_trans; [exact G0|].
    eapply gpu_only_trans; [|apply gpu_only_createView].
    apply gpu_only_emit; reflexivity. }
  destruct (currentTextureView ctx w) as [cv w1]. simpl in G1.
  unfold bind at 1. cbn [deref ret].
  unfold bind at 1. unfold call at 1, createCommandEncoder.
  destruct (fresh w1) as [enc w2] eqn:Ef.
  assert (Henc : enc = next_handle w1 /\ next_handle w2 = S enc)
    by (inversion Ef; split; reflexivity).
  assert (G2 : gpu_only w1 w2) by (pose proof (gpu_only_fresh w1) as G;
    rewrite Ef in G; exact G).
  set (w3 := emit _ w2).
  assert (G3 : gpu_only w2 w3) by (apply gpu_only_emit; reflexivity).
  unfold bind at 1.
  destruct (ensure_targets (depthTextureView r) r w3)
    as (r1 & w4 & E4 & G4 & C4 & D4 & O4).
  rewrite E4.
  unfold bind at 1.
  assert (G14 : gpu_only w w4)
    by (repeat (eapply gpu_only_trans; [eassumption|]); apply gpu_only_refl).
  assert (N4 : (enc < next_handle w4)%nat).
  { destruct G3 as [N3 _]. destruct G4 as [N4 _]. simpl in *. lia. }
  assert (N0 : (next_handle w <= enc)%nat) by (destruct G1; lia).
  destruct (JS.gt (frame_msaa r) (JS.ofZ 1)).
  - unfold bind at 1.
    destruct (ensure_targets (msaaTextureView r1) r1 w4)
      as (r2 & w5 & E5 & G5 & C5 & D5 & O5).
    rewrite E5. cbn [ret]. unfold bind at 1, call at 1, beginRenderPass.
    destruct (fresh w5) as [p w6] eqn:Ep.
    inversion Ep; subst p w6. cbn [ret].
    do 3 eexists. split; [reflexivity|].
    destruct G5 as [N5 T5].
    split.
    + eapply gpu_only_trans; [exact G14|].
      eapply gpu_only_trans; [split; [exact N5|exact T5]|].
      eapply gpu_only_trans; [apply gpu_only_fresh|].
      apply (gpu_only_emit (BeginRenderPass _ _ _ _)); reflexivity.
    + simpl. repeat split; try congruence; lia.
  - cbn [ret]. unfold bind at 1, call at 1, beginRenderPass.
    destruct (fresh w4) as [p w6] eqn:Ep.
    inversion Ep; subst p w6. cbn [ret].
    do 3 eexists. split; [reflexivity|].
    split.
    + eapply gpu_only_trans; [exact G14|].
      eapply gpu_only_trans; [apply gpu_only_fresh|].
      apply (gpu_only_emit (BeginRenderPass _ _ _ _)); reflexivity.
    + simpl. repeat split; try congruence; lia.
Qed.

(** [BeginFrame] returns a frame only from a renderer with a context and a
    device. *)
Lemma BeginFrame_inv r w r1 f1 w1 :
  BeginFrame r w = (Ok (r1, f1), w1) ->
  exists ctx dev, context r = Some ctx /\ gpuDevice r = Some dev.
Proof.
  unfold BeginFrame. intros E.
  destruct (context r) as [ctx|]; [|discriminate E].
  destruct (gpuDevice r) as [dev|]; [eauto|].
  unfold bind at 1 in E. cbn [deref ret] in E.
  unfold bind at 1 in E. unfold call at 1 in E.
  destruct (currentTextureView ctx w). discriminate E.
Qed.

(** [EndFrame] asks nothing of the frame it is given. *)
Lemma EndFrame_ok r f w dev q :
  gpuDevice r = Some dev -> dev_queue dev = Some q ->
  EndFrame r f w =
    (Ok tt,
     emit (QueueSubmit q (next_handle w))
       (emit (EncoderFinish (encoder f) (next_handle w))
          (snd (fresh (emit (PassEnd (pass f)) w))))).
Proof.
  intros Hdev Hq. unfold EndFrame. rewrite Hdev.
  unfold bind, tell, call; simpl. rewrite Hq. reflexivity.
Qed.

Lemma EndFrame_gpu_only r f w dev q :
  gpuDevice r = Some dev -> dev_queue dev = Some q ->
  EndFrame r f w = (Ok tt, snd (EndFrame r f w))
  /\ gpu_only w (snd (EndFrame r f w)).
Proof.
  intros Hdev Hq. rewrite (EndFrame_ok r f w dev q Hdev Hq).
  split; [reflexivity|]. cbn [snd].
  eapply gpu_only_trans; [|apply (gpu_only_emit (QueueSubmit _ _)); reflexivity].
  eapply gpu_only_trans; [|apply (gpu_only_emit (EncoderFinish _ _)); reflexivity].
  eapply gpu_only_trans; [|apply gpu_only_fresh].
  apply (gpu_only_emit (PassEnd _)); reflexivity.
Qed.

Lemma strict_eq_num_eq (x y : number) :
  JS.strict_eq x y = true <-> JS.num_eq x y.
Proof.
  destruct x as [a| | |], y as [b| | |]; simpl; unfold JS.strict_eq; simpl;
    try (split; [discriminate | tauto]); try tauto.
  rewrite Qeq_alt. destruct (a ?= b)%Q; split; congruence.
Qed.

(** [getMsaa] keeps a supported sample count and resolves any other to 1. *)
Lemma getMsaa_resolves (r : WebGPURenderer) :
  let n := default (JS.ofZ 1) (msaaSampleCount (options r)) in
  (supported_sample_count n -> getMsaa r = n)
  /\ (~ supported_sample_count n -> getMsaa r = JS.ofZ 1).
Proof.
  intros n. unfold getMsaa, supported_sample_count. fold n.
  rewrite <- !strict_eq_num_eq.
  destruct (JS.strict_eq n (JS.ofZ 1)), (JS.strict_eq n (JS.ofZ 2)),
    (JS.strict_eq n (JS.ofZ 4)), (JS.strict_eq n (JS.ofZ 8)); simpl;
    split; intros Hs; try reflexivity; intuition congruence.
Qed.

(** The trace of an [EndFrame] with a device and a queue. *)
Lemma EndFrame_trace r f w dev q :
  gpuDevice r = Some dev -> dev_queue dev = Some q ->
  exists cb w',
    EndFrame r f w = (Ok tt, w')
    /\ trace w' = trace w ++ [PassEnd (pass f); EncoderFinish (encoder f) cb;
                              QueueSubmit q cb].
Proof.
  intros Hdev Hq. rewrite (EndFrame_ok r f w dev q Hdev Hq).
  do 2 eexists. split; [reflexivity|].
  unfold emit, fresh. cbn [trace snd]. rewrite <- !app_assoc. reflexivity.
Qed.

(** C1, as the renderer has it: [BeginFrame] keeps no record of an open
    frame.  After a [BeginFrame] that returned a frame, a second one returns
    a frame as well, with an encoder and a pass of its own, and neither call
    reports anything; [EndFrame] makes no check either: with a device and a
    queue it ends the pass and finishes and submits the encoder of whatever
    frame it is given, in whatever state of the platform, also of a frame
    that was ended before, and calls nothing else and reports nothing. *)
Theorem BeginFrame_keeps_no_session (r : WebGPURenderer) (w : World)
    (r1 : WebGPURenderer) (f1 : WebGPURendererFrameInfo) (w1 : World) :
  BeginFrame r w = (Ok (r1, f1), w1) ->
  (exists r2 f2 w2,
      BeginFrame r1 w1 = (Ok (r2, f2), w2)
      /\ diagnostics (trace w2) = diagnostics (trace w)
      /\ encoder f2 <> encoder f1 /\ pass f2 <> pass f1)
  /\ (forall dev q, gpuDevice r1 = Some dev -> dev_queue dev = Some q ->
      exists wa wb,
        EndFrame r1 f1 w1 = (Ok tt, wa)
        /\ EndFrame r1 f1 wa = (Ok tt, wb)
        /\ diagnostics (trace wb) = diagnostics (trace w))
  /\ (forall dev q (f : WebGPURendererFrameInfo) (wx : World),
      gpuDevice r1 = Some dev -> dev_queue dev = Some q ->
      exists cb1 cb2 wa wb,
        EndFrame r1 f wx = (Ok tt, wa)
        /\ trace wa = trace wx ++ [PassEnd (pass f);
                                   EncoderFinish (encoder f) cb1;
                                   QueueSubmit q cb1]
        /\ EndFrame r1 f wa = (Ok tt, wb)
        /\ trace wb = trace wa ++ [PassEnd (pass f);
                                   EncoderFinish (encoder f) cb2;
                                   QueueSubmit q cb2]
        /\ cb2 <> cb1).
Proof.
  intros E1.
  destruct (BeginFrame_inv _ _ _ _ _ E1) as (ctx & dev & Hctx & Hdev).
  destruct (BeginFrame_ok r w ctx dev Hctx Hdev)
    as (r1' & f1' & w1' & E1' & G1 & Hctx1 & Hdev1 & _ & _ & Hep1 & Hp1).
  rewrite E1 in E1'. injection E1' as <- <- <-.
  split; [|split].
  - destruct (BeginFrame_ok r1 w1 ctx dev Hctx1 Hdev1)
      as (r2 & f2 & w2 & E2 & G2 & _ & _ & _ & He2 & Hep2 & _).
    exists r2, f2, w2. split; [exact E2|]. split.
    + rewrite (gpu_only_diagnostics _ _ G2). apply gpu_only_diagnostics, G1.
    + split; lia.
  - intros dev' q Hdev' Hq.
    destruct (EndFrame_gpu_only r1 f1 w1 dev' q Hdev' Hq) as [Ea Ga].
    destruct (EndFrame_gpu_only r1 f1 (snd (EndFrame r1 f1 w1)) dev' q Hdev' Hq)
      as [Eb Gb].
    do 2 eexists. split; [exact Ea|]. split; [exact Eb|].
    rewrite (gpu_only_diagnostics _ _ Gb), (gpu_only_diagnostics _ _ Ga).
    apply gpu_only_diagnostics, G1.
  - intros dev' q f wx Hdev' Hq.
    pose proof (EndFrame_ok r1 f wx dev' q Hdev' Hq) as Ea.
    set (wa := emit (QueueSubmit q (next_handle wx)) _) in Ea.
    pose proof (EndFrame_ok r1 f wa dev' q Hdev' Hq) as Eb.
    exists (next_handle wx), (next_handle wa), wa. eexists.
    split; [exact Ea|]. split.
    { unfold wa, emit, fresh. cbn [trace snd]. rewrite <- !app_assoc. reflexivity. }
    split; [exact Eb|]. split.
    { unfold emit, fresh. cbn [trace snd]. rewrite <- !app_assoc. reflexivity. }
    unfold wa, emit, fresh. cbn [next_handle snd]. lia.
Qed.

Lemma BeginFrame_keeps_no_session_witness :
  let first := BeginFrame (ready_renderer None) (ready_world None) in
  exists r1 f1 r2 f2 w2,
    first = (Ok (r1, f1), snd first)
    /\ BeginFrame r1 (snd first) = (Ok (r2, f2), w2)
    /\ diagnostics (trace w2) = diagnostics (trace (ready_world None))
    /\ exists cb1 cb2 wa wb,
         EndFrame r1 f1 w2 = (Ok tt, wa)
         /\ trace wa = trace w2 ++ [PassEnd (pass f1);
                                    EncoderFinish (encoder f1) cb1;
                                    QueueSubmit 2%nat cb1]
         /\ EndFrame r1 f1 wa = (Ok tt, wb)
         /\ trace wb = trace wa ++ [PassEnd (pass f1);
                                    EncoderFinish (encoder f1) cb2;
                                    QueueSubmit 2%nat cb2].
Proof.
  intros first.
  edestruct (BeginFrame_keeps_no_session (ready_renderer None)
               (ready_world None))
    as [(r2 & f2 & w2 & E2 & Hd & _) [_ He]]; [vm_compute; reflexivity|].
  do 2 eexists. exists r2, f2, w2.
  split; [vm_compute; reflexivity|]. split; [exact E2|]. split; [exact Hd|].
  match goal with
  | |- context [EndFrame _ ?f w2] =>
      destruct (He sample_device 2%nat f w2 eq_refl eq_refl)
        as (cb1 & cb2 & wa & wb & Ea & Ta & Eb & Tb & _)
  end.
  exists cb1, cb2, wa, wb. split; [exact Ea|]. split; [exact Ta|].
  split; [exact Eb | exact Tb].
Defined.

(** C1 on the sized sample renderer: a second [BeginFrame] with no
    [EndFrame] in between returns a second frame, and the sink has received
    nothing; and an [EndFrame] for a frame that no [BeginFrame] returned
    ends, finishes and submits like any other, and the sink has received
    nothing. *)
Lemma BeginFrame_twice_is_not_reported :
  let first := BeginFrame (ready_renderer None) (ready_world None) in
  let stray := {| encoder := 77%nat; pass := 78%nat; colorView := 79%nat |} in
  exists r1 f1 r2 f2,
    fst first = Ok (r1, f1)
    /\ fst (BeginFrame r1 (snd first)) = Ok (r2, f2)
    /\ diagnostics (trace (snd (BeginFrame r1 (snd first)))) = []
    /\ f2 <> f1
    /\ fst (EndFrame r1 stray (snd first)) = Ok tt
    /\ diagnostics (trace (snd (EndFrame r1 stray (snd first)))) = []
    /\ exists cb,
         trace (snd (EndFrame r1 stray (snd first)))
         = trace (snd first) ++ [PassEnd 78%nat; EncoderFinish 77%nat cb;
                                 QueueSubmit 2%nat cb].
Proof.
  intros first stray. do 4 eexists.
  split; [vm_compute; reflexivity|].
  split; [vm_compute; reflexivity|].
  split; [vm_compute; reflexivity|].
  split; [vm_compute; discriminate|].
  split; [vm_compute; reflexivity|].
  split; [vm_compute; reflexivity|].
  eexists. vm_compute. reflexivity.
Qed.

End RendererFacts.

(** ** Camera *)

Section CameraFacts.
Context `{GlMatrix}.
Import Camera.

Lemma length_bytes_of {n} (a : vec float32 n) :
  length (bytes_of a) = (4 * n)%nat.
Proof.
  unfold bytes_of. induction a as [|x n a IH]; [reflexivity|].
  rewrite vec_to_list_cons, fmap_cons. simpl mjoin.
  rewrite length_app, IH, length_vec_to_list. lia.
Qed.

Lemma writeBuffer_content q b off data w content :
  buffers w !! b = Some content ->
  (off + length data <= length content)%nat ->
  buffers (writeBuffer q b off data w) =
    <[b := take off content ++ data ++ drop (off + length data) content]>
      (buffers w).
Proof.
  intros Hb Hfit. unfold writeBuffer. rewrite Hb.
  destruct (Nat.leb_spec (off + length data) (length content)); [reflexivity|lia].
Qed.

(** The buffer after [WriteUniformsToQueue], whatever it held before. *)
Lemma WriteUniformsToQueue_buffer (c : Camera) (q b : handle) (w : World)
    (content : list byte) :
  uniformBuffer c = Some b ->
  buffers w !! b = Some content ->
  length content = 80%nat ->
  buffers (WriteUniformsToQueue q c w) =
    <[b := bytes_of (viewProjection c)
           ++ bytes_of (vec3_fromValues (position c))
           ++ drop 76 content]> (buffers w).
Proof.
  intros Hu Hb Hlen. unfold WriteUniformsToQueue. rewrite Hu.
  pose proof (length_bytes_of (viewProjection c)) as Lvp.
  pose proof (length_bytes_of (vec3_fromValues (position c))) as Lpos.
  set (vp := bytes_of (viewProjection c)) in *.
  set (pos := bytes_of (vec3_fromValues (position c))) in *.
  rewrite (writeBuffer_content q b 64 pos _ (vp ++ drop 64 content)).
  - rewrite (writeBuffer_content q b 0 vp w content Hb) by lia.
    rewrite insert_insert_eq. f_equal.
    rewrite take_app_length' by lia.
    rewrite drop_app_ge by lia. rewrite drop_drop. 
    repeat f_equal. lia.
  - rewrite (writeBuffer_content q b 0 vp w content Hb) by lia.
    rewrite lookup_insert_eq, take_0, Lvp. reflexivity.
  - rewrite length_app, length_drop. lia.
Qed.

(** The three elements [vec3.fromValues] stores are the roundings of its
    arguments, in the order given. *)
Lemma bytes_of_vec3_fromValues (v : Vector3) :
  bytes_of (vec3_fromValues v)
  = vec_to_list (fround (x v)) ++ vec_to_list (fround (y v))
      ++ vec_to_list (fround (z v)).
Proof. unfold bytes_of, vec3_fromValues. simpl. rewrite app_nil_r. reflexivity. Qed.

(** Element [i] of a [Float32Array] lies at byte offset [4 * i]. *)
Lemma bytes_of_element {n} (a : vec float32 n) (i : fin n) :
  take 4 (drop (4 * fin_to_nat i) (bytes_of a)) = vec_to_list (a !!! i).
Proof.
  unfold bytes_of. induction a as [|e n a IH]; [inversion i|].
  rewrite vec_to_list_cons, fmap_cons. simpl mjoin.
  inv_fin i.
  - simpl. apply take_app_length'. symmetry. apply length_vec_to_list.
  - intros i. cbn [fin_to_nat].
    replace (4 * S (fin_to_nat i))%nat with (4 + 4 * fin_to_nat i)%nat by lia.
    rewrite drop_app_add'; [apply IH|].
    symmetry. apply length_vec_to_list.
Qed.

Lemma length_f32 (e : float32) : 4%nat = length (vec_to_list e).
Proof. symmetry. apply length_vec_to_list. Qed.

(** C5: with its 80-byte uniform buffer in place, [WriteUniformsToQueue]
    leaves in it the 16 elements of the view-projection matrix, in the order
    the matrix stores them, from offset 0 (64 bytes) and the roundings of
    the position's x, y and z from offsets 64, 68 and 72; the buffer stays
    80 bytes long, its last four bytes are untouched, and a second write
    with the camera unchanged leaves every buffer as it is.  The buffer is
    the one of 80 bytes that [CreateUniformBuffer] creates, once. *)
Theorem WriteUniformsToQueue_layout (c : Camera) (q b : handle) (w : World)
    (content : list byte) :
  uniformBuffer c = Some b ->
  buffers w !! b = Some content ->
  length content = 80%nat ->
  let w' := WriteUniformsToQueue q c w in
  (exists content',
      buffers w' !! b = Some content'
      /\ length content' = 80%nat
      /\ take 64 content' = bytes_of (viewProjection c)
      /\ length (bytes_of (viewProjection c)) = 64%nat
      /\ (forall i : fin 16,
            take 4 (drop (4 * fin_to_nat i) content')
            = vec_to_list (viewProjection c !!! i))
      /\ take 4 (drop 64 content') = vec_to_list (fround (x (position c)))
      /\ take 4 (drop 68 content') = vec_to_list (fround (y (position c)))
      /\ take 4 (drop 72 content') = vec_to_list (fround (z (position c)))
      /\ drop 76 content' = drop 76 content)
  /\ buffers (WriteUniformsToQueue q c w') = buffers w'
  /\ (forall dev wc, CreateUniformBuffer (Some dev) c wc = (Ok (c, b), wc))
  /\ (forall dev c0 wc, uniformBuffer c0 = None ->
        exists c1 b1 wc1,
          CreateUniformBuffer (Some dev) c0 wc = (Ok (c1, b1), wc1)
          /\ uniformBuffer c1 = Some b1
          /\ buffers wc1 !! b1 = Some (replicate 80 x00)
          /\ viewProjection c1 = viewProjection c0
          /\ position c1 = position c0).
Proof.
  intros Hu Hb Hlen w'.
  pose proof (length_bytes_of (viewProjection c)) as Lvp.
  pose proof (length_bytes_of (vec3_fromValues (position c))) as Lpos.
  pose proof (WriteUniformsToQueue_buffer c q b w content Hu Hb Hlen) as Hw.
  fold w' in Hw.
  set (content' := bytes_of (viewProjection c)
                   ++ bytes_of (vec3_fromValues (position c))
                   ++ drop 76 content) in *.
  assert (Hb' : buffers w' !! b = Some content')
    by (rewrite Hw; apply lookup_insert_eq).
  assert (Hlen' : length content' = 80%nat).
  { unfold content'. rewrite !length_app, length_drop. lia. }
  assert (Hpos : drop 64 content'
                 = vec_to_list (fround (x (position c)))
                   ++ vec_to_list (fround (y (position c)))
                   ++ vec_to_list (fround (z (position c)))
                   ++ drop 76 content).
  { unfold content'. rewrite drop_app_length' by lia.
    rewrite bytes_of_vec3_fromValues, <- !app_assoc. reflexivity. }
  split; [|split; [|split]].
  - exists content'. split; [exact Hb'|]. split; [exact Hlen'|].
    split; [unfold content'; apply take_app_length'; lia|].
    split; [exact Lvp|].
    split.
    { intros i. unfold content'.
      pose proof (fin_to_nat_lt i) as Hi.
      rewrite drop_app_le by lia. rewrite take_app_le.
      - apply bytes_of_element.
      - rewrite length_drop. lia. }
    split; [rewrite Hpos; apply take_app_length', length_f32|].
    split.
    { change 68%nat with (64 + 4)%nat. rewrite <- drop_drop, Hpos.
      rewrite drop_app_length' by apply length_f32.
      apply take_app_length', length_f32. }
    split.
    { change 72%nat with (64 + 8)%nat. rewrite <- drop_drop, Hpos.
      rewrite app_assoc, drop_app_length'
        by (rewrite length_app, <- !length_f32; reflexivity).
      apply take_app_length', length_f32. }
    unfold content'. rewrite app_assoc. apply drop_app_length'.
    rewrite length_app. lia.
  - rewrite (WriteUniformsToQueue_buffer c q b w' content' Hu Hb' Hlen').
    apply insert_id. rewrite Hb'. f_equal. unfold content' at 2.
    do 2 f_equal. unfold content'. rewrite app_assoc.
    rewrite drop_app_length' by (rewrite length_app; lia). reflexivity.
  - intros dev wc. unfold CreateUniformBuffer. rewrite Hu. reflexivity.
  - intros dev c0 wc Hnone. unfold CreateUniformBuffer. rewrite Hnone.
    do 3 eexists. split; [reflexivity|]. simpl.
    split; [reflexivity|]. split; [apply lookup_insert_eq|]. split; reflexivity.
Qed.

End CameraFacts.

(** The camera at (7, 8, 9) with the matrix 1 to 16, written over a buffer
    of [0xff]. *)
Lemma WriteUniformsToQueue_layout_witness :
  let w' := @Camera.WriteUniformsToQueue tagged_gl 2%nat tagged_camera
              filled_buffer_world in
  exists content',
    buffers w' !! 0%nat = Some content'
    /\ take 8 content' = [x01; x00; x00; x00; x02; x00; x00; x00]
    /\ take 4 (drop 60 content') = [x10; x00; x00; x00]
    /\ take 4 (drop 64 content') = [x07; x00; x00; x00]
    /\ take 4 (drop 68 content') = [x08; x00; x00; x00]
    /\ take 4 (drop 72 content') = [x09; x00; x00; x00]
    /\ drop 76 content' = [xff; xff; xff; xff]
    /\ buffers (@Camera.WriteUniformsToQueue tagged_gl 2%nat tagged_camera w')
       = buffers w'.
Proof.
  intros w'.
  destruct (@WriteUniformsToQueue_layout tagged_gl tagged_camera 2%nat 0%nat
              filled_buffer_world (replicate 80 xff) eq_refl eq_refl eq_refl)
    as ((content' & Hb & _ & Hm & _ & He & Hx & Hy & Hz & Hr) & Hi & _).
  exists content'. split; [exact Hb|].
  split.
  { replace (take 8 content') with (take 8 (take 64 content'))
      by (rewrite take_take; reflexivity).
    rewrite Hm. reflexivity. }
  split; [exact (He 15%fin)|].
  split; [exact Hx|]. split; [exact Hy|]. split; [exact Hz|].
  split; [exact Hr | exact Hi].
Defined.

(** ** Scene *)

Section SceneFacts.
Context `{GlMatrix} `{Camera.Projection}.
Import Scene.

Lemma initialize_all_spec dev fmt sc l w :
  exists k,
    (k <= length l)%nat
    /\ trace (snd (initialize_all dev fmt sc l w)) =
         trace w ++ map (fun x => RenderableInitialize (id x) dev fmt sc) (take k l)
    /\ buffers (snd (initialize_all dev fmt sc l w)) = buffers w
    /\ match fst (initialize_all dev fmt sc l w) with
       | Ok _ => k = length l
                 /\ Forall (fun x => initializes x dev fmt sc = true) l
       | Throw _ => exists x, x ∈ l /\ initializes x dev fmt sc = false
       end.
Proof.
  revert w; induction l as [|x l IH]; intros w.
  - exists 0%nat. simpl. rewrite app_nil_r. repeat split; constructor.
  - simpl. unfold bind, tell.
    destruct (initializes x dev fmt sc) eqn:Hx.
    + destruct (IH (emit (RenderableInitialize (id x) dev fmt sc) w))
        as (k & Hk & Ht & Hb & Hr).
      exists (S k). split; [simpl; lia|]. split.
      * rewrite Ht. simpl. rewrite <- app_assoc. reflexivity.
      * split; [exact Hb|].
        destruct (fst (initialize_all dev fmt sc l _)).
        -- destruct Hr as [-> Hall]. split; [reflexivity|].
           constructor; assumption.
        -- destruct Hr as (y & Hy & Hfail). exists y.
           split; [right; exact Hy | exact Hfail].
    + exists 1%nat. simpl. split; [lia|]. split; [reflexivity|].
      split; [reflexivity|]. exists x. split; [left | exact Hx].
Qed.

(** A binding that completes leaves the camera with a layout and a group. *)
Lemma EnsureBinding_completes dev c w c' w' :
  Camera.EnsureBinding dev c w = (Ok c', w') ->
  is_Some (Camera.bindGroupLayout c') /\ is_Some (Camera.bindGroup c')
  /\ initializations (trace w') = initializations (trace w).
Proof.
  unfold Camera.EnsureBinding, Camera.CreateUniformBuffer.
  unfold bind, deref, call, tell, ret, throw, fresh.
  destruct (Camera.bindGroupLayout c) as [l|] eqn:Hl,
           (Camera.bindGroup c) as [g|] eqn:Hg,
           (Camera.uniformBuffer c) as [b|] eqn:Hb,
           dev as [d|];
    simpl; rewrite ?Hl, ?Hg, ?Hb; simpl; rewrite ?Hb; simpl;
    intros E; inversion E; subst; simpl;
    rewrite ?Hl, ?Hg; unfold initializations;
    rewrite ?omap_app; simpl; rewrite ?app_nil_r; eauto.
Qed.

Lemma EnsureBinding_with_device d c w :
  exists c' w', Camera.EnsureBinding (Some d) c w = (Ok c', w').
Proof.
  unfold Camera.EnsureBinding, Camera.CreateUniformBuffer.
  unfold bind, deref, call, tell, ret, throw, fresh.
  destruct (Camera.bindGroupLayout c) as [l|] eqn:Hl,
           (Camera.bindGroup c) as [g|] eqn:Hg,
           (Camera.uniformBuffer c) as [b|] eqn:Hb;
    simpl; rewrite ?Hl, ?Hg, ?Hb; simpl; rewrite ?Hb; simpl; eauto.
Qed.

Lemma initializations_map dev fmt sc (l : list Renderable) :
  initializations (map (fun x => RenderableInitialize (id x) dev fmt sc) l)
  = map (fun x => (id x, sc)) l.
Proof.
  unfold initializations. induction l as [|x l IH]; [reflexivity|].
  simpl. f_equal. exact IH.
Qed.

(** C4: [Prepare] on a renderer that is not initialized reports the error
    and leaves scene and camera as they are, so a flag that was false stays
    false.  Whenever a call turns the flag from false to true, the renderer
    was initialized, [Initialize] was called on every Renderable, in order,
    and each resolved, and the camera binding completed; and when all these
    hold with a device, the call does set the flag. *)
Theorem Prepare_sets_prepared_last (r : Renderer.WebGPURenderer)
    (cam : Camera.Camera) (s : WebGPURendererScene) (w : World) :
  let dev := Renderer.gpuDevice r in
  let fmt := Renderer.format r in
  let sc := default (JS.ofZ 1) (Renderer.msaaSampleCount (Renderer.options r)) in
  (Renderer.hasInitialized r = false ->
     Prepare r cam s w =
       (Ok tt, s, cam, emit (DebugError WGPURSCENE_RENDERER_NOT_INITIALIZED) w))
  /\ (forall res s' cam' w',
        Prepare r cam s w = (res, s', cam', w') ->
        hasPrepared s = false -> hasPrepared s' = true ->
        res = Ok tt
        /\ Renderer.hasInitialized r = true
        /\ Forall (fun x => initializes x dev fmt sc = true) (rendererables s)
        /\ initializations (trace w') =
             initializations (trace w) ++ map (fun x => (id x, sc)) (rendererables s)
        /\ is_Some (Camera.bindGroupLayout cam')
        /\ is_Some (Camera.bindGroup cam'))
  /\ (forall d,
        Renderer.hasInitialized r = true -> dev = Some d ->
        Forall (fun x => initializes x dev fmt sc = true) (rendererables s) ->
        exists s' cam' w',
          Prepare r cam s w = (Ok tt, s', cam', w')
          /\ hasPrepared s' = true
          /\ rendererables s' = rendererables s).
Proof.
  intros dev fmt sc. unfold Prepare. fold dev fmt sc.
  split; [intros ->; reflexivity|].
  destruct (initialize_all_spec dev fmt sc (rendererables s) w)
    as (k & Hk & Ht & _ & Hr).
  split.
  - intros res s' cam' w' E Hbefore Hafter.
    destruct (Renderer.hasInitialized r);
      [|simpl in E; injection E as <- <- <- <-; congruence].
    simpl in E. unfold bind in E.
    destruct (initialize_all dev fmt sc (rendererables s) w) as [[[]|e] w1];
      [|injection E as <- <- <- <-; congruence].
    simpl in Ht, Hr. destruct Hr as [-> Hall].
    destruct (Camera.EnsureBinding dev cam w1) as [[c1|e] w2] eqn:Eb;
      [|injection E as <- <- <- <-; congruence].
    injection E as <- <- <- <-.
    destruct (EnsureBinding_completes _ _ _ _ _ Eb) as (Hl & Hg & Hi).
    split; [reflexivity|]. split; [reflexivity|]. split; [exact Hall|].
    split; [|split; assumption].
    simpl. unfold initializations at 1. rewrite omap_app. simpl.
    rewrite app_nil_r. fold (initializations (trace w2)).
    rewrite Hi, Ht, take_ge by lia.
    unfold initializations at 1. rewrite omap_app.
    fold (initializations (trace w)). f_equal. apply initializations_map.
  - intros d Hinit Hd Hall. rewrite Hinit. simpl. unfold bind.
    destruct (initialize_all dev fmt sc (rendererables s) w) as [[[]|e] w1].
    + rewrite Hd. destruct (EnsureBinding_with_device d cam w1) as (c' & w' & ->).
      do 3 eexists. split; [reflexivity|]. split; reflexivity.
    + simpl in Hr. destruct Hr as (x & Hx & Hfail).
      rewrite Forall_forall in Hall. rewrite (Hall x Hx) in Hfail. discriminate.
Qed.

End SceneFacts.

Lemma Prepare_sets_prepared_last_witness :
  let scene :=
    Scene.AddRenderable (sample_renderable 8)
      (Scene.AddRenderable (sample_renderable 7) Scene.new) in
  exists s' cam' w',
    @Scene.Prepare sample_gl sample_projection (ready_renderer None)
      sample_camera scene (ready_world None) = (Ok tt, s', cam', w')
    /\ Scene.hasPrepared s' = true
    /\ Scene.rendererables s' = Scene.rendererables scene.
Proof.
  intros scene.
  apply (proj2 (proj2 (@Prepare_sets_prepared_last sample_gl sample_projection
           (ready_renderer None) sample_camera scene (ready_world None)))
           sample_device).
  - reflexivity.
  - reflexivity.
  - repeat constructor.
Defined.

(** ** Render *)

Section RenderFacts.
Context `{GlMatrix}.

Lemma draws_emit e w :
  draws (trace (emit e w)) =
    draws (trace w) ++ match e with
                       | RenderableRender i p => [(i, p)]
                       | _ => []
                       end.
Proof.
  unfold draws. simpl. rewrite omap_app. f_equal. destruct e; reflexivity.
Qed.

Lemma render_all_draws p l w :
  draws (trace (render_all p l w)) =
    draws (trace w) ++ map (fun x => (Scene.id x, p)) l.
Proof.
  unfold render_all. revert w; induction l as [|x l IH]; intros w; simpl.
  - rewrite app_nil_r. reflexivity.
  - rewrite IH, draws_emit, <- app_assoc. reflexivity.
Qed.

Lemma WriteUniformsToQueue_draws q c w :
  draws (trace (Camera.WriteUniformsToQueue q c w)) = draws (trace w).
Proof.
  unfold Camera.WriteUniformsToQueue.
  destruct (Camera.uniformBuffer c) as [b|].
  - apply gpu_only_draws.
    eapply gpu_only_trans; apply gpu_only_writeBuffer.
  - rewrite draws_emit, app_nil_r. reflexivity.
Qed.

Lemma AddRenderable_order (xs : list Scene.Renderable) (s : Scene.WebGPURendererScene) :
  Scene.rendererables (fold_left (fun acc x => Scene.AddRenderable x acc) xs s)
  = Scene.rendererables s ++ List.filter Scene.isRenderable xs.
Proof.
  revert s; induction xs as [|x xs IH]; intros s; simpl.
  - rewrite app_nil_r. reflexivity.
  - rewrite IH. unfold Scene.AddRenderable.
    destruct (Scene.isRenderable x); simpl; [|reflexivity].
    rewrite <- app_assoc. reflexivity.
Qed.

(** C8: on a scene that is not prepared [Render] reports the error and
    draws nothing.  On a prepared scene, with a context and a device that
    has its queue, [Render] returns and the draws of the frame are one per
    entry of the scene's list, in the order of the list and all into the
    pass of this frame; and the list holds the Renderables in the order
    [AddRenderable] received them. *)
Theorem Render_draws_in_insertion_order (r : Renderer.WebGPURenderer)
    (scene : Scene.WebGPURendererScene) (camera : Camera.Camera) (w : World) :
  (Scene.hasPrepared scene = false ->
     Render r scene camera w = (Ok r, emit (DebugError WGPUR_SCENE_NOT_PREPARED) w)
     /\ draws (trace (snd (Render r scene camera w))) = draws (trace w))
  /\ (forall ctx dev q,
        Scene.hasPrepared scene = true ->
        Renderer.context r = Some ctx ->
        Renderer.gpuDevice r = Some dev ->
        dev_queue dev = Some q ->
        exists r' w' p,
          Render r scene camera w = (Ok r', w')
          /\ draws (trace w') =
               draws (trace w)
               ++ map (fun x => (Scene.id x, p)) (Scene.rendererables scene))
  /\ (forall xs,
        Scene.rendererables
          (fold_left (fun acc x => Scene.AddRenderable x acc) xs Scene.new)
        = List.filter Scene.isRenderable xs).
Proof.
  split; [|split].
  - intros Hp.
    assert (E : Render r scene camera w =
                (Ok r, emit (DebugError WGPUR_SCENE_NOT_PREPARED) w))
      by (unfold Render; rewrite Hp; reflexivity).
    rewrite E. split; [reflexivity|]. cbn [snd].
    rewrite draws_emit. apply app_nil_r.
  - intros ctx dev q Hp Hctx Hdev Hq. unfold Render. rewrite Hp, Hdev.
    cbn [negb deref]. unfold bind at 1. cbn [ret]. rewrite Hq.
    unfold bind at 1, call at 1.
    set (w1 := Camera.WriteUniformsToQueue q camera w).
    destruct (BeginFrame_ok r w1 ctx dev Hctx Hdev)
      as (r' & f & w2 & E & G & _ & Hdev' & _).
    unfold bind at 1. rewrite E.
    unfold bind at 1, tell at 1. unfold bind at 1, call at 1.
    set (w3 := emit (SetBindGroup _ _ _) w2).
    set (w4 := render_all _ _ w3).
    destruct (EndFrame_gpu_only r' f w4 dev q Hdev' Hq) as [Ee Ge].
    unfold bind at 1. rewrite Ee. cbn [ret].
    do 3 eexists. split; [reflexivity|].
    rewrite (gpu_only_draws _ _ Ge). unfold w4.
    rewrite render_all_draws. f_equal. unfold w3.
    rewrite draws_emit, app_nil_r, (gpu_only_draws _ _ G).
    apply WriteUniformsToQueue_draws.
  - intros xs. apply (AddRenderable_order xs Scene.new).
Qed.

End RenderFacts.

Lemma Render_draws_in_insertion_order_witness :
  let scene :=
    {| Scene.rendererables := [sample_renderable 7; sample_renderable 8];
       Scene.hasPrepared := true |} in
  exists r' w' p,
    @Render sample_gl (ready_renderer None) scene sample_camera
      (ready_world None) = (Ok r', w')
    /\ draws (trace w') = draws (trace (ready_world None)) ++ [(7%nat, p); (8%nat, p)].
Proof.
  intros scene.
  apply (proj1 (proj2 (@Render_draws_in_insertion_order sample_gl
           (ready_renderer None) scene sample_camera (ready_world None)))
           3%nat sample_device 2%nat); reflexivity.
Defined.

(** ** The sample count outside target allocation *)

(** C3 at [msaaSampleCount = 3]: [getMsaa] resolves the request to 1, so the
    targets are allocated single-sampled and no multisample view exists;
    [BeginFrame] does not go through [getMsaa], takes 3, and builds the
    colour attachment of the multisample branch around the view that is not
    there; [Prepare] hands the unresolved 3 to [Initialize]. *)
Theorem sample_count_resolved_in_getMsaa_only :
  let r := ready_renderer (Some (JS.ofZ 3)) in
  let w := ready_world (Some (JS.ofZ 3)) in
  let scene := Scene.AddRenderable (sample_renderable 7) Scene.new in
  Renderer.getMsaa r = JS.ofZ 1
  /\ Renderer.msaaTextureView r = None
  /\ (exists t d, Renderer.depthTexture r = Some t
        /\ textures w !! t = Some d /\ tex_sampleCount d = JS.ofZ 1)
  /\ Renderer.frame_msaa r = JS.ofZ 3
  /\ (exists r' f w' enc cv dv,
        Renderer.BeginFrame r w = (Ok (r', f), w')
        /\ last (trace w') =
             Some (BeginRenderPass enc
                     {| att_view := None;
                        att_resolveTarget := Some cv;
                        att_clearValue := Renderer.default_clear |}
                     dv (Renderer.pass f)))
  /\ initializations
       (trace (snd (@Scene.Prepare sample_gl sample_projection r sample_camera
                      scene w)))
     = [(7%nat, JS.ofZ 3)].
Proof.
  intros r w scene.
  split; [reflexivity|]. split; [reflexivity|].
  split; [exists 4%nat; eexists; repeat split; reflexivity|].
  split; [reflexivity|].
  split; [|vm_compute; reflexivity].
  do 6 eexists. split; vm_compute; reflexivity.
Qed.

(** * Further properties *)

(** ** Thread: start, stop and the loop *)

Section ThreadLifecycle.
Import Thread.

Lemma ticks_idle nows th w : isActive th = false -> ticks nows th w = (th, w).
Proof.
  intros Hi. induction nows as [|now nows IH] using rev_ind; [reflexivity|].
  rewrite ticks_snoc, IH. apply loop_idle. exact Hi.
Qed.

Lemma Stop_idles th w : isActive (fst (Stop th w)) = false.
Proof.
  unfold Stop. destruct (isActive th) eqn:Ha; simpl; [reflexivity|exact Ha].
Qed.

(** X1: once [Stop] has run, a [loop] callback that still fires does
    nothing, however often: the Thread and the platform stay as they are. *)
Theorem ticks_after_Stop_are_inert (th : Thread) (w w1 : World) (nows : list Z) :
  ticks nows (fst (Stop th w)) w1 = (fst (Stop th w), w1).
Proof. apply ticks_idle, Stop_idles. Qed.

(** The platform after an active tick. *)
Lemma loop_world now th w :
  isActive th = true ->
  trace (snd (loop now th w)) =
    trace w ++ RequestAnimationFrame (next_handle w)
      :: map (fun l =>
                Dispatch EvUpdate l
                  (Some {| ev_now := now;
                           ev_deltaTime := tick_delta th now;
                           ev_frameRate := length (evict now (times th) ++ [now]);
                           ev_lastRegisteredTimestamp := now;
                           ev_simulationUpdateRate := simulationUpdateRate th |}))
           (update (events th))
  /\ next_handle (snd (loop now th w)) = S (next_handle w).
Proof.
  intros Ha. unfold loop. rewrite Ha.
  unfold requestAnimationFrame, fresh. cbn [negb fst snd].
  rewrite dispatch_trace. simpl trace. rewrite <- app_assoc.
  split; [reflexivity|].
  destruct (dispatch_world EvUpdate
              (Some {| ev_now := now;
                       ev_deltaTime := tick_delta th now;
                       ev_frameRate := length (evict now (times th) ++ [now]);
                       ev_lastRegisteredTimestamp := now;
                       ev_simulationUpdateRate := simulationUpdateRate th |})
              (update (events th))
              (emit (RequestAnimationFrame (next_handle w))
                 {| next_handle := S (next_handle w); textures := textures w;
                    buffers := buffers w; trace := trace w |})) as (Hn & _).
  exact Hn.
Qed.

Lemma requests_app l1 l2 : requests (l1 ++ l2) = requests l1 ++ requests l2.
Proof. apply omap_app. Qed.

Lemma requests_dispatches name payload ls :
  requests (map (fun l => Dispatch name l payload) ls) = [].
Proof. induction ls as [|l ls IH]; [reflexivity|exact IH]. Qed.

Lemma dispatched_app l1 l2 : dispatched (l1 ++ l2) = dispatched l1 ++ dispatched l2.
Proof. apply omap_app. Qed.

Lemma dispatched_dispatches name payload ls :
  dispatched (map (fun l => Dispatch name l payload) ls)
  = map (fun l => (name, l)) ls.
Proof.
  induction ls as [|l ls IH]; [reflexivity|]. simpl. f_equal. exact IH.
Qed.

(** After [Start] and any ticks, the frame the Thread holds is the one
    requested last. *)
Lemma pending_frame_is_last_request th t0 w nows :
  isActive th = false ->
  let s := ticks nows (fst (Start t0 th w)) (snd (Start t0 th w)) in
  isActive (fst s) = true
  /\ exists i, animationFrame (fst s) = Some i
       /\ last (requests (trace (snd s))) = Some i
       /\ events (fst s) = events th.
Proof.
  intros Hi. induction nows as [|now nows IH] using rev_ind.
  - simpl. unfold Start. rewrite Hi.
    unfold requestAnimationFrame, fresh. cbn [fst snd].
    split; [reflexivity|]. eexists. split; [reflexivity|].
    split; [|reflexivity]. simpl trace.
    rewrite requests_app, dispatch_trace, requests_app, requests_dispatches.
    simpl. rewrite app_nil_r. apply last_snoc.
  - cbn zeta in *. destruct IH as (Ha & i & _ & _ & Hev).
    rewrite ticks_snoc.
    destruct (loop_world now _ (snd (ticks nows (fst (Start t0 th w))
                                        (snd (Start t0 th w)))) Ha) as [Ht _].
    rewrite loop_active by exact Ha. cbn [fst isActive animationFrame events].
    split; [reflexivity|]. eexists. split; [reflexivity|]. split; [|exact Hev].
    rewrite Ht, requests_app. simpl. rewrite requests_dispatches.
    apply last_snoc.
Qed.

(** X2: [Stop] on a Thread that was started and has ticked cancels the
    animation frame requested last, then calls the stop listeners and after
    them the idle listeners, each list in registration order; the Thread is
    idle afterwards and holds no frame. *)
Theorem Stop_cancels_the_pending_frame (th : Thread) (t0 : Z) (w : World)
    (nows : list Z) :
  isActive th = false ->
  let s := ticks nows (fst (Start t0 th w)) (snd (Start t0 th w)) in
  exists i,
    last (requests (trace (snd s))) = Some i
    /\ trace (snd (Stop (fst s) (snd s))) =
         trace (snd s) ++ CancelAnimationFrame i
           :: map (fun l => Dispatch EvStop l None) (stop (events th))
           ++ map (fun l => Dispatch EvIdle l None) (idle (events th))
    /\ isActive (fst (Stop (fst s) (snd s))) = false
    /\ animationFrame (fst (Stop (fst s) (snd s))) = None.
Proof.
  intros Hi s.
  destruct (pending_frame_is_last_request th t0 w nows Hi)
    as (Ha & i & Hf & Hl & Hev).
  fold s in Ha, Hf, Hl, Hev.
  exists i. split; [exact Hl|].
  unfold Stop. rewrite Ha, Hf, Hev. cbn [negb fst snd isActive animationFrame].
  split; [|split; reflexivity].
  rewrite !dispatch_trace. simpl trace. rewrite <- !app_assoc. reflexivity.
Qed.

Lemma Stop_cancels_the_pending_frame_witness :
  let s := ticks [16; 33] (fst (Start 0 (new 0 0 0) empty_world))
             (snd (Start 0 (new 0 0 0) empty_world)) in
  exists i,
    last (requests (trace (snd s))) = Some i
    /\ isActive (fst (Stop (fst s) (snd s))) = false.
Proof.
  intros s.
  destruct (Stop_cancels_the_pending_frame (new 0 0 0) 0 empty_world [16; 33])
    as (i & Hl & _ & Ha & _); [reflexivity|].
  exists i. split; [exact Hl | exact Ha].
Defined.

(** X3: a second [Start] on a started Thread changes nothing and requests
    no second frame: the state is that of the first [Start], the trace has
    gained one warning, and the two calls together made a single request. *)
Theorem Start_twice_requests_one_frame (th : Thread) (t0 t1 : Z) (w : World) :
  isActive th = false ->
  let s1 := Start t0 th w in
  let s2 := Start t1 (fst s1) (snd s1) in
  fst s2 = fst s1
  /\ trace (snd s2) = trace (snd s1) ++ [DebugWarn THREAD_ALREADY_ACTIVE]
  /\ requests (trace (snd s2)) = requests (trace w) ++ [next_handle w]
  /\ lastRegisteredTimestamp (fst s2) = t0.
Proof.
  intros Hi s1 s2.
  assert (Ha : isActive (fst s1) = true)
    by (unfold s1; rewrite Start_idle by exact Hi; reflexivity).
  assert (E2 : s2 = (fst s1, emit (DebugWarn THREAD_ALREADY_ACTIVE) (snd s1)))
    by (unfold s2, Start at 1; rewrite Ha; reflexivity).
  rewrite E2. cbn [fst snd]. split; [reflexivity|]. split; [reflexivity|].
  split.
  - simpl trace. rewrite requests_app. simpl. rewrite app_nil_r.
    unfold s1, Start. rewrite Hi. unfold requestAnimationFrame, fresh.
    cbn [fst snd]. simpl trace.
    rewrite requests_app, dispatch_trace, requests_app, requests_dispatches.
    rewrite app_nil_r.
    destruct (dispatch_world EvStart None (start (events th)) w) as (-> & _).
    reflexivity.
  - unfold s1. rewrite Start_idle by exact Hi. reflexivity.
Qed.

Lemma Start_twice_requests_one_frame_witness :
  fst (Start 9 (fst (Start 0 (new 0 0 0) empty_world))
         (snd (Start 0 (new 0 0 0) empty_world)))
  = fst (Start 0 (new 0 0 0) empty_world).
Proof.
  apply (Start_twice_requests_one_frame (new 0 0 0) 0 9 empty_world).
  reflexivity.
Defined.

Lemma evict_suffix now ts :
  exists k, evict now ts = drop k ts
    /\ forall t, head (evict now ts) = Some t -> now - 1000 < t.
Proof.
  induction ts as [|t ts IH].
  - exists 0%nat. split; [reflexivity|discriminate].
  - simpl. destruct (Z.leb_spec t (now - 1000)) as [Hold|Hnew].
    + destruct IH as (k & Hk & Hh). exists (S k). split; assumption.
    + exists 0%nat. split; [reflexivity|].
      intros t' [= <-]. exact Hnew.
Qed.

(** X4: whatever the clock does, an active tick drops entries only from the
    front of the window and appends the reading: the window ends with [now],
    its first entry is newer than [now - 1000], and [frameRate] is its
    length, at least 1 and at most one more than before. *)
Theorem tick_window_shape (th : Thread) (now : Z) (w : World) :
  isActive th = true ->
  let th' := fst (loop now th w) in
  (exists k, times th' = drop k (times th) ++ [now])
  /\ last (times th') = Some now
  /\ (forall t, head (times th') = Some t -> now - 1000 < t)
  /\ frameRate th' = length (times th')
  /\ (1 <= frameRate th' <= S (length (times th)))%nat.
Proof.
  intros Ha th'. unfold th'. rewrite loop_active by exact Ha.
  cbn [times frameRate].
  destruct (evict_suffix now (times th)) as (k & Hk & Hh).
  split; [exists k; rewrite Hk; reflexivity|].
  split; [apply last_snoc|].
  split.
  - intros t. destruct (evict now (times th)) as [|t0 rest] eqn:E.
    + intros [= <-]. lia.
    + intros [= <-]. apply Hh. reflexivity.
  - split; [reflexivity|]. rewrite length_app, Hk, length_drop. simpl. lia.
Qed.

Lemma tick_window_shape_witness :
  let th := fst (ticks [5000; 100] (fst (Start 0 (new 0 0 0) empty_world))
                   empty_world) in
  last (times (fst (loop 5500 th empty_world))) = Some 5500
  /\ frameRate (fst (loop 5500 th empty_world))
     = length (times (fst (loop 5500 th empty_world))).
Proof.
  intros th.
  destruct (tick_window_shape th 5500 empty_world) as (_ & Hl & _ & Hf & _);
    [reflexivity|].
  split; [exact Hl | exact Hf].
Defined.

Lemma thread_calls_snoc cs c s :
  thread_calls (cs ++ [c]) s = thread_call c (thread_calls cs s).
Proof. unfold thread_calls. rewrite fold_left_app. reflexivity. Qed.

(** [Start], [Stop] and the loop leave the rate, the bound and the listeners
    alone. *)
Lemma thread_call_settings c s :
  simulationUpdateRate (fst (thread_call c s)) = simulationUpdateRate (fst s)
  /\ maxDeltaMs (fst (thread_call c s)) = maxDeltaMs (fst s)
  /\ events (fst (thread_call c s)) = events (fst s).
Proof.
  destruct s as [th w], c as [now| |now]; cbn [thread_call fst snd].
  - unfold Start. destruct (isActive th); [auto|].
    destruct (requestAnimationFrame _). auto.
  - unfold Stop. destruct (isActive th); simpl; auto.
  - unfold loop. destruct (isActive th); simpl; [|auto].
    destruct (requestAnimationFrame w). auto.
Qed.

Lemma tick_delta_bounded (m r : Q) th now :
  maxDeltaMs th = JS.Fin m -> simulationUpdateRate th = JS.Fin r ->
  (0 <= r)%Q ->
  exists d, tick_delta th now = JS.Fin d /\ (d <= m / 1000 * r)%Q.
Proof.
  intros Hm Hr Hpos. unfold tick_delta. rewrite Hm, Hr.
  unfold JS.ofZ. rewrite min_finite, div_finite by discriminate.
  eexists. split; [reflexivity|].
  apply Qmult_le_compat_r; [|exact Hpos].
  apply Qmult_le_compat_r; [apply Q.le_min_r|discriminate].
Qed.

(** X5: with a finite bound [m] and a finite rate [r >= 0], no sequence of
    [Start], [Stop] and loop calls, at whatever clock readings, makes
    [deltaTime] exceed [m / 1000 * r] once it is within that bound. *)
Theorem deltaTime_stays_within_bound (m r : Q) (th : Thread) (w : World)
    (cs : list ThreadCall) (d0 : Q) :
  maxDeltaMs th = JS.Fin m ->
  simulationUpdateRate th = JS.Fin r ->
  (0 <= r)%Q ->
  deltaTime th = JS.Fin d0 ->
  (d0 <= m / 1000 * r)%Q ->
  exists d, deltaTime (fst (thread_calls cs (th, w))) = JS.Fin d
            /\ (d <= m / 1000 * r)%Q.
Proof.
  intros Hm Hr Hpos Hd0 Hle.
  assert (Inv : maxDeltaMs (fst (thread_calls cs (th, w))) = JS.Fin m
           /\ simulationUpdateRate (fst (thread_calls cs (th, w))) = JS.Fin r
           /\ exists d, deltaTime (fst (thread_calls cs (th, w))) = JS.Fin d
                        /\ (d <= m / 1000 * r)%Q).
  { induction cs as [|c cs IH] using rev_ind; [simpl; eauto|].
    rewrite thread_calls_snoc.
    destruct IH as (IHm & IHr & d & IHd & IHle).
    destruct (thread_call_settings c (thread_calls cs (th, w))) as (Er & Em & _).
    split; [congruence|]. split; [congruence|].
    destruct (thread_calls cs (th, w)) as [th1 w1]. cbn [fst] in *.
    destruct c as [now| |now]; cbn [thread_call fst snd].
    - unfold Start. destruct (isActive th1); [eauto|].
      destruct (requestAnimationFrame _). eauto.
    - unfold Stop. destruct (isActive th1); simpl; eauto.
    - destruct (isActive th1) eqn:Ha.
      + rewrite loop_active by exact Ha. cbn [deltaTime].
        apply tick_delta_bounded; assumption.
      + rewrite loop_idle by exact Ha. eauto. }
  apply Inv.
Qed.

Lemma deltaTime_stays_within_bound_witness :
  exists d,
    deltaTime (fst (thread_calls [CallStart 0; CallLoop 16; CallLoop 9000;
                                  CallStop; CallStart 9500; CallLoop 9400]
                      (new 0 0 0, empty_world))) = JS.Fin d
    /\ (d <= inject_Z 250 / 1000 * inject_Z 60)%Q.
Proof.
  apply (deltaTime_stays_within_bound (inject_Z 250) (inject_Z 60) (new 0 0 0)
           empty_world _ (inject_Z 0)); try reflexivity; discriminate.
Defined.

End ThreadLifecycle.

(** ** Thread: the listener registry *)

Section ListenerFacts.
Import Thread ThreadListeners.

Lemma listeners_set name l ev : listeners name (set_listeners name l ev) = l.
Proof. destruct name; reflexivity. Qed.

Lemma listeners_set_other name name' l ev :
  event_eqb name name' = false ->
  listeners name' (set_listeners name l ev) = listeners name' ev.
Proof. destruct name, name'; simpl; intros E; try discriminate E; reflexivity. Qed.

Lemma set_listeners_same name ev : set_listeners name (listeners name ev) ev = ev.
Proof. destruct ev, name; reflexivity. Qed.

Lemma set_listeners_twice name l1 l2 ev :
  set_listeners name l2 (set_listeners name l1 ev) = set_listeners name l2 ev.
Proof. destruct name; reflexivity. Qed.

Lemma set_events_same th : set_events (events th) th = th.
Proof. destruct th; reflexivity. Qed.

Lemma remove_first_absent cb l : cb ∉ l -> remove_first cb l = l.
Proof.
  induction l as [|f l IH]; [reflexivity|]. intros Hn. simpl.
  destruct (Nat.eqb_spec f cb) as [->|Hne].
  - exfalso. apply Hn. left.
  - f_equal. apply IH. intros Hin. apply Hn. right. exact Hin.
Qed.

Lemma remove_first_split cb l :
  cb ∈ l ->
  exists l1 l2, l = l1 ++ cb :: l2 /\ (cb ∉ l1) /\ remove_first cb l = l1 ++ l2.
Proof.
  induction l as [|f l IH]; [intros Hin; inversion Hin|].
  intros Hin. simpl. destruct (Nat.eqb_spec f cb) as [->|Hne].
  - exists [], l. split; [reflexivity|]. split; [|reflexivity].
    intros Hx. inversion Hx.
  - destruct IH as (l1 & l2 & -> & Hn1 & Hr).
    { inversion Hin; subst; [congruence|assumption]. }
    exists (f :: l1), l2. split; [reflexivity|]. split.
    + intros Hx. inversion Hx; subst; [congruence|contradiction].
    + rewrite Hr. reflexivity.
Qed.

Lemma remove_first_snoc_fresh cb l : cb ∉ l -> remove_first cb (l ++ [cb]) = l.
Proof.
  induction l as [|f l IH]; intros Hn; simpl.
  - rewrite Nat.eqb_refl. reflexivity.
  - destruct (Nat.eqb_spec f cb) as [->|Hne].
    + exfalso. apply Hn. left.
    + f_equal. apply IH. intros Hin. apply Hn. right. exact Hin.
Qed.

(** X6: the function [AddEventListener] returns undoes the registration
    when the callback was not registered for that event before: the Thread
    is as it was. *)
Theorem unsubscribe_restores_registry (event : ThreadEventName) (cb : nat)
    (th : Thread) :
  cb ∉ listeners event (events th) ->
  snd (AddEventListener event cb th) (fst (AddEventListener event cb th)) = th.
Proof.
  intros Hn. unfold AddEventListener, RemoveEventListener. cbn [fst snd].
  destruct th as [r f d c l st ev a af ts m]. unfold set_events. cbn.
  rewrite listeners_set, remove_first_snoc_fresh by exact Hn.
  rewrite set_listeners_twice, set_listeners_same. reflexivity.
Qed.

Lemma unsubscribe_restores_registry_witness :
  let th := fst (AddEventListener EvUpdate 1 (new 0 0 0)) in
  snd (AddEventListener EvUpdate 2 th) (fst (AddEventListener EvUpdate 2 th)) = th.
Proof.
  intros th. apply unsubscribe_restores_registry.
  intros Hin. apply list_elem_of_singleton in Hin. discriminate Hin.
Defined.

(** X7: [RemoveEventListener] takes out the first registration of the
    callback for that event and nothing else: the callbacks before and
    after it keep their order, a later registration of the same callback
    stays, the other events are untouched, and a callback that is not
    registered leaves the Thread as it is. *)
Theorem RemoveEventListener_first_registration (event : ThreadEventName)
    (cb : nat) (th : Thread) :
  (cb ∉ listeners event (events th) -> RemoveEventListener event cb th = th)
  /\ (cb ∈ listeners event (events th) ->
      exists l1 l2,
        listeners event (events th) = l1 ++ cb :: l2
        /\ (cb ∉ l1)
        /\ listeners event (events (RemoveEventListener event cb th)) = l1 ++ l2)
  /\ (forall other, event_eqb event other = false ->
      listeners other (events (RemoveEventListener event cb th))
      = listeners other (events th)).
Proof.
  unfold RemoveEventListener. split; [|split].
  - intros Hn. rewrite remove_first_absent by exact Hn.
    rewrite set_listeners_same. apply set_events_same.
  - intros Hin. destruct (remove_first_split cb _ Hin) as (l1 & l2 & E & Hn & Hr).
    exists l1, l2. split; [exact E|]. split; [exact Hn|].
    cbn [events set_events]. rewrite listeners_set. exact Hr.
  - intros other Hne. cbn [events set_events].
    apply listeners_set_other. exact Hne.
Qed.

Lemma RemoveEventListener_first_registration_witness :
  let th := register_all [(EvUpdate, 1); (EvUpdate, 2); (EvUpdate, 1)]%nat
              (new 0 0 0) in
  exists l1 l2,
    listeners EvUpdate (events th) = l1 ++ 1%nat :: l2
    /\ (1%nat ∉ l1)
    /\ listeners EvUpdate (events (RemoveEventListener EvUpdate 1 th)) = l1 ++ l2.
Proof.
  intros th.
  apply (proj1 (proj2 (RemoveEventListener_first_registration EvUpdate 1 th))).
  left.
Defined.

Lemma register_all_snoc regs p th :
  register_all (regs ++ [p]) th
  = fst (AddEventListener (fst p) (snd p) (register_all regs th)).
Proof. unfold register_all. rewrite fold_left_app. reflexivity. Qed.

Lemma register_all_listeners regs th name :
  listeners name (events (register_all regs th))
  = listeners name (events th) ++ registered name regs.
Proof.
  induction regs as [|[n cb] regs IH] using rev_ind.
  - simpl. rewrite app_nil_r. reflexivity.
  - rewrite register_all_snoc. unfold AddEventListener. cbn [fst snd events set_events].
    unfold registered. rewrite omap_app. fold (registered name regs). simpl.
    destruct (event_eqb n name) eqn:E.
    + assert (n = name) as -> by (destruct n, name; try discriminate E; reflexivity).
      rewrite listeners_set, IH, app_assoc. reflexivity.
    + rewrite listeners_set_other by exact E. rewrite IH, app_nil_r. reflexivity.
Qed.

Lemma register_all_state regs th :
  isActive (register_all regs th) = isActive th.
Proof.
  induction regs as [|p regs IH] using rev_ind; [reflexivity|].
  rewrite register_all_snoc. exact IH.
Qed.

(** X8: listeners are called in the order they were registered.  On a new
    Thread with any registrations, [Start] calls the start listeners, a tick
    the update listeners and [Stop] the stop listeners and then the idle
    listeners, each callback once per registration and in registration
    order. *)
Theorem listeners_run_in_registration_order
    (regs : list (ThreadEventName * nat)) (t1 t2 t3 t0 now : Z) (w : World) :
  let th := register_all regs (new t1 t2 t3) in
  let s1 := Start t0 th w in
  let s2 := loop now (fst s1) (snd s1) in
  let s3 := Stop (fst s2) (snd s2) in
  dispatched (trace (snd s1)) =
    dispatched (trace w) ++ map (fun l => (EvStart, l)) (registered EvStart regs)
  /\ dispatched (trace (snd s2)) =
       dispatched (trace (snd s1))
       ++ map (fun l => (EvUpdate, l)) (registered EvUpdate regs)
  /\ dispatched (trace (snd s3)) =
       dispatched (trace (snd s2))
       ++ map (fun l => (EvStop, l)) (registered EvStop regs)
       ++ map (fun l => (EvIdle, l)) (registered EvIdle regs).
Proof.
  intros th s1 s2 s3.
  assert (Hi : isActive th = false) by (unfold th; apply register_all_state).
  assert (Hev : forall name, listeners name (events th) = registered name regs)
    by (intros name; unfold th; rewrite register_all_listeners;
        destruct name; reflexivity).
  assert (E1 : fst s1 = _) by (unfold s1; apply (Start_idle t0 th w Hi)).
  assert (Ha1 : isActive (fst s1) = true) by (rewrite E1; reflexivity).
  assert (Hev1 : events (fst s1) = events th) by (rewrite E1; reflexivity).
  split; [|split].
  - unfold s1, Start. rewrite Hi. unfold requestAnimationFrame, fresh.
    cbn [fst snd]. simpl trace.
    rewrite dispatched_app, dispatch_trace, dispatched_app,
      dispatched_dispatches. simpl. rewrite app_nil_r.
    rewrite <- (Hev EvStart). reflexivity.
  - unfold s2. destruct (loop_world now (fst s1) (snd s1) Ha1) as [-> _].
    rewrite dispatched_app. simpl. rewrite dispatched_dispatches, Hev1.
    rewrite <- (Hev EvUpdate). reflexivity.
  - assert (Ha2 : isActive (fst s2) = true)
      by (unfold s2; rewrite loop_active by exact Ha1; reflexivity).
    assert (Hev2 : events (fst s2) = events th)
      by (unfold s2; rewrite loop_active by exact Ha1; exact Hev1).
    unfold s3, Stop. rewrite Ha2, Hev2. cbn [negb fst snd].
    rewrite !dispatch_trace, !dispatched_app, !dispatched_dispatches.
    rewrite <- (Hev EvStop), <- (Hev EvIdle), <- app_assoc. f_equal.
    destruct (animationFrame (fst s2)); simpl trace;
      rewrite ?dispatched_app; simpl; rewrite ?app_nil_r; reflexivity.
Qed.

Lemma thread_calls_events cs s :
  events (fst (thread_calls cs s)) = events (fst s).
Proof.
  induction cs as [|c cs IH] using rev_ind; [reflexivity|].
  rewrite thread_calls_snoc.
  destruct (thread_call_settings c (thread_calls cs s)) as (_ & _ & ->).
  exact IH.
Qed.

Lemma thread_call_dispatched c th w :
  events th = {| idle := []; start := []; stop := []; update := [] |} ->
  dispatched (trace (snd (thread_call c (th, w)))) = dispatched (trace w).
Proof.
  intros Hev. destruct c as [now| |now]; cbn [thread_call fst snd].
  - unfold Start. rewrite Hev. destruct (isActive th); simpl.
    + rewrite dispatched_app. simpl. apply app_nil_r.
    + rewrite dispatched_app. simpl. apply app_nil_r.
  - unfold Stop. rewrite Hev. destruct (isActive th); simpl.
    + destruct (animationFrame th); simpl; [|reflexivity].
      rewrite dispatched_app. simpl. apply app_nil_r.
    + rewrite dispatched_app. simpl. apply app_nil_r.
  - unfold loop. rewrite Hev. destruct (isActive th); simpl; [|reflexivity].
    rewrite dispatched_app. simpl. apply app_nil_r.
Qed.

(** X9: [ClearEventListeners] with an event empties the list of that event
    and leaves the others; without an argument it empties all four, and
    from then on no sequence of [Start], [Stop] and loop calls reaches any
    listener. *)
Theorem ClearEventListeners_silences (th : Thread) (w : World)
    (cs : list ThreadCall) :
  (forall name,
      listeners name (events (ClearEventListeners (Some name) th)) = []
      /\ forall other, event_eqb name other = false ->
           listeners other (events (ClearEventListeners (Some name) th))
           = listeners other (events th))
  /\ (forall name, listeners name (events (ClearEventListeners None th)) = [])
  /\ dispatched (trace (snd (thread_calls cs (ClearEventListeners None th, w))))
     = dispatched (trace w).
Proof.
  split; [|split].
  - intros name. cbn [ClearEventListeners events set_events].
    split; [apply listeners_set|]. intros other Hne.
    apply listeners_set_other. exact Hne.
  - intros name. destruct name; reflexivity.
  - induction cs as [|c cs IH] using rev_ind; [reflexivity|].
    rewrite thread_calls_snoc.
    pose proof (thread_calls_events cs (ClearEventListeners None th, w)) as Hev.
    destruct (thread_calls cs (ClearEventListeners None th, w)) as [th1 w1].
    cbn [fst snd] in *.
    rewrite thread_call_dispatched by exact Hev. exact IH.
Qed.

End ListenerFacts.

(** ** WebGPURenderer: the frame *)

Section FrameFacts.
Import Renderer.

(** The world once [BeginFrame] has taken the canvas view and an encoder. *)
Lemma BeginFrame_unfold r w ctx dev :
  context r = Some ctx -> gpuDevice r = Some dev ->
  let t := next_handle w in
  let w3 :=
    {| next_handle := S (S (S t)); textures := textures w; buffers := buffers w;
       trace := trace w ++ [GetCurrentTexture ctx t; CreateView t (S t);
                            CreateCommandEncoder (dev_id dev) (S (S t))] |} in
  let s1 := match depthTextureView r with
            | None => createOrResizeTargets r w3
            | Some _ => (r, w3)
            end in
  let s2 := if JS.gt (frame_msaa r) (JS.ofZ 1) then
              match msaaTextureView (fst s1) with
              | None => createOrResizeTargets (fst s1) (snd s1)
              | Some _ => s1
              end
            else s1 in
  let p := next_handle (snd s2) in
  BeginFrame r w =
    (Ok (fst s2, {| encoder := S (S t); pass := p; colorView := S t |}),
     {| next_handle := S p; textures := textures (snd s2);
        buffers := buffers (snd s2);
        trace := trace (snd s2)
                 ++ [BeginRenderPass (S (S t))
                       (if JS.gt (frame_msaa r) (JS.ofZ 1)
                        then {| att_view := msaaTextureView (fst s2);
                                att_resolveTarget := Some (S t);
                                att_clearValue :=
                                  default default_clear (clearColor (options r)) |}
                        else {| att_view := Some (S t);
                                att_resolveTarget := None;
                                att_clearValue :=
                                  default default_clear (clearColor (options r)) |})
                       (depthTextureView (fst s2)) p] |}).
Proof.
  intros Hctx Hdev t w3 s1 s2 p.
  unfold BeginFrame. rewrite Hctx, Hdev.
  unfold bind at 1. cbn [deref ret].
  unfold bind at 1. unfold call at 1.
  unfold currentTextureView, createView, fresh, emit.
  cbn [fst snd next_handle trace textures buffers].
  unfold bind at 1. cbn [deref ret].
  unfold bind at 1. unfold call at 1, createCommandEncoder, fresh, emit.
  cbn [fst snd next_handle trace textures buffers].
  rewrite <- !app_assoc. cbn [app]. fold t. fold w3.
  unfold bind at 1.
  assert (E1 : match depthTextureView r with
               | None => call (createOrResizeTargets r)
               | Some _ => ret r
               end w3 = (Ok (fst s1), snd s1)).
  { unfold s1. destruct (depthTextureView r); [reflexivity|].
    unfold call. destruct (createOrResizeTargets r w3). reflexivity. }
  rewrite E1. unfold bind at 1.
  unfold s2 in *. clear s2.
  destruct (JS.gt (frame_msaa r) (JS.ofZ 1)).
  - unfold bind at 1.
    assert (E2 : match msaaTextureView (fst s1) with
                 | None => call (createOrResizeTargets (fst s1))
                 | Some _ => ret (fst s1)
                 end (snd s1)
                 = (Ok (fst (match msaaTextureView (fst s1) with
                             | None => createOrResizeTargets (fst s1) (snd s1)
                             | Some _ => s1
                             end)),
                    snd (match msaaTextureView (fst s1) with
                         | None => createOrResizeTargets (fst s1) (snd s1)
                         | Some _ => s1
                         end))).
    { destruct (msaaTextureView (fst s1)); [reflexivity|].
      unfold call. destruct (createOrResizeTargets (fst s1) (snd s1)).
      reflexivity. }
    rewrite E2. cbn [ret]. unfold bind at 1, call at 1, beginRenderPass, fresh.
    reflexivity.
  - cbn [ret]. unfold bind at 1, call at 1, beginRenderPass, fresh.
    reflexivity.
Qed.

Lemma pass_events_app l1 l2 :
  pass_events (l1 ++ l2) = pass_events l1 ++ pass_events l2.
Proof. apply List.filter_app. Qed.

Lemma gpu_only_initializations w w' :
  gpu_only w w' -> initializations (trace w') = initializations (trace w).
Proof.
  intros (_ & l & -> & Hl). unfold initializations. rewrite omap_app.
  match goal with |- _ ++ ?x = _ => assert (E : x = []) end.
  { induction Hl as [|e l He _ IH]; [reflexivity|].
    simpl. destruct e; try discriminate He; exact IH. }
  rewrite E, app_nil_r. reflexivity.
Qed.

(** [createOrResizeTargets] makes no call of the frame protocol. *)
Lemma createOrResizeTargets_pass_events r w :
  pass_events (trace (snd (createOrResizeTargets r w))) = pass_events (trace w).
Proof.
  unfold createOrResizeTargets, destroy_if_present, destroyTexture,
    createTexture, createView, fresh.
  destruct (depthTexture r), (msaaTexture r), (gpuDevice r);
    try destruct (JS.gt (getMsaa r) (JS.ofZ 1));
    simpl; rewrite ?pass_events_app; simpl; rewrite ?app_nil_r; reflexivity.
Qed.

(** What a frame adds to the frame protocol: the pass it begins, on its own
    encoder, with the attachment of [frame_attachment]. *)
Lemma BeginFrame_pass_events r w ctx dev :
  context r = Some ctx -> gpuDevice r = Some dev ->
  exists r' f w',
    BeginFrame r w = (Ok (r', f), w')
    /\ pass_events (trace w') =
         pass_events (trace w)
         ++ [BeginRenderPass (encoder f) (frame_attachment r' (colorView f))
               (depthTextureView r') (pass f)]
    /\ next_handle w' = S (pass f)
    /\ gpuDevice r' = Some dev.
Proof.
  intros Hctx Hdev.
  pose proof (BeginFrame_unfold r w ctx dev Hctx Hdev) as E. cbn zeta in E.
  match type of E with
  | BeginFrame r w = (Ok (fst ?s2, _), _) => set (s := s2) in *
  end.
  exists (fst s). do 2 eexists. split; [exact E|].
  cbn [encoder pass colorView next_handle trace].
  assert (Hs : pass_events (trace (snd s))
               = pass_events (trace w)
               /\ gpuDevice (fst s) = Some dev
               /\ options (fst s) = options r).
  { unfold s.
    set (w3 := {| next_handle := S (S (S (next_handle w))) |}).
    assert (H3 : pass_events (trace w3) = pass_events (trace w)).
    { unfold w3. cbn [trace]. rewrite pass_events_app. simpl. apply app_nil_r. }
    set (s1 := match depthTextureView r with
               | None => createOrResizeTargets r w3
               | Some _ => (r, w3)
               end).
    assert (H1 : pass_events (trace (snd s1)) = pass_events (trace w)
                 /\ gpuDevice (fst s1) = Some dev /\ options (fst s1) = options r).
    { unfold s1. destruct (depthTextureView r); [auto|].
      rewrite createOrResizeTargets_pass_events.
      destruct (createOrResizeTargets_frame r w3) as (_ & _ & Hd & Ho & _).
      split; [exact H3|]. split; congruence. }
    destruct (JS.gt (frame_msaa r) (JS.ofZ 1)); [|exact H1].
    destruct (msaaTextureView (fst s1)); [exact H1|].
    rewrite createOrResizeTargets_pass_events.
    destruct (createOrResizeTargets_frame (fst s1) (snd s1))
      as (_ & _ & Hd & Ho & _).
    destruct H1 as (H1a & H1b & H1c).
    split; [exact H1a|]. split; congruence. }
  destruct Hs as (Hp & Hd & Ho).
  split; [|split; [reflexivity|exact Hd]].
  rewrite pass_events_app, Hp. cbn [pass_events List.filter is_pass_event].
  do 2 f_equal. unfold frame_attachment, frame_msaa. rewrite Ho.
  destruct (JS.gt _ _); reflexivity.
Qed.

End FrameFacts.

(** ** Render: the frame it records *)

Section RenderProtocol.
Context `{GlMatrix}.
Import Renderer.

Lemma render_all_trace p l w :
  trace (render_all p l w) =
    trace w ++ map (fun x => RenderableRender (Scene.id x) p) l
  /\ next_handle (render_all p l w) = next_handle w
  /\ buffers (render_all p l w) = buffers w
  /\ textures (render_all p l w) = textures w.
Proof.
  unfold render_all. revert w; induction l as [|x l IH]; intros w; simpl.
  - rewrite app_nil_r. auto.
  - destruct (IH (emit (RenderableRender (Scene.id x) p) w)) as (-> & -> & -> & ->).
    simpl. rewrite <- app_assoc. auto.
Qed.

(** [Render] on a prepared scene, once its [BeginFrame] is known. *)
Lemma Render_unfold r scene camera w dev q r' f w2 :
  Scene.hasPrepared scene = true ->
  gpuDevice r = Some dev -> dev_queue dev = Some q ->
  BeginFrame r (Camera.WriteUniformsToQueue q camera w) = (Ok (r', f), w2) ->
  gpuDevice r' = Some dev ->
  exists w',
    Render r scene camera w = (Ok r', w')
    /\ trace w' =
         trace w2
         ++ SetBindGroup (pass f) 0 (Camera.bindGroup camera)
            :: map (fun x => RenderableRender (Scene.id x) (pass f))
                 (Scene.rendererables scene)
         ++ [PassEnd (pass f); EncoderFinish (encoder f) (next_handle w2);
             QueueSubmit q (next_handle w2)]
    /\ buffers w' = buffers w2 /\ textures w' = textures w2.
Proof.
  intros Hp Hdev Hq E Hdev'. unfold Render. rewrite Hp, Hdev.
  cbn [negb deref]. unfold bind at 1. cbn [ret]. rewrite Hq.
  unfold bind at 1, call at 1. unfold bind at 1. rewrite E.
  unfold bind at 1, tell at 1. unfold bind at 1, call at 1.
  set (w3 := emit (SetBindGroup _ _ _) w2).
  destruct (render_all_trace (pass f) (Scene.rendererables scene) w3)
    as (Ht & Hn & Hb & Hx).
  unfold bind at 1. rewrite (EndFrame_ok r' f _ dev q Hdev' Hq). cbn [ret].
  eexists. split; [reflexivity|].
  cbn [trace emit fresh snd buffers textures next_handle].
  rewrite Ht, Hn, Hb, Hx. unfold w3. cbn [trace emit buffers textures next_handle].
  rewrite <- !app_assoc. cbn [app]. auto.
Qed.

Lemma WriteUniformsToQueue_pass_events q c w :
  pass_events (trace (Camera.WriteUniformsToQueue q c w)) = pass_events (trace w).
Proof.
  unfold Camera.WriteUniformsToQueue, writeBuffer.
  destruct (Camera.uniformBuffer c) as [b|]; simpl.
  - repeat match goal with
           | |- context [match ?x with _ => _ end] => destruct x; simpl
           end;
      rewrite ?pass_events_app; simpl; rewrite ?app_nil_r; reflexivity.
  - rewrite pass_events_app. simpl. apply app_nil_r.
Qed.

Lemma pass_events_draws p (l : list Scene.Renderable) :
  pass_events (map (fun x => RenderableRender (Scene.id x) p) l)
  = map (fun x => RenderableRender (Scene.id x) p) l.
Proof. induction l as [|x l IH]; [reflexivity|]. simpl. f_equal. exact IH. Qed.

(** X10: a [Render] of a prepared scene is one pass from begin to submit.
    Of the calls of the frame protocol it makes exactly these, in this
    order: it begins one pass on a new encoder, sets the camera's bind group
    at index 0, lets every Renderable record into that pass, ends the pass,
    finishes the encoder and submits that one command buffer to the queue. *)
Theorem Render_is_one_pass (r : WebGPURenderer)
    (scene : Scene.WebGPURendererScene) (camera : Camera.Camera) (w : World)
    (ctx : handle) (dev : GPUDevice) (q : handle) :
  Scene.hasPrepared scene = true ->
  context r = Some ctx -> gpuDevice r = Some dev -> dev_queue dev = Some q ->
  exists r' w' enc p cv cb,
    Render r scene camera w = (Ok r', w')
    /\ pass_events (trace w') =
         pass_events (trace w)
         ++ [BeginRenderPass enc (frame_attachment r' cv) (depthTextureView r') p;
             SetBindGroup p 0 (Camera.bindGroup camera)]
         ++ map (fun x => RenderableRender (Scene.id x) p)
              (Scene.rendererables scene)
         ++ [PassEnd p; EncoderFinish enc cb; QueueSubmit q cb].
Proof.
  intros Hp Hctx Hdev Hq.
  destruct (BeginFrame_pass_events r (Camera.WriteUniformsToQueue q camera w)
              ctx dev Hctx Hdev) as (r' & f & w2 & E & Hpe & _ & Hdev').
  destruct (Render_unfold r scene camera w dev q r' f w2 Hp Hdev Hq E Hdev')
    as (w' & ER & Ht & _).
  exists r', w', (encoder f), (pass f), (colorView f), (next_handle w2).
  split; [exact ER|].
  rewrite Ht, pass_events_app, Hpe, WriteUniformsToQueue_pass_events.
  rewrite <- !app_assoc. f_equal. cbn [app]. f_equal.
  cbn [pass_events List.filter is_pass_event]. f_equal.
  fold (pass_events
          (map (fun x => RenderableRender (Scene.id x) (pass f))
               (Scene.rendererables scene)
           ++ [PassEnd (pass f); EncoderFinish (encoder f) (next_handle w2);
               QueueSubmit q (next_handle w2)])).
  rewrite pass_events_app, pass_events_draws. reflexivity.
Qed.

End RenderProtocol.

Lemma Render_is_one_pass_witness :
  let scene :=
    {| Scene.rendererables := [sample_renderable 7; sample_renderable 8];
       Scene.hasPrepared := true |} in
  exists r' w' enc p cv cb,
    @Render sample_gl (ready_renderer None) scene sample_camera
      (ready_world None) = (Ok r', w')
    /\ pass_events (trace w') =
         pass_events (trace (ready_world None))
         ++ [BeginRenderPass enc (frame_attachment r' cv)
               (Renderer.depthTextureView r') p;
             SetBindGroup p 0 (Camera.bindGroup sample_camera)]
         ++ map (fun x => RenderableRender (Scene.id x) p)
              (Scene.rendererables scene)
         ++ [PassEnd p; EncoderFinish enc cb; QueueSubmit 2%nat cb].
Proof.
  intros scene.
  apply (@Render_is_one_pass sample_gl (ready_renderer None) scene
           sample_camera (ready_world None) 3%nat sample_device 2%nat);
    reflexivity.
Defined.

(** ** Scene: the list of Renderables and the prepared flag *)

Section SceneList.
Import Scene.

Lemma remove_first_absent_id i l :
  Forall (fun y => id y <> i) l -> remove_first i l = l.
Proof.
  induction 1 as [|y l Hy _ IH]; [reflexivity|]. simpl.
  destruct (Nat.eqb_spec (id y) i); [contradiction|]. f_equal. exact IH.
Qed.

Lemma remove_first_at i l1 y l2 :
  Forall (fun z => id z <> i) l1 -> id y = i ->
  remove_first i (l1 ++ y :: l2) = l1 ++ l2.
Proof.
  intros Hl1 Hy. induction Hl1 as [|z l1 Hz _ IH]; simpl.
  - rewrite Hy, Nat.eqb_refl. reflexivity.
  - destruct (Nat.eqb_spec (id z) i); [contradiction|]. f_equal. exact IH.
Qed.

(** X11: [RemoveRenderable] takes the first entry that is the given
    Renderable out of the list and keeps the others in order; when the
    Renderable is not in the list the scene is unchanged; the prepared flag
    is never touched; and removing a Renderable right after adding it gives
    back the scene, when it was not in the list before. *)
Theorem RemoveRenderable_first_entry (x : Renderable) (s : WebGPURendererScene) :
  (Forall (fun y => id y <> id x) (rendererables s) -> RemoveRenderable x s = s)
  /\ (forall l1 y l2,
        rendererables s = l1 ++ y :: l2 ->
        Forall (fun z => id z <> id x) l1 -> id y = id x ->
        rendererables (RemoveRenderable x s) = l1 ++ l2)
  /\ hasPrepared (RemoveRenderable x s) = hasPrepared s
  /\ (Forall (fun y => id y <> id x) (rendererables s) ->
      RemoveRenderable x (AddRenderable x s) = s).
Proof.
  split; [|split; [|split]].
  - intros Hn. unfold RemoveRenderable. rewrite remove_first_absent_id by exact Hn.
    destruct s; reflexivity.
  - intros l1 y l2 E Hl1 Hy. unfold RemoveRenderable. cbn [rendererables].
    rewrite E. apply remove_first_at; assumption.
  - reflexivity.
  - intros Hn. unfold AddRenderable, RemoveRenderable.
    destruct (isRenderable x); cbn [rendererables hasPrepared].
    + replace (rendererables s ++ [x]) with (rendererables s ++ x :: [])
        by reflexivity.
      rewrite remove_first_at by (exact Hn || reflexivity).
      rewrite app_nil_r. destruct s; reflexivity.
    + rewrite remove_first_absent_id by exact Hn. destruct s; reflexivity.
Qed.

Lemma RemoveRenderable_first_entry_witness :
  let s := AddRenderable (sample_renderable 8)
             (AddRenderable (sample_renderable 7) Scene.new) in
  RemoveRenderable (sample_renderable 9) (AddRenderable (sample_renderable 9) s)
  = s.
Proof.
  intros s.
  apply (proj2 (proj2 (proj2
           (RemoveRenderable_first_entry (sample_renderable 9) s)))).
  repeat constructor; discriminate.
Defined.

End SceneList.

Section ScenePrepared.
Context `{GlMatrix} `{Camera.Projection}.
Import Renderer.

Lemma draws_app l1 l2 : draws (l1 ++ l2) = draws l1 ++ draws l2.
Proof. apply omap_app. Qed.

Lemma draws_of_renders p (l : list Scene.Renderable) :
  draws (map (fun x => RenderableRender (Scene.id x) p) l)
  = map (fun x => (Scene.id x, p)) l.
Proof. induction l as [|x l IH]; [reflexivity|]. simpl. f_equal. exact IH. Qed.

Lemma initializations_app l1 l2 :
  initializations (l1 ++ l2) = initializations l1 ++ initializations l2.
Proof. apply omap_app. Qed.

Lemma initializations_of_renders p (l : list Scene.Renderable) :
  initializations (map (fun x => RenderableRender (Scene.id x) p) l) = [].
Proof. induction l as [|x l IH]; [reflexivity|exact IH]. Qed.

Lemma WriteUniformsToQueue_initializations q c w :
  initializations (trace (Camera.WriteUniformsToQueue q c w))
  = initializations (trace w).
Proof.
  unfold Camera.WriteUniformsToQueue.
  destruct (Camera.uniformBuffer c) as [b|].
  - apply gpu_only_initializations.
    eapply gpu_only_trans; apply gpu_only_writeBuffer.
  - simpl. rewrite initializations_app. simpl. apply app_nil_r.
Qed.

(** What a [Render] of a prepared scene draws and initializes. *)
Lemma Render_prepared_effects r scene camera w ctx dev q :
  Scene.hasPrepared scene = true ->
  context r = Some ctx -> gpuDevice r = Some dev -> dev_queue dev = Some q ->
  exists r' w' p,
    Render r scene camera w = (Ok r', w')
    /\ draws (trace w') =
         draws (trace w)
         ++ map (fun x => (Scene.id x, p)) (Scene.rendererables scene)
    /\ initializations (trace w') = initializations (trace w).
Proof.
  intros Hp Hctx Hdev Hq.
  destruct (BeginFrame_ok r (Camera.WriteUniformsToQueue q camera w) ctx dev
              Hctx Hdev) as (r' & f & w2 & E & G & _ & Hdev' & _).
  destruct (Render_unfold r scene camera w dev q r' f w2 Hp Hdev Hq E Hdev')
    as (w' & ER & Ht & _).
  exists r', w', (pass f). split; [exact ER|]. rewrite Ht. split.
  - rewrite draws_app. simpl. rewrite draws_app, draws_of_renders. simpl.
    rewrite app_nil_r, (gpu_only_draws _ _ G), WriteUniformsToQueue_draws.
    reflexivity.
  - rewrite initializations_app. simpl.
    rewrite initializations_app, initializations_of_renders. simpl.
    rewrite app_nil_r, (gpu_only_initializations _ _ G).
    apply WriteUniformsToQueue_initializations.
Qed.

(** X12: the prepared flag is not reset by a change of the list.  A
    Renderable added to a prepared scene leaves the flag true, and the next
    [Render] draws it after the others although [Initialize] is not called
    on it, neither by [AddRenderable] nor by [Render]. *)
Theorem added_after_Prepare_is_drawn_without_Initialize
    (x : Scene.Renderable) (r : WebGPURenderer)
    (scene : Scene.WebGPURendererScene) (camera : Camera.Camera) (w : World)
    (ctx : handle) (dev : GPUDevice) (q : handle) :
  Scene.hasPrepared scene = true ->
  Scene.isRenderable x = true ->
  context r = Some ctx -> gpuDevice r = Some dev -> dev_queue dev = Some q ->
  Scene.hasPrepared (Scene.AddRenderable x scene) = true
  /\ exists r' w' p,
       Render r (Scene.AddRenderable x scene) camera w = (Ok r', w')
       /\ draws (trace w') =
            draws (trace w)
            ++ map (fun y => (Scene.id y, p)) (Scene.rendererables scene)
            ++ [(Scene.id x, p)]
       /\ initializations (trace w') = initializations (trace w).
Proof.
  intros Hp Hx Hctx Hdev Hq.
  assert (Hp' : Scene.hasPrepared (Scene.AddRenderable x scene) = true)
    by (unfold Scene.AddRenderable; rewrite Hx; exact Hp).
  split; [exact Hp'|].
  destruct (Render_prepared_effects r (Scene.AddRenderable x scene) camera w
              ctx dev q Hp' Hctx Hdev Hq) as (r' & w' & p & ER & Hd & Hi).
  exists r', w', p. split; [exact ER|]. split; [|exact Hi].
  rewrite Hd. unfold Scene.AddRenderable. rewrite Hx.
  cbn [Scene.rendererables]. rewrite map_app. reflexivity.
Qed.

(** X13: [Prepare] stops at the first Renderable whose [Initialize] rejects.
    It rejects with that failure, [Initialize] has been called on the
    Renderables up to and including that one, in order, and on none after
    it; the camera is not bound, nothing is logged, and scene and camera,
    with the prepared flag, are as before. *)
Theorem Prepare_stops_at_first_rejection (r : WebGPURenderer)
    (camera : Camera.Camera) (s : Scene.WebGPURendererScene) (w : World)
    (l1 : list Scene.Renderable) (x : Scene.Renderable)
    (l2 : list Scene.Renderable) :
  let dev := gpuDevice r in
  let fmt := format r in
  let sc := default (JS.ofZ 1) (msaaSampleCount (options r)) in
  hasInitialized r = true ->
  Scene.rendererables s = l1 ++ x :: l2 ->
  Forall (fun y => Scene.initializes y dev fmt sc = true) l1 ->
  Scene.initializes x dev fmt sc = false ->
  exists w',
    Scene.Prepare r camera s w = (Throw (Rejected (Scene.id x)), s, camera, w')
    /\ trace w' =
         trace w
         ++ map (fun y => RenderableInitialize (Scene.id y) dev fmt sc)
              (l1 ++ [x]).
Proof.
  intros dev fmt sc Hinit Hl Hok Hfail.
  unfold Scene.Prepare. rewrite Hinit. cbn [negb]. fold dev fmt sc. rewrite Hl.
  unfold bind.
  assert (E : exists w',
             Scene.initialize_all dev fmt sc (l1 ++ x :: l2) w
             = (Throw (Rejected (Scene.id x)), w')
             /\ trace w' =
                trace w
                ++ map (fun y => RenderableInitialize (Scene.id y) dev fmt sc)
                     (l1 ++ [x])).
  { clear Hl. revert w. induction Hok as [|y l1 Hy _ IH]; intros w.
    - simpl. unfold bind, tell, throw. rewrite Hfail.
      eexists. split; reflexivity.
    - simpl. unfold bind at 1, tell at 1. rewrite Hy.
      destruct (IH (emit (RenderableInitialize (Scene.id y) dev fmt sc) w))
        as (w' & E & Ht).
      exists w'. split; [exact E|]. rewrite Ht. simpl.
      rewrite <- app_assoc. reflexivity. }
  destruct E as (w' & -> & Ht). exists w'. split; [reflexivity|exact Ht].
Qed.

End ScenePrepared.

Lemma added_after_Prepare_is_drawn_without_Initialize_witness :
  let scene :=
    {| Scene.rendererables := [sample_renderable 7];
       Scene.hasPrepared := true |} in
  Scene.hasPrepared (Scene.AddRenderable (sample_renderable 8) scene) = true
  /\ exists r' w' p,
       @Render sample_gl (ready_renderer None)
         (Scene.AddRenderable (sample_renderable 8) scene) sample_camera
         (ready_world None) = (Ok r', w')
       /\ draws (trace w') =
            draws (trace (ready_world None))
            ++ map (fun y => (Scene.id y, p)) (Scene.rendererables scene)
            ++ [(8%nat, p)]
       /\ initializations (trace w') = initializations (trace (ready_world None)).
Proof.
  intros scene.
  apply (@added_after_Prepare_is_drawn_without_Initialize sample_gl
           (sample_renderable 8) (ready_renderer None) scene sample_camera
           (ready_world None) 3%nat sample_device 2%nat); reflexivity.
Defined.

Lemma Prepare_stops_at_first_rejection_witness :
  let bad := {| Scene.id := 8%nat; Scene.isRenderable := true;
                Scene.initializes := fun _ _ _ => false |} in
  let scene :=
    {| Scene.rendererables := [sample_renderable 7; bad; sample_renderable 9];
       Scene.hasPrepared := false |} in
  exists w',
    @Scene.Prepare sample_gl sample_projection (ready_renderer None)
      sample_camera scene (ready_world None)
    = (Throw (Rejected 8%nat), scene, sample_camera, w')
    /\ initializations (trace w') = [(7%nat, JS.ofZ 1); (8%nat, JS.ofZ 1)].
Proof.
  intros bad scene.
  destruct (@Prepare_stops_at_first_rejection sample_gl sample_projection
              (ready_renderer None) sample_camera scene (ready_world None)
              [sample_renderable 7] bad [sample_renderable 9])
    as (w' & E & Ht); [reflexivity | reflexivity | repeat constructor | reflexivity |].
  exists w'. split; [exact E|]. rewrite Ht. reflexivity.
Defined.

(** ** Camera: binding and uniforms *)

Section CameraBinding.
Context `{GlMatrix} `{Camera.Projection}.
Import Camera.

Lemma updateMatrices_handles c :
  uniformBuffer (updateMatrices c) = uniformBuffer c
  /\ bindGroup (updateMatrices c) = bindGroup c
  /\ bindGroupLayout (updateMatrices c) = bindGroupLayout c
  /\ position (updateMatrices c) = position c
  /\ target (updateMatrices c) = target c
  /\ up (updateMatrices c) = up c
  /\ aspect (updateMatrices c) = aspect c.
Proof. unfold updateMatrices. simpl. auto 10. Qed.

(** X14: the camera is bound once.  After an [EnsureBinding] that
    completed, another one, with or without a device, creates nothing: the
    platform is untouched and the camera keeps its layout, bind group and
    uniform buffer; only the matrices are recomputed. *)
Theorem EnsureBinding_binds_once (d : GPUDevice) (c : Camera) (w : World)
    (c1 : Camera) (w1 : World) (dev' : option GPUDevice) :
  EnsureBinding (Some d) c w = (Ok c1, w1) ->
  EnsureBinding dev' c1 w1 = (Ok (updateMatrices c1), w1)
  /\ bindGroupLayout (updateMatrices c1) = bindGroupLayout c1
  /\ bindGroup (updateMatrices c1) = bindGroup c1
  /\ uniformBuffer (updateMatrices c1) = uniformBuffer c1.
Proof.
  intros E.
  destruct (EnsureBinding_completes _ _ _ _ _ E) as ([l Hl] & [g Hg] & _).
  destruct (updateMatrices_handles c1) as (Hb & Hg' & Hl' & _).
  split; [|auto].
  unfold EnsureBinding. rewrite Hl. unfold bind at 1. cbn [ret].
  rewrite Hg. unfold bind at 1. cbn [ret]. reflexivity.
Qed.

(** The first binding of a camera that has none of the three objects. *)
Lemma EnsureBinding_first d c w :
  bindGroupLayout c = None -> bindGroup c = None -> uniformBuffer c = None ->
  let l := next_handle w in
  exists c1 w1,
    EnsureBinding (Some d) c w = (Ok c1, w1)
    /\ bindGroupLayout c1 = Some l
    /\ uniformBuffer c1 = Some (S l)
    /\ bindGroup c1 = Some (S (S l))
    /\ position c1 = position c
    /\ trace w1 =
         trace w ++ [CreateBindGroupLayout (dev_id d) l;
                     CreateBuffer (dev_id d) 80 (S l);
                     CreateBindGroup (dev_id d) l (S l) (S (S l))]
    /\ buffers w1 = <[S l := replicate 80 x00]> (buffers w).
Proof.
  intros Hl Hg Hb l.
  unfold EnsureBinding, CreateUniformBuffer.
  unfold bind, deref, call, tell, ret, createBuffer, fresh, emit.
  rewrite Hl. simpl. rewrite Hg. simpl. rewrite Hb. simpl.
  do 2 eexists. split; [reflexivity|]. simpl.
  rewrite <- !app_assoc. simpl. auto 10.
Qed.

(** X15: binding makes the uniform write possible.  Before it, a camera
    without a uniform buffer only gets the error
    [CAM_UNIFORM_BUFFER_UNDEFINED] and no buffer changes.  After the first
    [EnsureBinding], on a device, [WriteUniformsToQueue] reports nothing and
    the new 80-byte buffer holds the 16 elements of the view-projection
    matrix, then the roundings of the x, y and z of the position the camera
    had before the binding, and four zero bytes. *)
Theorem binding_enables_uniform_write (d : GPUDevice) (c : Camera) (w : World)
    (q : handle) :
  bindGroupLayout c = None -> bindGroup c = None -> uniformBuffer c = None ->
  (WriteUniformsToQueue q c w = emit (DebugError CAM_UNIFORM_BUFFER_UNDEFINED) w)
  /\ exists c1 w1 b,
       EnsureBinding (Some d) c w = (Ok c1, w1)
       /\ uniformBuffer c1 = Some b
       /\ buffers (WriteUniformsToQueue q c1 w1) !! b =
            Some (mjoin (vec_to_list <$> vec_to_list (viewProjection c1))
                  ++ vec_to_list (fround (x (position c)))
                  ++ vec_to_list (fround (y (position c)))
                  ++ vec_to_list (fround (z (position c)))
                  ++ replicate 4 x00)
       /\ diagnostics (trace (WriteUniformsToQueue q c1 w1))
          = diagnostics (trace w).
Proof.
  intros Hl Hg Hb. split.
  - unfold WriteUniformsToQueue. rewrite Hb. reflexivity.
  - destruct (EnsureBinding_first d c w Hl Hg Hb)
      as (c1 & w1 & E & _ & Hb1 & _ & Hpos & Ht & Hbuf).
    exists c1, w1, (S (next_handle w)). split; [exact E|]. split; [exact Hb1|].
    split.
    + rewrite (WriteUniformsToQueue_buffer c1 q (S (next_handle w)) w1
                 (replicate 80 x00) Hb1).
      * rewrite lookup_insert_eq, bytes_of_vec3_fromValues, Hpos, <- !app_assoc.
        reflexivity.
      * rewrite Hbuf. apply lookup_insert_eq.
      * apply length_replicate.
    + assert (G : gpu_only w1 (WriteUniformsToQueue q c1 w1)).
      { unfold WriteUniformsToQueue. rewrite Hb1.
        eapply gpu_only_trans; apply gpu_only_writeBuffer. }
      rewrite (gpu_only_diagnostics _ _ G), Ht. unfold diagnostics.
      rewrite List.filter_app. simpl. apply app_nil_r.
Qed.

End CameraBinding.

Lemma EnsureBinding_binds_once_witness :
  exists c1 w1,
    @Camera.EnsureBinding sample_gl sample_projection (Some sample_device)
      sample_camera sample_world = (Ok c1, w1)
    /\ @Camera.EnsureBinding sample_gl sample_projection None c1 w1
       = (Ok (@Camera.updateMatrices sample_gl sample_projection c1), w1).
Proof.
  do 2 eexists. split; [vm_compute; reflexivity|].
  refine (proj1 (@EnsureBinding_binds_once sample_gl sample_projection
                   sample_device sample_camera sample_world _ _ None _)).
  vm_compute. reflexivity.
Defined.

(** The camera at (7, 8, 9), not yet bound, with the stand-in that tells
    numbers apart: the view has the eye in its first three elements. *)
Lemma binding_enables_uniform_write_witness :
  let c := Camera.set_uniformBuffer None tagged_camera in
  exists c1 w1 b content',
    @Camera.EnsureBinding tagged_gl sample_projection (Some sample_device) c
      sample_world = (Ok c1, w1)
    /\ buffers (@Camera.WriteUniformsToQueue tagged_gl 2%nat c1 w1) !! b
       = Some content'
    /\ take 12 (drop 64 content')
       = [x07; x00; x00; x00; x08; x00; x00; x00; x09; x00; x00; x00]
    /\ drop 76 content' = [x00; x00; x00; x00].
Proof.
  intros c.
  destruct (proj2 (@binding_enables_uniform_write tagged_gl sample_projection
                     sample_device c sample_world 2%nat
                     eq_refl eq_refl eq_refl))
    as (c1 & w1 & b & E & _ & Hbuf & _).
  exists c1, w1, b. eexists. split; [exact E|]. split; [exact Hbuf|].
  change (mjoin (vec_to_list <$> vec_to_list (Camera.viewProjection c1)))
    with (bytes_of (Camera.viewProjection c1)).
  pose proof (length_bytes_of (Camera.viewProjection c1)) as L.
  split.
  - rewrite drop_app_length' by (rewrite L; reflexivity). reflexivity.
  - change 76%nat with (64 + 12)%nat. rewrite <- drop_drop.
    rewrite drop_app_length' by (rewrite L; reflexivity). reflexivity.
Defined.

(** ** Numbers: order, minimum and maximum *)

Lemma le_finite (a b : Q) : JS.le (JS.Fin a) (JS.Fin b) = true <-> (a <= b)%Q.
Proof.
  unfold JS.le. simpl. rewrite Qle_alt.
  destruct (a ?= b)%Q; split; congruence.
Qed.

Lemma le_trans_number (x y z : number) :
  JS.le x y = true -> JS.le y z = true -> JS.le x z = true.
Proof.
  destruct x as [a| | |], y as [b| | |], z as [c| | |];
    try (intros; reflexivity); try (intros H1 H2; discriminate).
  rewrite !le_finite. apply Qle_trans.
Qed.

(** [Math.max(c, x)] is at least both arguments, when [x] is a number. *)
Lemma max_is_upper_bound (c : Q) (x : number) :
  x <> JS.NaN ->
  JS.le (JS.Fin c) (JS.max (JS.Fin c) x) = true
  /\ JS.le x (JS.max (JS.Fin c) x) = true.
Proof.
  intros Hx. destruct x as [q| | |]; try congruence.
  - unfold JS.max. simpl.
    destruct (Qcompare_spec c q) as [E|L|G]; rewrite !le_finite.
    + split; [apply Qle_refl|]. rewrite E. apply Qle_refl.
    + split; [apply Qlt_le_weak; exact L | apply Qle_refl].
    + split; [apply Qle_refl | apply Qlt_le_weak; exact G].
  - split; reflexivity.
  - split; [|reflexivity]. unfold JS.max. simpl.
    apply le_finite, Qle_refl.
Qed.

(** [Math.max(lo, Math.min(hi, x))] lies between the bounds. *)
Lemma clamp_within (lo hi : Q) (x : number) :
  (lo <= hi)%Q -> x <> JS.NaN ->
  JS.le (JS.Fin lo) (JS.max (JS.Fin lo) (JS.min (JS.Fin hi) x)) = true
  /\ JS.le (JS.max (JS.Fin lo) (JS.min (JS.Fin hi) x)) (JS.Fin hi) = true.
Proof.
  intros Hb Hx.
  assert (Hm : exists m, JS.min (JS.Fin hi) x = m /\ m <> JS.NaN
                         /\ JS.le m (JS.Fin hi) = true).
  { destruct x as [q| | |]; try congruence.
    - unfold JS.min. simpl. destruct (Qcompare_spec hi q) as [E|L|G];
        eexists; (split; [reflexivity|]); (split; [discriminate|]);
        rewrite le_finite; try apply Qle_refl. apply Qlt_le_weak; exact G.
    - exists (JS.Fin hi). repeat split; [discriminate|].
      rewrite le_finite. apply Qle_refl.
    - exists JS.NInf. repeat split. discriminate. }
  destruct Hm as (m & -> & Hm & Hle).
  destruct (max_is_upper_bound lo m Hm) as [H1 _]. split; [exact H1|].
  destruct m as [q| | |]; try congruence; try discriminate Hle.
  - unfold JS.max. simpl. destruct (Qcompare_spec lo q); rewrite le_finite;
      try exact Hb; apply le_finite; exact Hle.
  - unfold JS.max. simpl. rewrite le_finite. exact Hb.
Qed.

(** ** Camera: the setters *)

Section CameraSetterFacts.
Context `{GlMatrix} `{Camera.Projection}.
Import Camera CameraSetters.

Lemma updateMatrices_current c :
  view (updateMatrices c)
  = mat4_lookAt (vec3_fromValues (position c)) (vec3_fromValues (target c))
      (vec3_fromValues (up c))
  /\ viewProjection (updateMatrices c)
     = mat4_multiply (projection (updateMatrices c)) (view (updateMatrices c)).
Proof. unfold updateMatrices. simpl. auto. Qed.

(** X16: a setter is seen by the next uniform write, with no update call in
    between.  After [SetPosition] with a vector [v], on a camera bound to an
    80-byte buffer, the view is [lookAt] from the roundings of [v]'s x, y
    and z at the target, and [WriteUniformsToQueue] leaves in the buffer the
    product of the projection with that view, then the roundings of [v]'s
    x, y and z at offsets 64, 68 and 72, and the old last four bytes; the
    camera's GPU objects are the same as before. *)
Theorem SetPosition_reaches_the_uniforms (c : Camera) (v : Vector3)
    (q b : handle) (w : World) (content : list byte) :
  uniformBuffer c = Some b ->
  buffers w !! b = Some content ->
  length content = 80%nat ->
  let c' := SetPosition (inl v) None None c in
  position c' = v
  /\ view c' =
       mat4_lookAt [# fround (x v); fround (y v); fround (z v)]
         [# fround (x (target c)); fround (y (target c)); fround (z (target c))]
         [# fround (x (up c)); fround (y (up c)); fround (z (up c))]
  /\ uniformBuffer c' = Some b /\ bindGroup c' = bindGroup c
  /\ buffers (WriteUniformsToQueue q c' w) !! b =
       Some (mjoin (vec_to_list <$>
                    vec_to_list (mat4_multiply (projection c') (view c')))
             ++ vec_to_list (fround (x v))
             ++ vec_to_list (fround (y v))
             ++ vec_to_list (fround (z v))
             ++ drop 76 content).
Proof.
  intros Hb Hw Hlen c'. unfold c', SetPosition.
  set (c0 := set_position v c).
  destruct (updateMatrices_handles c0) as (Hu & Hg & _ & Hp & _).
  destruct (updateMatrices_current c0) as (Hv & Hvp).
  split; [exact Hp|]. split; [exact Hv|].
  split; [rewrite Hu; exact Hb|]. split; [exact Hg|].
  rewrite (WriteUniformsToQueue_buffer (updateMatrices c0) q b w content)
    by (rewrite ?Hu; assumption).
  rewrite lookup_insert_eq, Hvp, Hp, bytes_of_vec3_fromValues, <- !app_assoc.
  reflexivity.
Qed.

(** X17: numeric arguments of [SetPosition] and [LookAt] that are left out
    are not kept from the vector: an omitted [y] becomes the old [x] and an
    omitted [z] the old [y].  So with [y] and [z] omitted the vector becomes
    [(x, old x, old y)], and the old [z] is lost. *)
Theorem omitted_components_shift (c : Camera) (n : number) (ny nz : option number) :
  position (SetPosition (inr n) ny nz c)
  = {| x := n;
       y := default (x (position c)) ny;
       z := default (y (position c)) nz |}
  /\ target (LookAt (inr n) ny nz c)
     = {| x := n;
          y := default (x (target c)) ny;
          z := default (y (target c)) nz |}
  /\ position (SetPosition (inr n) None None (SetPosition (inr n) None None
                 (SetPosition (inr n) None None c)))
     = {| x := n; y := n; z := n |}.
Proof.
  unfold SetPosition, LookAt, Vector3_Set.
  repeat split;
    repeat (match goal with
            | |- context [position (updateMatrices ?c0)] =>
                replace (position (updateMatrices c0)) with (position c0)
                  by (symmetry; apply updateMatrices_handles)
            | |- context [target (updateMatrices ?c0)] =>
                replace (target (updateMatrices c0)) with (target c0)
                  by (symmetry; apply updateMatrices_handles)
            end; cbn [position target set_position set_target default x y z]);
    reflexivity.
Qed.

(** [SetAspect] never stores an aspect below one millionth, and stores the
    argument itself when it is above. *)
Lemma SetAspect_lower_bound (c : Camera) (a : number) :
  a <> JS.NaN ->
  JS.le (JS.Fin (1 # 1000000)) (aspect (SetAspect a c)) = true
  /\ (JS.gt a (JS.Fin (1 # 1000000)) = true -> aspect (SetAspect a c) = a).
Proof.
  intros Ha. unfold SetAspect.
  replace (aspect (updateMatrices (set_aspect (JS.max (JS.Fin (1 # 1000000)) a) c)))
    with (JS.max (JS.Fin (1 # 1000000)) a)
    by (symmetry; apply updateMatrices_handles).
  split; [apply max_is_upper_bound; exact Ha|].
  destruct a as [q| | |]; try congruence; try reflexivity; try discriminate.
  unfold JS.gt, JS.max. simpl. rewrite <- (Qcompare_antisym q (1 # 1000000)).
  destruct (q ?= 1 # 1000000)%Q; simpl; try discriminate. reflexivity.
Qed.

End CameraSetterFacts.

(** The camera at (7, 8, 9) moved to (1, 2, 3), with the stand-in that
    tells numbers apart, written over a buffer of [0xff]: the new eye is in
    the matrix and the new position behind it. *)
Lemma SetPosition_reaches_the_uniforms_witness :
  let v := {| Camera.x := JS.ofZ 1; Camera.y := JS.ofZ 2; Camera.z := JS.ofZ 3 |} in
  let c' := @CameraSetters.SetPosition tagged_gl sample_projection (inl v)
              None None tagged_camera in
  exists content',
    buffers (@Camera.WriteUniformsToQueue tagged_gl 2%nat c' filled_buffer_world)
      !! 0%nat = Some content'
    /\ take 12 content'
       = [x01; x00; x00; x00; x02; x00; x00; x00; x03; x00; x00; x00]
    /\ take 12 (drop 64 content')
       = [x01; x00; x00; x00; x02; x00; x00; x00; x03; x00; x00; x00]
    /\ drop 76 content' = [xff; xff; xff; xff].
Proof.
  intros v c'.
  destruct (@SetPosition_reaches_the_uniforms tagged_gl sample_projection
              tagged_camera v 2%nat 0%nat filled_buffer_world
              (replicate 80 xff) eq_refl eq_refl eq_refl)
    as (_ & _ & _ & _ & Hbuf).
  eexists. split; [exact Hbuf|].
  split; [reflexivity|]. split; reflexivity.
Defined.

(** ** PerspectiveCamera *)

Lemma max_ge_left (x y : number) :
  x <> JS.NaN -> y <> JS.NaN -> JS.le x (JS.max x y) = true.
Proof.
  intros Hx Hy.
  destruct x as [a| | |]; try congruence.
  - apply max_is_upper_bound. exact Hy.
  - destruct y; try congruence; reflexivity.
  - destruct y; try congruence; reflexivity.
Qed.

Section PerspectiveFacts.
Context `{GlMatrix} `{GlMatrixPerspective}.
Import PerspectiveCamera.

(** X18: the setters of the perspective camera clamp what they store, for
    every argument that is a number: the field of view to [1, 179], the
    near plane to at least 0.0001, the far plane to at least near + 0.001;
    each recomputes the projection from the stored values.  [SetNear] does
    not touch the far plane: a near plane at or beyond it leaves
    [far <= near]. *)
Theorem perspective_parameters_are_clamped (pc : PerspectiveCamera) (v : number) :
  v <> JS.NaN ->
  (JS.le (JS.ofZ 1) (fieldOfViewDegrees (SetFieldOfViewInDegrees v pc)) = true
   /\ JS.le (fieldOfViewDegrees (SetFieldOfViewInDegrees v pc)) (JS.ofZ 179) = true)
  /\ JS.le (JS.Fin (1 # 10000)) (near (SetNear v pc)) = true
  /\ (near pc <> JS.NaN ->
      JS.le (JSMath.add (near pc) (JS.Fin (1 # 1000))) (far (SetFar v pc)) = true)
  /\ Camera.projection (camera (SetNear v pc))
     = mat4_perspective (toRadian (fieldOfViewDegrees pc))
         (Camera.aspect (camera pc)) (near (SetNear v pc)) (far pc)
  /\ far (SetNear v pc) = far pc
  /\ (JS.le (far pc) v = true ->
      JS.le (far (SetNear v pc)) (near (SetNear v pc)) = true).
Proof.
  intros Hv. split; [|split; [|split; [|split; [|split]]]].
  - apply (clamp_within (inject_Z 1) (inject_Z 179) v); [discriminate|exact Hv].
  - apply max_is_upper_bound. exact Hv.
  - intros Hn. cbn [SetFar updateMatrices far]. apply max_ge_left; [|exact Hv].
    destruct (near pc); try congruence; discriminate.
  - reflexivity.
  - reflexivity.
  - intros Hle. cbn [SetNear updateMatrices far near].
    eapply le_trans_number; [exact Hle|].
    apply max_is_upper_bound. exact Hv.
Qed.

End PerspectiveFacts.

Lemma perspective_parameters_are_clamped_witness :
  let pc := {| PerspectiveCamera.camera := sample_camera;
               PerspectiveCamera.fieldOfViewDegrees := JS.ofZ 60;
               PerspectiveCamera.near := JS.Fin (1 # 10);
               PerspectiveCamera.far := JS.ofZ 1000 |} in
  JS.le (JS.ofZ 1)
    (PerspectiveCamera.fieldOfViewDegrees
       (@PerspectiveCamera.SetFieldOfViewInDegrees sample_gl sample_perspective
          (JS.ofZ 500) pc)) = true
  /\ JS.le
       (PerspectiveCamera.fieldOfViewDegrees
          (@PerspectiveCamera.SetFieldOfViewInDegrees sample_gl sample_perspective
             (JS.ofZ 500) pc)) (JS.ofZ 179) = true.
Proof.
  intros pc.
  apply (@perspective_parameters_are_clamped sample_gl sample_perspective pc
           (JS.ofZ 500)).
  discriminate.
Defined.

(** ** WebGPURenderer: the textures it owns *)

Section TextureOwnership.
Import Renderer RendererSurface.

Lemma textures_destroy_if_present o w :
  textures (destroy_if_present o w)
  = match o with Some h => delete h (textures w) | None => textures w end.
Proof. destruct o; reflexivity. Qed.

(** Destroying the renderer's targets leaves no live texture, when it owned
    them all. *)
Lemma destroyed_targets_leave_none r w :
  owns_textures r w ->
  textures (destroy_if_present (msaaTexture r)
              (destroy_if_present (depthTexture r) w)) = ∅.
Proof.
  intros Ho. apply map_empty. intros h.
  rewrite !textures_destroy_if_present.
  apply eq_None_not_Some. intros Hs.
  assert (Hw : is_Some (textures w !! h)
               /\ depthTexture r <> Some h /\ msaaTexture r <> Some h).
  { destruct (msaaTexture r) as [m|], (depthTexture r) as [d|];
      repeat match goal with
             | H : is_Some (delete _ _ !! _) |- _ =>
                 apply lookup_delete_is_Some in H; destruct H
             end; repeat split; try congruence; assumption. }
  destruct Hw as (Hs' & Hd & Hm). apply Ho in Hs'. tauto.
Qed.

Lemma createOrResizeTargets_owns r w dev :
  gpuDevice r = Some dev -> owns_textures r w ->
  owns_textures (fst (createOrResizeTargets r w)) (snd (createOrResizeTargets r w)).
Proof.
  intros Hdev Ho. pose proof (destroyed_targets_leave_none r w Ho) as He.
  unfold createOrResizeTargets. rewrite Hdev.
  set (w2 := destroy_if_present (msaaTexture r) _) in *.
  unfold createTexture, createView, fresh, emit.
  cbn [fst snd next_handle textures buffers trace].
  destruct (JS.gt (getMsaa r) (JS.ofZ 1));
    unfold owns_textures;
    cbn [fst snd next_handle textures buffers trace set_targets
         depthTexture msaaTexture];
    rewrite He; intros h.
  - rewrite !lookup_insert_is_Some'.
    split.
    + intros [<-|[<-|Hx]]; [right; reflexivity | left; reflexivity |].
      exfalso. exact (lookup_empty_is_Some _ Hx).
    + intros [[= <-]|[= <-]]; auto.
  - rewrite lookup_insert_is_Some'. split.
    + intros [<-|Hx]; [left; reflexivity|].
      exfalso. exact (lookup_empty_is_Some _ Hx).
    + intros [[= <-]|Hx]; [auto|discriminate Hx].
Qed.

Lemma resize_all_snoc sizes p s :
  resize_all (sizes ++ [p]) s
  = SetSize (fst p) (snd p) (fst (resize_all sizes s)) (snd (resize_all sizes s)).
Proof. unfold resize_all. rewrite fold_left_app. reflexivity. Qed.

Lemma SetSize_owns x y r w dev :
  gpuDevice r = Some dev -> owns_textures r w ->
  owns_textures (fst (SetSize x y r w)) (snd (SetSize x y r w))
  /\ gpuDevice (fst (SetSize x y r w)) = Some dev.
Proof.
  intros Hdev Ho. unfold SetSize.
  match goal with |- context [createOrResizeTargets ?r1 w] => set (r1' := r1) end.
  split.
  - apply (createOrResizeTargets_owns r1' w dev); [exact Hdev|].
    intros h. apply Ho.
  - destruct (createOrResizeTargets_frame r1' w) as (_ & _ & -> & _).
    exact Hdev.
Qed.

(** X19: resizing does not leak textures.  With a device, from a state in
    which the live textures are exactly the renderer's targets, any sequence
    of [SetSize] calls ends in such a state again: each call destroys the
    old targets before it allocates; and [Dispose] then leaves no live
    texture at all. *)
Theorem resizing_leaks_no_texture (sizes : list (number * number))
    (r : WebGPURenderer) (w : World) (dev : GPUDevice) :
  gpuDevice r = Some dev ->
  owns_textures r w ->
  let s := resize_all sizes (r, w) in
  owns_textures (fst s) (snd s)
  /\ textures (Dispose (fst s) (snd s)) = ∅.
Proof.
  intros Hdev Ho s.
  assert (Inv : owns_textures (fst s) (snd s) /\ gpuDevice (fst s) = Some dev).
  { unfold s. induction sizes as [|p sizes IH] using rev_ind; [auto|].
    rewrite resize_all_snoc. destruct IH as [IHo IHd].
    apply SetSize_owns; assumption. }
  destruct Inv as [Hs _]. split; [exact Hs|].
  apply destroyed_targets_leave_none. exact Hs.
Qed.

End TextureOwnership.

Lemma resizing_leaks_no_texture_witness :
  let s := resize_all [(JS.ofZ 800, JS.ofZ 600); (JS.ofZ 1024, JS.ofZ 768)]
             (sample_renderer (Some (JS.ofZ 4)), sample_world) in
  owns_textures (fst s) (snd s)
  /\ textures (RendererSurface.Dispose (fst s) (snd s)) = ∅.
Proof.
  intros s.
  apply (resizing_leaks_no_texture _ (sample_renderer (Some (JS.ofZ 4)))
           sample_world sample_device); [reflexivity|].
  intros h. split.
  - intros Hs. exfalso. exact (lookup_empty_is_Some _ Hs).
  - intros [Hx|Hx]; discriminate Hx.
Defined.

(** ** WebGPURenderer: the pixel ratio *)

Lemma ge_finite (a b : Q) : JSMath.ge (JS.Fin a) (JS.Fin b) = true <-> (b <= a)%Q.
Proof.
  unfold JSMath.ge. simpl. rewrite Qle_alt, <- (Qcompare_antisym a b).
  destruct (a ?= b)%Q; simpl; split; congruence.
Qed.

Lemma or_else_is_a_number (x : number) (c : Q) :
  JSMath.or_else x (JS.Fin c) <> JS.NaN.
Proof. destruct x as [q| | |]; unfold JSMath.or_else; simpl;
  try destruct (negb (Qeq_bool q 0)); discriminate. Qed.

Lemma min_with_bound (x : number) (hi : Q) :
  x <> JS.NaN ->
  JS.min x (JS.Fin hi) <> JS.NaN
  /\ JS.le (JS.min x (JS.Fin hi)) (JS.Fin hi) = true.
Proof.
  intros Hx. destruct x as [q| | |]; try congruence.
  - unfold JS.min. simpl. destruct (Qcompare_spec q hi) as [E|L|G];
      (split; [discriminate|]); rewrite le_finite.
    + rewrite E. apply Qle_refl.
    + apply Qlt_le_weak; exact L.
    + apply Qle_refl.
  - split; [discriminate|]. unfold JS.min. simpl. apply le_finite, Qle_refl.
  - split; [discriminate|reflexivity].
Qed.

Lemma max_clamped (lo hi : Q) (m : number) :
  (lo <= hi)%Q -> m <> JS.NaN -> JS.le m (JS.Fin hi) = true ->
  JS.le (JS.Fin lo) (JS.max (JS.Fin lo) m) = true
  /\ JS.le (JS.max (JS.Fin lo) m) (JS.Fin hi) = true
  /\ JS.isFinite (JS.max (JS.Fin lo) m) = true.
Proof.
  intros Hb Hm Hle.
  destruct (max_is_upper_bound lo m Hm) as [H1 _]. split; [exact H1|].
  destruct m as [q| | |]; try congruence; try discriminate Hle.
  - unfold JS.max. simpl. destruct (Qcompare_spec lo q);
      (split; [|reflexivity]); rewrite le_finite;
      try exact Hb; apply le_finite; exact Hle.
  - unfold JS.max. simpl. split; [|reflexivity]. rewrite le_finite. exact Hb.
Qed.

Section PixelRatio.
Import Renderer RendererSurface.

(** X20: [SetDevicePixelRatio] with a ratio [<= 0] reports the error,
    falls back to the window's ratio (or 1), resizes nothing and returns
    null.  With any other ratio, NaN and infinity included, it returns
    [this] with a finite ratio in [1, 100] stored and resizes: the canvas is
    assigned the physical size [max(1, floor(logical * ratio))] of the
    configured or client size, the renderer's width and height are what the
    canvas reads back, and they are that physical size whenever a canvas
    can hold it.  A ratio [>= 2] is warned about once, a ratio [>= 10]
    twice. *)
Theorem SetDevicePixelRatio_clamps (window_dpr : number)
    (cw ch : option number) (ratio : number) (r : WebGPURenderer) (w : World) :
  let res := SetDevicePixelRatio window_dpr cw ch (Some ratio) r w in
  let r' := snd (fst res) in
  let lw := default (default (JS.ofZ 800) cw) (canvasWidth (options r)) in
  let lh := default (default (JS.ofZ 600) ch) (canvasHeight (options r)) in
  (JS.le ratio (JS.ofZ 0) = true ->
     res = (false, [InvalidRatioError],
            set_devicePixelRatio (JSMath.or_else window_dpr (JS.ofZ 1)) r, w))
  /\ (JS.le ratio (JS.ofZ 0) = false ->
      fst (fst (fst res)) = true
      /\ JS.le (JS.ofZ 1) (devicePixelRatio r') = true
      /\ JS.le (devicePixelRatio r') (JS.ofZ 100) = true
      /\ JS.isFinite (devicePixelRatio r') = true
      /\ canvas r' =
           {| canvas_width :=
                reflect_dimension 300 (physical_size lw (devicePixelRatio r'));
              canvas_height :=
                reflect_dimension 150 (physical_size lh (devicePixelRatio r')) |}
      /\ width r' = canvas_width (canvas r')
      /\ height r' = canvas_height (canvas r')
      /\ (JS.le (physical_size lw (devicePixelRatio r'))
            (JS.ofZ max_canvas_dimension) = true ->
          width r' = physical_size lw (devicePixelRatio r'))
      /\ (JS.le (physical_size lh (devicePixelRatio r'))
            (JS.ofZ max_canvas_dimension) = true ->
          height r' = physical_size lh (devicePixelRatio r'))
      /\ snd (fst (fst res)) =
           (if JSMath.ge ratio (JS.ofZ 10)
            then [HighRatioWarning; ExtremeRatioWarning]
            else if JSMath.ge ratio (JS.ofZ 2) then [HighRatioWarning] else [])).
Proof.
  intros res r' lw lh. unfold r', res, SetDevicePixelRatio.
  change (default (JS.ofZ 1) (Some ratio)) with ratio. cbv zeta.
  split.
  - intros Hle. rewrite Hle.
    assert (H2 : JSMath.ge ratio (JS.ofZ 2) = false).
    { destruct ratio as [q| | |]; try reflexivity; try discriminate Hle.
      destruct (JSMath.ge (JS.Fin q) (JS.ofZ 2)) eqn:E; [|reflexivity].
      apply ge_finite in E. apply le_finite in Hle.
      exfalso. apply (Qle_not_lt _ _ (Qle_trans _ _ _ E Hle)). reflexivity. }
    assert (H10 : JSMath.ge ratio (JS.ofZ 10) = false).
    { destruct ratio as [q| | |]; try reflexivity; try discriminate Hle.
      destruct (JSMath.ge (JS.Fin q) (JS.ofZ 10)) eqn:E; [|reflexivity].
      apply ge_finite in E. apply le_finite in Hle.
      exfalso. apply (Qle_not_lt _ _ (Qle_trans _ _ _ E Hle)). reflexivity. }
    rewrite H2, H10. reflexivity.
  - intros Hle. rewrite Hle.
    set (d := JS.max (JS.ofZ 1)
                (JS.min (JSMath.or_else ratio (JS.ofZ 1)) (JS.ofZ 100))).
    unfold applySizeChanges.
    change (options (set_devicePixelRatio d r)) with (options r). fold lw lh.
    destruct (SetSize_fields lw lh (set_devicePixelRatio d r) w)
      as (Hcv & Hwd & Hht & Hd & _).
    change (devicePixelRatio (set_devicePixelRatio d r)) with d in Hcv, Hd.
    destruct (SetSize lw lh (set_devicePixelRatio d r) w) as [r2 w2].
    cbn [fst snd] in *.
    destruct (min_with_bound (JSMath.or_else ratio (JS.ofZ 1)) (inject_Z 100)
                (or_else_is_a_number ratio (inject_Z 1))) as [Hm Hmle].
    destruct (max_clamped (inject_Z 1) (inject_Z 100) _ ltac:(discriminate) Hm Hmle)
      as (Hlo & Hhi & Hfin).
    fold d in Hlo, Hhi, Hfin. rewrite Hd.
    split; [reflexivity|]. split; [exact Hlo|]. split; [exact Hhi|].
    split; [exact Hfin|]. split; [exact Hcv|].
    split; [exact Hwd|]. split; [exact Hht|].
    split.
    { intros Hr. destruct (physical_size_in_range _ _ Hr) as (n & En & Hn).
      rewrite Hwd, Hcv. cbn [canvas_width]. rewrite En.
      apply reflect_dimension_keeps. lia. }
    split.
    { intros Hr. destruct (physical_size_in_range _ _ Hr) as (n & En & Hn).
      rewrite Hht, Hcv. cbn [canvas_height]. rewrite En.
      apply reflect_dimension_keeps. lia. }
    destruct (JSMath.ge ratio (JS.ofZ 10)) eqn:E10.
    + assert (H2 : JSMath.ge ratio (JS.ofZ 2) = true).
      { destruct ratio as [q| | |]; try reflexivity; try discriminate E10.
        apply ge_finite. apply ge_finite in E10.
        eapply Qle_trans; [|exact E10]. discriminate. }
      rewrite H2. reflexivity.
    + destruct (JSMath.ge ratio (JS.ofZ 2)); reflexivity.
Qed.

End PixelRatio.

Lemma SetDevicePixelRatio_clamps_witness :
  let res := RendererSurface.SetDevicePixelRatio (JS.ofZ 2) None None
               (Some (JS.ofZ 250)) (sample_renderer None) sample_world in
  JS.le (Renderer.devicePixelRatio (snd (fst res))) (JS.ofZ 100) = true
  /\ Renderer.width (snd (fst res))
     = physical_size (JS.ofZ 800) (Renderer.devicePixelRatio (snd (fst res)))
  /\ Renderer.width (snd (fst res)) = JS.ofZ 80000
  /\ RendererSurface.SetDevicePixelRatio (JS.ofZ 2) None None
       (Some (JS.ofZ (-1))) (sample_renderer None) sample_world
     = (false, [RendererSurface.InvalidRatioError],
        RendererSurface.set_devicePixelRatio
          (JSMath.or_else (JS.ofZ 2) (JS.ofZ 1)) (sample_renderer None),
        sample_world).
Proof.
  intros res.
  destruct (proj2 (SetDevicePixelRatio_clamps (JS.ofZ 2) None None (JS.ofZ 250)
                     (sample_renderer None) sample_world) eq_refl)
    as (_ & _ & Hhi & _ & _ & _ & _ & Hw & _).
  split; [exact Hhi|].
  split; [apply Hw; vm_compute; reflexivity|].
  split; [vm_compute; reflexivity|].
  apply (proj1 (SetDevicePixelRatio_clamps (JS.ofZ 2) None None (JS.ofZ (-1))
                  (sample_renderer None) sample_world)). reflexivity.
Defined.

(** ** WebGPURenderer: frames at the edges *)

Section FrameEdges.
Context `{GlMatrix}.
Import Renderer RendererSurface.

Lemma gt_max_one (n : number) :
  JS.gt (JS.max (JS.ofZ 1) n) (JS.ofZ 1) = JS.gt n (JS.ofZ 1).
Proof.
  destruct n as [q| | |]; try reflexivity.
  unfold JS.max, JS.gt, JS.ofZ. simpl.
  rewrite <- (Qcompare_antisym q (inject_Z 1)).
  destruct (q ?= inject_Z 1)%Q eqn:E; simpl; try reflexivity;
    try (rewrite E; reflexivity).
Qed.

(** X21: what a frame does without its platform objects.  [BeginFrame]
    without a context throws at once; without a device it throws after it
    has taken the canvas texture and its view.  [Render] of a prepared scene
    throws at once without a device; with a device that has no queue it
    returns without a draw and without a report; with device and queue but
    no context it writes the camera uniforms and then throws, with no pass
    begun.  [EndFrame] without a device ends the pass and then throws,
    submitting nothing. *)
Theorem frames_without_platform_objects (r : WebGPURenderer)
    (scene : Scene.WebGPURendererScene) (camera : Camera.Camera)
    (f : WebGPURendererFrameInfo) (w : World) :
  (context r = None -> BeginFrame r w = (Throw TypeError, w))
  /\ (forall ctx, context r = Some ctx -> gpuDevice r = None ->
        exists w', BeginFrame r w = (Throw TypeError, w')
          /\ trace w' = trace w ++ [GetCurrentTexture ctx (next_handle w);
                                    CreateView (next_handle w) (S (next_handle w))])
  /\ (Scene.hasPrepared scene = true -> gpuDevice r = None ->
        Render r scene camera w = (Throw TypeError, w))
  /\ (forall dev, Scene.hasPrepared scene = true -> gpuDevice r = Some dev ->
        dev_queue dev = None -> Render r scene camera w = (Ok r, w))
  /\ (forall dev q, Scene.hasPrepared scene = true -> gpuDevice r = Some dev ->
        dev_queue dev = Some q -> context r = None ->
        Render r scene camera w
        = (Throw TypeError, Camera.WriteUniformsToQueue q camera w)
        /\ pass_events (trace (Camera.WriteUniformsToQueue q camera w))
           = pass_events (trace w))
  /\ (gpuDevice r = None ->
        EndFrame r f w = (Throw TypeError, emit (PassEnd (pass f)) w)).
Proof.
  split; [|split; [|split; [|split; [|split]]]].
  - intros Hc. unfold BeginFrame. rewrite Hc. reflexivity.
  - intros ctx Hc Hd. unfold BeginFrame. rewrite Hc, Hd.
    unfold bind, deref, call, throw, ret, currentTextureView, createView,
      fresh, emit. simpl.
    eexists. split; [reflexivity|]. simpl. rewrite <- app_assoc. reflexivity.
  - intros Hp Hd. unfold Render. rewrite Hp, Hd. reflexivity.
  - intros dev Hp Hd Hq. unfold Render. rewrite Hp, Hd.
    unfold bind, deref, ret. simpl. rewrite Hq. reflexivity.
  - intros dev q Hp Hd Hq Hc. split; [|apply WriteUniformsToQueue_pass_events].
    unfold Render. rewrite Hp, Hd. cbn [negb deref]. unfold bind at 1.
    cbn [ret]. rewrite Hq. unfold bind at 1, call at 1.
    unfold bind at 1. unfold BeginFrame. rewrite Hc. reflexivity.
  - intros Hd. unfold EndFrame. rewrite Hd. reflexivity.
Qed.

(** X22: [Dispose] destroys the targets but keeps their handles, so the
    next [BeginFrame] does not rebuild: on a single-sampled renderer it
    begins the pass on the view of the destroyed depth texture and creates
    no texture. *)
Theorem Dispose_keeps_the_stale_views (r : WebGPURenderer) (w : World)
    (ctx : handle) (dev : GPUDevice) (t v : handle) :
  context r = Some ctx -> gpuDevice r = Some dev ->
  depthTexture r = Some t -> depthTextureView r = Some v ->
  JS.gt (frame_msaa r) (JS.ofZ 1) = false ->
  let w1 := Dispose r w in
  textures w1 !! t = None
  /\ exists f w2,
       BeginFrame r w1 = (Ok (r, f), w2)
       /\ textures w2 = textures w1
       /\ trace w2 =
            trace w1
            ++ [GetCurrentTexture ctx (next_handle w1);
                CreateView (next_handle w1) (colorView f);
                CreateCommandEncoder (dev_id dev) (encoder f);
                BeginRenderPass (encoder f) (frame_attachment r (colorView f))
                  (Some v) (pass f)].
Proof.
  intros Hc Hd Ht Hv Hm w1.
  split.
  - unfold w1, Dispose. rewrite !textures_destroy_if_present, Ht.
    destruct (msaaTexture r) as [m|].
    + destruct (decide (m = t)) as [->|Hne];
        [apply lookup_delete_eq|].
      rewrite lookup_delete_ne by exact Hne. apply lookup_delete_eq.
    + apply lookup_delete_eq.
  - pose proof (BeginFrame_unfold r w1 ctx dev Hc Hd) as E. cbn zeta in E.
    rewrite Hv, Hm in E. cbn [fst snd next_handle textures buffers trace] in E.
    rewrite Hv in E.
    do 2 eexists. split; [exact E|]. cbn [textures trace encoder pass colorView].
    split; [reflexivity|]. rewrite <- app_assoc. cbn [app].
    unfold frame_attachment. rewrite Hm. reflexivity.
Qed.

(** X23: with a supported sample count the frame agrees with the targets.
    On targets just built, [BeginFrame] rebuilds nothing and makes four
    calls: it takes the canvas view, creates the encoder and begins the pass
    with the depth view.  For a count above 1 the colour attachment is the
    multisample view, which exists, resolving into the canvas view;
    otherwise it is the canvas view itself. *)
Theorem BeginFrame_attachment_policy (r : WebGPURenderer) (w : World)
    (ctx : handle) (dev : GPUDevice) :
  context r = Some ctx -> gpuDevice r = Some dev ->
  supported_sample_count (default (JS.ofZ 1) (msaaSampleCount (options r))) ->
  let r1 := fst (createOrResizeTargets r w) in
  let w1 := snd (createOrResizeTargets r w) in
  exists f w2 dv,
    BeginFrame r1 w1 = (Ok (r1, f), w2)
    /\ textures w2 = textures w1
    /\ depthTextureView r1 = Some dv
    /\ trace w2 =
         trace w1
         ++ [GetCurrentTexture ctx (next_handle w1);
             CreateView (next_handle w1) (colorView f);
             CreateCommandEncoder (dev_id dev) (encoder f);
             BeginRenderPass (encoder f)
               {| att_view := if JS.gt (getMsaa r) (JS.ofZ 1)
                              then msaaTextureView r1 else Some (colorView f);
                  att_resolveTarget := if JS.gt (getMsaa r) (JS.ofZ 1)
                                       then Some (colorView f) else None;
                  att_clearValue :=
                    default default_clear (clearColor (options r)) |}
               (Some dv) (pass f)]
    /\ (JS.gt (getMsaa r) (JS.ofZ 1) = true -> is_Some (msaaTextureView r1)).
Proof.
  intros Hc Hd Hs r1 w1.
  destruct (createOrResizeTargets_frame r w) as (_ & Hc1 & Hd1 & Ho1 & _).
  fold r1 in Hc1, Hd1, Ho1. rewrite Hc in Hc1. rewrite Hd in Hd1.
  destruct (createOrResizeTargets_allocates r w dev Hd)
    as (t & dv & _ & Hdv & _ & Hms). fold r1 w1 in Hdv, Hms.
  assert (Hg : JS.gt (frame_msaa r1) (JS.ofZ 1) = JS.gt (getMsaa r) (JS.ofZ 1)).
  { unfold frame_msaa. rewrite Ho1, gt_max_one.
    rewrite (proj1 (getMsaa_resolves r) Hs). reflexivity. }
  pose proof (BeginFrame_unfold r1 w1 ctx dev Hc1 Hd1) as E. cbn zeta in E.
  rewrite Hdv, Hg, Ho1 in E. cbn [fst snd] in E.
  destruct (JS.gt (getMsaa r) (JS.ofZ 1)).
  - destruct Hms as (m & mv & _ & Hmv & _). rewrite Hmv in E.
    cbn [fst snd next_handle textures buffers trace] in E.
    rewrite ?Hdv, ?Hmv in E.
    do 3 eexists. split; [exact E|]. cbn [textures trace encoder pass colorView].
    split; [reflexivity|]. split; [exact Hdv|]. rewrite <- app_assoc. cbn [app].
    rewrite Hmv. split; [reflexivity|]. intros _. eauto.
  - cbn [fst snd next_handle textures buffers trace] in E.
    rewrite ?Hdv in E.
    do 3 eexists. split; [exact E|]. cbn [textures trace encoder pass colorView].
    split; [reflexivity|]. split; [exact Hdv|]. rewrite <- app_assoc. cbn [app].
    split; [reflexivity|discriminate].
Qed.

(** X24: no pass begins without a depth attachment.  Whatever targets the
    renderer holds, a [BeginFrame] that has context and device ends with a
    depth view in place and begins its pass on it; when the renderer had no
    depth view, the depth texture it now holds is live and has the
    renderer's current size. *)
Theorem BeginFrame_always_has_depth (r : WebGPURenderer) (w : World)
    (ctx : handle) (dev : GPUDevice) :
  context r = Some ctx -> gpuDevice r = Some dev ->
  exists r' f w' v,
    BeginFrame r w = (Ok (r', f), w')
    /\ depthTextureView r' = Some v
    /\ pass_events (trace w') =
         pass_events (trace w)
         ++ [BeginRenderPass (encoder f) (frame_attachment r' (colorView f))
               (Some v) (pass f)]
    /\ (depthTextureView r = None ->
        exists t d, depthTexture r' = Some t /\ textures w' !! t = Some d
          /\ tex_width d = Z.max 1 (JS.toInt32 (width r))
          /\ tex_height d = Z.max 1 (JS.toInt32 (height r))).
Proof.
  intros Hc Hd.
  destruct (BeginFrame_pass_events r w ctx dev Hc Hd)
    as (r' & f & w' & E & Hpe & _ & _).
  pose proof (BeginFrame_unfold r w ctx dev Hc Hd) as U. cbn zeta in U.
  rewrite E in U. injection U as Hr' Hf Hw'.
  set (w3 := {| next_handle := S (S (S (next_handle w))) |}) in *.
  set (s1 := match depthTextureView r with
             | None => createOrResizeTargets r w3
             | Some _ => (r, w3)
             end) in *.
  assert (H1 : gpuDevice (fst s1) = Some dev
               /\ width (fst s1) = width r /\ height (fst s1) = height r
               /\ (exists v, depthTextureView (fst s1) = Some v)
               /\ (depthTextureView r = None ->
                   exists t d, depthTexture (fst s1) = Some t
                     /\ textures (snd s1) !! t = Some d
                     /\ tex_width d = Z.max 1 (JS.toInt32 (width r))
                     /\ tex_height d = Z.max 1 (JS.toInt32 (height r)))).
  { unfold s1. destruct (depthTextureView r) as [v0|] eqn:Hv.
    - cbn [fst snd]. repeat split; eauto. discriminate.
    - destruct (createOrResizeTargets_frame r w3)
        as (_ & _ & Hd1 & _ & _ & Hw1 & Hh1 & _).
      destruct (createOrResizeTargets_allocates r w3 dev Hd)
        as (t & v & Ht & Hv1 & Hl & _).
      split; [congruence|]. split; [exact Hw1|]. split; [exact Hh1|].
      split; [eauto|]. intros _. exists t. eexists.
      split; [exact Ht|]. split; [exact Hl|]. split; reflexivity. }
  destruct H1 as (Hd1 & Hw1 & Hh1 & [v1 Hv1] & Hlazy1).
  assert (H2 : (exists v, depthTextureView r' = Some v)
               /\ (depthTextureView r = None ->
                   exists t d, depthTexture r' = Some t
                     /\ textures w' !! t = Some d
                     /\ tex_width d = Z.max 1 (JS.toInt32 (width r))
                     /\ tex_height d = Z.max 1 (JS.toInt32 (height r)))).
  { rewrite Hr', Hw'. cbn [textures].
    destruct (JS.gt (frame_msaa r) (JS.ofZ 1)); [|eauto].
    destruct (msaaTextureView (fst s1)); [eauto|].
    destruct (createOrResizeTargets_allocates (fst s1) (snd s1) dev Hd1)
      as (t & v & Ht & Hv2 & Hl & _).
    split; [eauto|]. intros _. exists t. eexists.
    split; [exact Ht|]. split; [exact Hl|].
    unfold target_descriptor. cbn [tex_width tex_height].
    rewrite Hw1, Hh1. split; reflexivity. }
  destruct H2 as ([v Hv] & Hlazy).
  exists r', f, w', v. split; [exact E|]. split; [exact Hv|].
  split; [rewrite Hpe, Hv; reflexivity | exact Hlazy].
Qed.

End FrameEdges.

(** ** CubeGeometry: the size of the index buffer *)

(** X25: [align4] rounds a size up to the next multiple of four: for an
    integer [z] from 0 to 2^31 - 4, the result is a multiple of 4, at least
    [z] and less than [z + 4]. *)
Theorem align4_rounds_up (z : Z) :
  0 <= z <= 2 ^ 31 - 4 ->
  CubeGeometry.align4 (JS.ofZ z) = 4 * ((z + 3) / 4)
  /\ z <= CubeGeometry.align4 (JS.ofZ z) < z + 4
  /\ CubeGeometry.align4 (JS.ofZ z) mod 4 = 0.
Proof.
  intros Hz.
  assert (E : CubeGeometry.align4 (JS.ofZ z) = 4 * ((z + 3) / 4)).
  { unfold CubeGeometry.align4, JSMath.add, JS.ofZ.
    rewrite <- inject_Z_plus. fold (JS.ofZ (z + 3)).
    rewrite toInt32_ofZ by lia.
    rewrite <- Z.ldiff_land. change 3 with (Z.ones 2) at 2.
    rewrite Z.ldiff_ones_r by lia.
    rewrite Z.shiftl_mul_pow2, Z.shiftr_div_pow2 by lia.
    change (2 ^ 2) with 4. lia. }
  rewrite E. split; [reflexivity|].
  pose proof (Z.div_mod (z + 3) 4 ltac:(lia)) as Hdm.
  pose proof (Z.mod_pos_bound (z + 3) 4 ltac:(lia)) as Hmb.
  split; [lia|]. rewrite Z.mul_comm. apply Z.mod_mul. lia.
Qed.

Lemma align4_rounds_up_witness :
  CubeGeometry.align4 (JS.ofZ 70) = 4 * ((70 + 3) / 4)
  /\ 70 <= CubeGeometry.align4 (JS.ofZ 70) < 70 + 4
  /\ CubeGeometry.align4 (JS.ofZ 70) mod 4 = 0.
Proof. apply align4_rounds_up. lia. Defined.

Lemma Dispose_keeps_the_stale_views_witness :
  let r := ready_renderer None in
  let w1 := RendererSurface.Dispose r (ready_world None) in
  textures w1 !! 4%nat = None
  /\ exists f w2,
       Renderer.BeginFrame r w1 = (Ok (r, f), w2)
       /\ textures w2 = textures w1.
Proof.
  intros r w1.
  destruct (Dispose_keeps_the_stale_views r (ready_world None) 3%nat
              sample_device 4%nat 5%nat) as (Hn & f & w2 & E & Ht & _);
    try reflexivity.
  split; [exact Hn|]. exists f, w2. split; [exact E | exact Ht].
Defined.

Lemma BeginFrame_attachment_policy_witness :
  let r := sample_renderer (Some (JS.ofZ 4)) in
  let r1 := fst (Renderer.createOrResizeTargets r sample_world) in
  let w1 := snd (Renderer.createOrResizeTargets r sample_world) in
  exists f w2 dv,
    Renderer.BeginFrame r1 w1 = (Ok (r1, f), w2)
    /\ textures w2 = textures w1
    /\ Renderer.depthTextureView r1 = Some dv.
Proof.
  intros r r1 w1.
  destruct (BeginFrame_attachment_policy r sample_world 3%nat sample_device)
    as (f & w2 & dv & E & Ht & Hdv & _);
    [reflexivity | reflexivity | right; right; left; reflexivity |].
  exists f, w2, dv. auto.
Defined.

Lemma BeginFrame_always_has_depth_witness :
  exists r' f w' v,
    Renderer.BeginFrame (sample_renderer None) sample_world = (Ok (r', f), w')
    /\ Renderer.depthTextureView r' = Some v.
Proof.
  destruct (BeginFrame_always_has_depth (sample_renderer None) sample_world
              3%nat sample_device) as (r' & f & w' & v & E & Hv & _);
    [reflexivity | reflexivity |].
  exists r', f, w', v. auto.
Defined.

(** ** Render with a camera that was never bound *)

Section UnboundCamera.
Context `{GlMatrix}.
Import Renderer.

Lemma diagnostics_app l1 l2 :
  diagnostics (l1 ++ l2) = diagnostics l1 ++ diagnostics l2.
Proof. apply List.filter_app. Qed.

Lemma diagnostics_of_renders p (l : list Scene.Renderable) :
  diagnostics (map (fun x => RenderableRender (Scene.id x) p) l) = [].
Proof. induction l as [|x l IH]; [reflexivity|exact IH]. Qed.

(** X26: a camera without a uniform buffer does not stop the frame.
    [Render] of a prepared scene with such a camera reports
    [CAM_UNIFORM_BUFFER_UNDEFINED] once, and nothing else, and still draws
    every Renderable, in order, into the pass of the frame. *)
Theorem Render_with_unbound_camera (r : WebGPURenderer)
    (scene : Scene.WebGPURendererScene) (camera : Camera.Camera) (w : World)
    (ctx : handle) (dev : GPUDevice) (q : handle) :
  Scene.hasPrepared scene = true ->
  context r = Some ctx -> gpuDevice r = Some dev -> dev_queue dev = Some q ->
  Camera.uniformBuffer camera = None ->
  exists r' w' p,
    Render r scene camera w = (Ok r', w')
    /\ diagnostics (trace w') =
         diagnostics (trace w) ++ [DebugError CAM_UNIFORM_BUFFER_UNDEFINED]
    /\ draws (trace w') =
         draws (trace w)
         ++ map (fun x => (Scene.id x, p)) (Scene.rendererables scene).
Proof.
  intros Hp Hctx Hdev Hq Hb.
  assert (Ew : Camera.WriteUniformsToQueue q camera w
               = emit (DebugError CAM_UNIFORM_BUFFER_UNDEFINED) w)
    by (unfold Camera.WriteUniformsToQueue; rewrite Hb; reflexivity).
  destruct (BeginFrame_ok r (Camera.WriteUniformsToQueue q camera w) ctx dev
              Hctx Hdev) as (r' & f & w2 & E & G & _ & Hdev' & _).
  destruct (Render_unfold r scene camera w dev q r' f w2 Hp Hdev Hq E Hdev')
    as (w' & ER & Ht & _).
  exists r', w', (pass f). split; [exact ER|]. rewrite Ht. split.
  - rewrite diagnostics_app. simpl.
    rewrite diagnostics_app, diagnostics_of_renders. simpl.
    rewrite app_nil_r, (gpu_only_diagnostics _ _ G), Ew. simpl.
    apply diagnostics_app.
  - rewrite draws_app. simpl. rewrite draws_app, draws_of_renders. simpl.
    rewrite app_nil_r, (gpu_only_draws _ _ G), WriteUniformsToQueue_draws.
    reflexivity.
Qed.

End UnboundCamera.

Lemma Render_with_unbound_camera_witness :
  let scene :=
    {| Scene.rendererables := [sample_renderable 7; sample_renderable 8];
       Scene.hasPrepared := true |} in
  exists r' w' p,
    @Render sample_gl (ready_renderer None) scene sample_camera
      (ready_world None) = (Ok r', w')
    /\ diagnostics (trace w') =
         diagnostics (trace (ready_world None))
         ++ [DebugError CAM_UNIFORM_BUFFER_UNDEFINED]
    /\ draws (trace w') =
         draws (trace (ready_world None))
         ++ map (fun x => (Scene.id x, p)) (Scene.rendererables scene).
Proof.
  intros scene.
  apply (@Render_with_unbound_camera sample_gl (ready_renderer None) scene
           sample_camera (ready_world None) 3%nat sample_device 2%nat);
    reflexivity.
Defined.

Lemma frames_without_platform_objects_witness :
  let scene := {| Scene.rendererables := [sample_renderable 7];
                  Scene.hasPrepared := true |} in
  let r := {| Renderer.width := JS.ofZ 0; Renderer.height := JS.ofZ 0;
              Renderer.devicePixelRatio := JS.ofZ 1;
              Renderer.msaaTexture := None; Renderer.depthTexture := None;
              Renderer.msaaTextureView := None;
              Renderer.depthTextureView := None;
              Renderer.hasInitialized := false;
              Renderer.gpuDevice := None; Renderer.context := None;
              Renderer.format := "bgra8unorm";
              Renderer.canvas := {| Renderer.canvas_width := JS.ofZ 800;
                                    Renderer.canvas_height := JS.ofZ 600 |};
              Renderer.options := {| Renderer.canvasWidth := None;
                                     Renderer.canvasHeight := None;
                                     Renderer.msaaSampleCount := None;
                                     Renderer.clearColor := None |} |} in
  Renderer.BeginFrame r sample_world = (Throw TypeError, sample_world)
  /\ @Render sample_gl r scene sample_camera sample_world
     = (Throw TypeError, sample_world).
Proof.
  intros scene r.
  destruct (@frames_without_platform_objects sample_gl r scene sample_camera
              {| Renderer.encoder := 0%nat; Renderer.pass := 0%nat;
                 Renderer.colorView := 0%nat |} sample_world)
    as (H1 & _ & H3 & _).
  split; [apply H1; reflexivity | apply H3; reflexivity].
Defined.

Lemma ClearEventListeners_silences_witness :
  ThreadListeners.listeners EvStart
    (Thread.events
       (ThreadListeners.ClearEventListeners (Some EvUpdate)
          (register_all [(EvStart, 1%nat); (EvUpdate, 2%nat)] (Thread.new 0 0 0))))
  = ThreadListeners.listeners EvStart
      (Thread.events
         (register_all [(EvStart, 1%nat); (EvUpdate, 2%nat)] (Thread.new 0 0 0))).
Proof.
  apply (proj2 (proj1 (ClearEventListeners_silences
           (register_all [(EvStart, 1%nat); (EvUpdate, 2%nat)] (Thread.new 0 0 0))
           empty_world []) EvUpdate)).
  reflexivity.
Defined.
